(** * Agent LLM Deployment System: a shallow embedding of the task pipeline

    The development follows the Python sources module by module:

    - [src/utils/retry.py]       the backoff retrier ([retry_with_backoff]);
    - [src/services/llm.py]      the provider rotation ([generate_response]);
    - [src/agent/evaluator.py]   the page evaluator ([evaluate_page]);
    - [src/agent/tools.py]       the workspace tools ([cleanup_workspace]);
    - [src/agent/orchestrator.py] the Act and Review phases and round 2;
    - [src/api/routes.py]        the request route and the routing of a task
                                 by its round;
    - [src/services/database.py] the operations on the task table, with the
                                 schema of [src/models/database.py].

    Every coroutine is a computation in one state-and-exception monad: the
    state carries the outside world (providers, browser, file system, hosting
    service) and a trace of the calls made on it; an exception leaves the
    state as it was when it was raised, as in Python.  Python [float]s are
    modelled by exact rationals ([Q]).  Python [str]s are modelled by strings
    over the first 256 code points (Latin-1): a character of [string] stands
    for the code point of its number, and the character classes below
    ([str.isspace], [str.lower], the [\w] of [re]) are Python's on these
    code points. *)

From stdpp Require Import gmap strings list pretty.
From Stdlib Require Import Ascii QArith.

Open Scope Z_scope.

(** ** Exceptions and the coroutine monad *)

(** A Python exception (some subclass of [Exception]): its class name and the
    text that [str(e)] returns. *)
Inductive exn := PyExc (cls msg : string).

Definition str (e : exn) : string := let 'PyExc _ msg := e in msg.

Definition ValueError (msg : string) : exn := PyExc "ValueError" msg.
Definition TypeError (msg : string) : exn := PyExc "TypeError" msg.
Definition IndexError (msg : string) : exn := PyExc "IndexError" msg.

Inductive result (A : Type) :=
| Ok (a : A)
| Raise (e : exn).
Arguments Ok {A} a.
Arguments Raise {A} e.

Definition is_ok {A} (r : result A) : bool :=
  match r with Ok _ => true | Raise _ => false end.

(** A coroutine over a state [S]: it ends with a value or an exception, and
    with the state it reached. *)
Definition M (S A : Type) : Type := S -> result A * S.

Definition ret {S A} (a : A) : M S A := fun s => (Ok a, s).

Definition bind {S A B} (m : M S A) (k : A -> M S B) : M S B :=
  fun s => match m s with
           | (Ok a, s') => k a s'
           | (Raise e, s') => (Raise e, s')
           end.

Definition raise {S A} (e : exn) : M S A := fun s => (Raise e, s).

(** [try: m except Exception as e: h e] *)
Definition try_except {S A} (m : M S A) (h : exn -> M S A) : M S A :=
  fun s => match m s with
           | (Ok a, s') => (Ok a, s')
           | (Raise e, s') => h e s'
           end.

(** [try: m finally: c].  The outcome of [m] is kept unless [c] itself
    raises, in which case the exception of [c] replaces it. *)
Definition try_finally {S A} (m : M S A) (c : M S unit) : M S A :=
  fun s => match m s with
           | (r, s') =>
               match c s' with
               | (Ok _, s'') => (r, s'')
               | (Raise e, s'') => (Raise e, s'')
               end
           end.

Notation "'let*' x := m 'in' k" := (bind m (fun x => k))
  (at level 10, x name, m at level 100, k at level 200).
Notation "m >> k" := (bind m (fun _ => k))
  (at level 90, right associativity).

(** The state of an instrumented run: the outside world and the calls made
    on it so far, oldest first. *)
Record run (W Ev : Type) := Run { world : W; trace : list Ev }.
Arguments Run {W Ev} world trace.
Arguments world {W Ev} r.
Arguments trace {W Ev} r.

Definition emit {W Ev} (ev : Ev) : M (run W Ev) unit :=
  fun s => (Ok tt, Run (world s) (trace s ++ [ev])).

(** An operation of the outside world: it answers and moves the world on. *)
Definition extern (W A : Type) : Type := W -> result A * W.

(** Python's [range(lo, hi)]. *)
Definition py_range (lo hi : Z) : list Z :=
  map (fun k => lo + Z.of_nat k) (seq 0 (Z.to_nat (hi - lo))).

(** Python's two-argument [min]: the first argument unless the second is
    strictly smaller. *)
Definition py_min (a b : Q) : Q := if Qle_bool a b then a else b.

(** How a block that contains a [return] is left when it does not raise: by
    the [return], or by reaching its end, with the locals that the
    statements after it read. *)
Inductive flow (R L : Type) :=
| Return (r : R)
| FallThrough (locals : L).
Arguments Return {R L} r.
Arguments FallThrough {R L} locals.

(** ** src/utils/retry.py *)

(** What a run of the retrier does to the outside: it awaits [func] and it
    sleeps. *)
Inductive retry_event (A : Type) :=
| Invoke (attempt : Z) (r : result A)
| Sleep (delay : Q).
Arguments Invoke {A} attempt r.
Arguments Sleep {A} delay.

(** [raise last_exception]: raising [None] is a [TypeError]. *)
Definition raise_value {S B} (last_exception : option exn) : M S B :=
  match last_exception with
  | Some e => raise e
  | None => raise (TypeError "exceptions must derive from BaseException")
  end.

Section retry.
Context {W A : Type}.
Variable func : extern W A.
Variables (max_attempts : Z) (initial_delay max_delay backoff_factor : Q).

Definition await_func (attempt : Z) : M (run W (retry_event A)) A :=
  fun s => let (r, w') := func (world s) in
           (r, Run w' (trace s ++ [Invoke attempt r])).

Definition asyncio_sleep (delay : Q) : M (run W (retry_event A)) unit :=
  emit (Sleep delay).

(** The [for attempt in range(1, max_attempts + 1)] loop, on what is left
    of the range; [last_exception] is the local of that name.  The handler
    ends with the next iteration since nothing follows the [try] statement
    in the loop body. *)
Fixpoint retry_loop (range : list Z) (delay : Q) (last_exception : option exn)
  : M (run W (retry_event A)) (flow A (option exn)) :=
  match range with
  | [] => ret (FallThrough last_exception)
  | attempt :: range' =>
      try_except
        (let* result := await_func attempt in
         ret (Return result))
        (fun e =>
           (* last_exception = e *)
           if attempt =? max_attempts then raise e
           else
             asyncio_sleep delay >>
             retry_loop range' (py_min (delay * backoff_factor) max_delay) (Some e))
  end.

Definition retry_with_backoff : M (run W (retry_event A)) A :=
  let* x := retry_loop (py_range 1 (max_attempts + 1)) initial_delay None in
  match x with
  | Return result => ret result
  | FallThrough last_exception => raise_value last_exception
  end.
End retry.

(** Observations on a trace of the retrier. *)
Definition invocations {A} (tr : list (retry_event A)) : list (Z * result A) :=
  omap (fun ev => match ev with Invoke k r => Some (k, r) | Sleep _ => None end) tr.

Definition sleeps {A} (tr : list (retry_event A)) : list Q :=
  omap (fun ev => match ev with Sleep d => Some d | Invoke _ _ => None end) tr.

Definition total_slept {A} (tr : list (retry_event A)) : Q :=
  foldr Qplus 0%Q (sleeps tr).

Definition failed_or_sleep {A} (ev : retry_event A) : Prop :=
  match ev with Invoke _ (Ok _) => False | _ => True end.

(** A fresh run on a world. *)
Definition start {W Ev} (w : W) : run W Ev := Run w [].

(** ** src/services/llm.py *)

(** The arguments of [generate_response]. *)
Record request := Request {
  prompt : string;
  system_message : string;
  max_tokens : Z;
  temperature : Q
}.

(** A provider object: what its [generate_response] does on the outside
    world. *)
Definition provider (W : Type) : Type := request -> extern W string.

(** The [LLMService] object with the world its providers talk to. *)
Record llm (W : Type) := LLM {
  providers : list (provider W);
  current_provider_index : Z;
  outside : W
}.
Arguments LLM {W} providers current_provider_index outside.
Arguments providers {W} l.
Arguments current_provider_index {W} l.
Arguments outside {W} l.

(** One attempt: the value of the cursor when it was made, and how the
    provider answered. *)
Inductive llm_event :=
| Attempt (index : Z) (r : result string).

Definition attempt_index (ev : llm_event) : Z := let 'Attempt i _ := ev in i.

Definition attempt_result (ev : llm_event) : result string := let 'Attempt _ r := ev in r.

Definition attempt_failed (ev : llm_event) : Prop :=
  match ev with Attempt _ (Raise _) => True | Attempt _ (Ok _) => False end.

(** Python's [l[i]] on a list: a negative index counts from the end, and
    [None] stands for the [IndexError]. *)
Definition py_index {A} (l : list A) (i : Z) : option A :=
  let n := Z.of_nat (length l) in
  if 0 <=? i then l !! Z.to_nat i
  else if - n <=? i then l !! Z.to_nat (n + i)
  else None.

(** Python's [a % n] on integers. *)
Definition py_mod {S} (a n : Z) : M S Z :=
  if n =? 0 then raise (PyExc "ZeroDivisionError" "integer division or modulo by zero")
  else ret (a mod n).

(** [f"{last_error}"] *)
Definition format_error (last_error : option exn) : string :=
  match last_error with
  | Some e => str e
  | None => "None"
  end.

Section llm.
Context {W : Type}.

Definition get_providers : M (run (llm W) llm_event) (list (provider W)) :=
  fun s => (Ok (providers (world s)), s).

Definition get_cursor : M (run (llm W) llm_event) Z :=
  fun s => (Ok (current_provider_index (world s)), s).

Definition set_cursor (i : Z) : M (run (llm W) llm_event) unit :=
  fun s => (Ok tt, Run (LLM (providers (world s)) i (outside (world s))) (trace s)).

Definition subscript (ps : list (provider W)) (i : Z)
  : M (run (llm W) llm_event) (provider W) :=
  match py_index ps i with
  | Some p => ret p
  | None => raise (IndexError "list index out of range")
  end.

Definition await_provider (index : Z) (p : provider W) (req : request)
  : M (run (llm W) llm_event) string :=
  fun s => let (r, w') := p req (outside (world s)) in
           (r, Run (LLM (providers (world s)) (current_provider_index (world s)) w')
                 (trace s ++ [Attempt index r])).

(** [self.current_provider_index = (self.current_provider_index + 1) % len(self.providers)] *)
Definition advance_cursor : M (run (llm W) llm_event) unit :=
  let* index := get_cursor in
  let* ps := get_providers in
  let* next := py_mod (index + 1) (Z.of_nat (length ps)) in
  set_cursor next.

(** The [for i in range(len(self.providers))] loop, on what is left of the
    range.  The statement after the [try] is reached only from the handler,
    the [try] block ending with [return]. *)
Fixpoint provider_loop (req : request) (range : list Z) (last_error : option exn)
  : M (run (llm W) llm_event) (flow string (option exn)) :=
  match range with
  | [] => ret (FallThrough last_error)
  | i :: range' =>
      let* ps := get_providers in
      let* index := get_cursor in
      let* provider := subscript ps index in
      try_except
        (let* response := await_provider index provider req in
         (* Rotate to next provider for load balancing *)
         advance_cursor >>
         ret (Return response))
        (fun e =>
           (* last_error = e *)
           (* Move to next provider *)
           advance_cursor >>
           provider_loop req range' (Some e))
  end.

Definition generate_response (req : request) : M (run (llm W) llm_event) string :=
  let* ps := get_providers in
  match ps with
  | [] => raise (ValueError "No LLM providers available")
  | _ :: _ =>
      let* x := provider_loop req (py_range 0 (Z.of_nat (length ps))) None in
      match x with
      | Return response => ret response
      | FallThrough last_error =>
          let error_msg := "All LLM providers failed. Last error: " +:+ format_error last_error in
          raise (ValueError error_msg)
      end
  end.
End llm.

(** The cursor values of [len] successive attempts from cursor [c] among [n]
    providers. *)
Definition rotation (c n : Z) (len : nat) : list Z :=
  map (fun j => (c + Z.of_nat j) mod n) (seq 0 len).

(** The event is the answer of the provider under the cursor, in some state
    of the world. *)
Definition answered_by {W} (ps : list (provider W)) (req : request) (ev : llm_event) : Prop :=
  exists p w w', py_index ps (attempt_index ev) = Some p /\ p req w = (attempt_result ev, w').

(** The error that the local [last_error] holds after the attempts [evs]. *)
Definition final_error (err : option exn) (evs : list llm_event) : option exn :=
  match last evs with
  | Some (Attempt _ (Raise e)) => Some e
  | _ => err
  end.

(** ** Python string operations (on the code points below 256) *)

(** [str.isspace] on one character: the ASCII white space, the separators
    U+001C to U+001F, NEL (U+0085) and the no-break space (U+00A0). *)
Definition py_isspace (c : ascii) : bool :=
  let n := nat_of_ascii c in
  ((9 <=? n) && (n <=? 13) || (28 <=? n) && (n <=? 32) || (n =? 133) || (n =? 160))%nat.

(** [str.lower]: the upper-case letters are A to Z and U+00C0 to U+00DE
    without the multiplication sign (U+00D7); each has its lower-case letter
    32 places further. *)
Definition lower_char (c : ascii) : ascii :=
  let n := nat_of_ascii c in
  if ((65 <=? n) && (n <=? 90) || (192 <=? n) && (n <=? 222) && negb (n =? 215))%nat
  then ascii_of_nat (n + 32) else c.

Fixpoint lower (s : string) : string :=
  match s with
  | EmptyString => EmptyString
  | String c s' => String (lower_char c) (lower s')
  end.

(** [needle in hay] *)
Fixpoint contains (needle hay : string) : bool :=
  String.prefix needle hay
  || match hay with
     | EmptyString => false
     | String _ hay' => contains needle hay'
     end.

(** [s[n:]] *)
Fixpoint drop_chars (n : nat) (s : string) : string :=
  match n, s with
  | O, _ => s
  | S n', String _ s' => drop_chars n' s'
  | S _, EmptyString => EmptyString
  end.

Fixpoint lstrip (s : string) : string :=
  match s with
  | String c s' => if py_isspace c then lstrip s' else s
  | EmptyString => EmptyString
  end.

(** [str.strip] *)
Definition strip (s : string) : string :=
  String.rev (lstrip (String.rev (lstrip s))).

(** [str.split] without argument: the maximal runs of characters that are
    not white space. *)
Fixpoint split_go (cur : option string) (s : string) : list string :=
  match s with
  | EmptyString => option_list (String.rev <$> cur)
  | String c s' =>
      if py_isspace c
      then option_list (String.rev <$> cur) ++ split_go None s'
      else split_go (Some (from_option (String c) (String c EmptyString) cur)) s'
  end.

Definition split (s : string) : list string := split_go None s.

(** [str.isalnum] on one character: the ASCII digits and letters and, above
    them, the letters and numbers of Latin-1 (the ordinal indicators, the
    superscripts 1 to 3, the micro sign, the three fractions, and the
    letters from U+00C0 on without the multiplication and division signs). *)
Definition py_isalnum (c : ascii) : bool :=
  let n := nat_of_ascii c in
  ((48 <=? n) && (n <=? 57) || (65 <=? n) && (n <=? 90) || (97 <=? n) && (n <=? 122)
   || (n =? 170) || (178 <=? n) && (n <=? 179) || (n =? 181)
   || (185 <=? n) && (n <=? 186) || (188 <=? n) && (n <=? 190)
   || (192 <=? n) && (n <=? 214) || (216 <=? n) && (n <=? 246) || (248 <=? n))%nat.

(** A character of the class [[\w-]]: [\w] is an alphanumeric character or
    the underscore. *)
Definition is_id_char (c : ascii) : bool :=
  let n := nat_of_ascii c in
  (py_isalnum c || (n =? 95) || (n =? 45))%nat.

Fixpoint take_id (s : string) : string :=
  match s with
  | String c s' => if is_id_char c then String c (take_id s') else EmptyString
  | EmptyString => EmptyString
  end.

(** [re.search(r'#([\w-]+)', s)]: group 1 of the leftmost match. *)
Fixpoint search_id (s : string) : option string :=
  match s with
  | EmptyString => None
  | String c s' =>
      if Ascii.eqb c "#"%char then
        match take_id s' with
        | EmptyString => search_id s'
        | id => Some id
        end
      else search_id s'
  end.

(** ** src/agent/evaluator.py *)

(** What [page.evaluate] hands back to Python; [JsOther] stands for the
    values (floats, lists, dicts) of which only the truth value and the text
    are read. *)
Inductive js_value :=
| JsNone
| JsBool (b : bool)
| JsInt (n : Z)
| JsStr (s : string)
| JsOther (truth : bool) (text : string).

(** [bool(result)] *)
Definition truthy (v : js_value) : bool :=
  match v with
  | JsNone => false
  | JsBool b => b
  | JsInt n => negb (n =? 0)
  | JsStr s => negb (String.eqb s "")
  | JsOther truth _ => truth
  end.

(** [f"{result}"] *)
Definition format_value (v : js_value) : string :=
  match v with
  | JsNone => "None"
  | JsBool true => "True"
  | JsBool false => "False"
  | JsInt n => pretty n
  | JsStr s => s
  | JsOther _ text => text
  end.

(** The dict that a check returns: ['reason'] may be missing, and may be
    [None]. *)
Record check_result := CheckResult {
  passed : bool;
  reason : option (option string)
}.

(** An entry of [results['checks_failed']]. *)
Record failed_check := FailedCheck {
  check : string;
  failed_reason : option string
}.

(** The [results] dict of [evaluate_page]. *)
Record evaluation := Evaluation {
  url : string;
  checks_passed : list string;
  checks_failed : list failed_check;
  total_checks : Z;
  score : Q;
  screenshot : option string;
  errors : list string
}.

(** The browser, as far as [evaluate_page] uses it: one page at a time.
    [goto] answers with no response or with the status of the response;
    [query_selector] tells whether an element was found. *)
Record playwright (W : Type) := Playwright {
  new_page : extern W unit;
  goto : string -> Z -> extern W (option Z);
  wait_for_load_state : extern W unit;
  page_evaluate : string -> extern W js_value;
  page_content : extern W string;
  page_title : extern W string;
  query_selector : string -> extern W bool;
  page_screenshot : extern W string;
  page_close : extern W unit
}.
Arguments Playwright {W}.
Arguments new_page {W} p.
Arguments goto {W} p.
Arguments wait_for_load_state {W} p.
Arguments page_evaluate {W} p.
Arguments page_content {W} p.
Arguments page_title {W} p.
Arguments query_selector {W} p.
Arguments page_screenshot {W} p.
Arguments page_close {W} p.

Inductive page_call :=
| NewPage
| Goto (url : string) (timeout : Z)
| WaitForLoadState
| AsyncioSleep (seconds : Z)
| Evaluate (expression : string)
| Content
| Title
| QuerySelector (selector : string)
| Screenshot
| ClosePage.

(** The calls that run a check on the page. *)
Definition is_check_call (c : page_call) : bool :=
  match c with
  | Evaluate _ | Content | Title | QuerySelector _ => true
  | _ => false
  end.

(** The browser world with the local [results] of the running
    [evaluate_page]. *)
Record evaluating (W : Type) := Evaluating {
  browser_world : W;
  results : evaluation
}.
Arguments Evaluating {W} browser_world results.
Arguments browser_world {W} e.
Arguments results {W} e.

Definition append_passed (c : string) (r : evaluation) : evaluation :=
  Evaluation (url r) (checks_passed r ++ [c]) (checks_failed r) (total_checks r)
    (score r) (screenshot r) (errors r).

Definition append_failed (f : failed_check) (r : evaluation) : evaluation :=
  Evaluation (url r) (checks_passed r) (checks_failed r ++ [f]) (total_checks r)
    (score r) (screenshot r) (errors r).

Definition set_score (q : Q) (r : evaluation) : evaluation :=
  Evaluation (url r) (checks_passed r) (checks_failed r) (total_checks r)
    q (screenshot r) (errors r).

Definition set_screenshot (bytes : string) (r : evaluation) : evaluation :=
  Evaluation (url r) (checks_passed r) (checks_failed r) (total_checks r)
    (score r) (Some bytes) (errors r).

Definition append_error (msg : string) (r : evaluation) : evaluation :=
  Evaluation (url r) (checks_passed r) (checks_failed r) (total_checks r)
    (score r) (screenshot r) (errors r ++ [msg]).

(** The double quote character. *)
Definition dq : string := String "034"%char EmptyString.

(** The script of the Bootstrap check (layout white space left out). *)
Definition bootstrap_script : string :=
  "() => { const links = document.querySelectorAll('link[href*=" +:+ dq +:+ "bootstrap" +:+ dq
  +:+ "]'); const scripts = document.querySelectorAll('script[src*=" +:+ dq +:+ "bootstrap"
  +:+ dq +:+ "]'); return links.length > 0 || scripts.length > 0; }".

Section evaluator.
Context {W : Type}.
Variable pw : playwright W.

(** A call on the page. *)
Definition call {A} (c : page_call) (op : extern W A)
  : M (run (evaluating W) page_call) A :=
  fun s => let (r, w') := op (browser_world (world s)) in
           (r, Run (Evaluating w' (results (world s))) (trace s ++ [c])).

Definition get_results : M (run (evaluating W) page_call) evaluation :=
  fun s => (Ok (results (world s)), s).

Definition update_results (f : evaluation -> evaluation)
  : M (run (evaluating W) page_call) unit :=
  fun s => (Ok tt, Run (Evaluating (browser_world (world s)) (f (results (world s))))
                     (trace s)).

Definition _run_js_check (js_expression : string)
  : M (run (evaluating W) page_call) check_result :=
  try_except
    (let* result := call (Evaluate js_expression) (page_evaluate pw js_expression) in
     let passed := truthy result in
     ret (CheckResult passed
            (Some (if passed then None
                   else Some ("JS expression returned: " +:+ format_value result)))))
    (fun e =>
       ret (CheckResult false (Some (Some ("JS evaluation error: " +:+ str e))))).

Definition _run_text_check (check : string)
  : M (run (evaluating W) page_call) check_result :=
  try_except
    (let* content := call Content (page_content pw) in
     let* title := call Title (page_title pw) in
     let check_lower := lower check in
     if contains "license" check_lower && contains "mit" check_lower then
       ret (CheckResult true (Some (Some "License check is repo-level")))
     else if contains "readme" check_lower then
       ret (CheckResult true (Some (Some "README check is repo-level")))
     else if contains "title" check_lower then
       if existsb (fun word => contains word (lower title)) (split check_lower) then
         ret (CheckResult true None)
       else
         ret (CheckResult false
                (Some (Some ("Title '" +:+ title +:+ "' doesn't match requirement"))))
     else
       match search_id check with
       | Some element_id =>
           let* element := call (QuerySelector ("#" +:+ element_id))
                             (query_selector pw ("#" +:+ element_id)) in
           if (element : bool) then ret (CheckResult true None)
           else ret (CheckResult false
                       (Some (Some ("Element #" +:+ element_id +:+ " not found"))))
       | None =>
           if contains "bootstrap" check_lower then
             let* has_bootstrap := call (Evaluate bootstrap_script)
                                     (page_evaluate pw bootstrap_script) in
             if truthy has_bootstrap then ret (CheckResult true None)
             else ret (CheckResult false (Some (Some "Bootstrap not found")))
           else
             ret (CheckResult true (Some (Some "Generic check passed")))
       end)
    (fun e =>
       ret (CheckResult false (Some (Some ("Text check error: " +:+ str e))))).

Definition _run_check (check : string)
  : M (run (evaluating W) page_call) check_result :=
  try_except
    (if String.prefix "js:" check then
       let js_expression := strip (drop_chars 3 check) in
       _run_js_check js_expression
     else
       _run_text_check check)
    (fun e => ret (CheckResult false (Some (Some (str e))))).

(** [check_result.get('reason', 'Check failed')] *)
Definition get_reason (check_result : check_result) : option string :=
  match reason check_result with
  | Some v => v
  | None => Some "Check failed"
  end.

(** [for check in checks: ...] *)
Fixpoint run_checks (checks : list string) : M (run (evaluating W) page_call) unit :=
  match checks with
  | [] => ret tt
  | check :: checks' =>
      let* check_result := _run_check check in
      (if passed check_result then update_results (append_passed check)
       else update_results (append_failed (FailedCheck check (get_reason check_result)))) >>
      run_checks checks'
  end.

(** [not response or response.status != 200] *)
Definition bad_response (response : option Z) : bool :=
  match response with
  | None => true
  | Some status => negb (status =? 200)
  end.

(** [response.status if response else 'None'], formatted. *)
Definition format_status (response : option Z) : string :=
  match response with
  | Some status => pretty status
  | None => "None"
  end.

(** The inner [try] statement: navigation.  Both of its [return results] leave
    the function. *)
Definition navigate (pages_url : string) (timeout : Z)
  : M (run (evaluating W) page_call) (flow evaluation unit) :=
  try_except
    (let* response := call (Goto pages_url timeout) (goto pw pages_url timeout) in
     if bad_response response then
       update_results (append_error ("Page returned status " +:+ format_status response)) >>
       let* results := get_results in
       ret (Return results)
     else ret (FallThrough tt))
    (fun e =>
       update_results (append_error ("Failed to load page: " +:+ str e)) >>
       let* results := get_results in
       ret (Return results)).

(** The block of the outer [try] statement. *)
Definition evaluate_page_try (pages_url : string) (checks : list string) (timeout : Z)
  : M (run (evaluating W) page_call) (flow evaluation unit) :=
  call NewPage (new_page pw) >>
  let* nav := navigate pages_url timeout in
  match nav with
  | Return results => ret (Return results)
  | FallThrough _ =>
      (* Wait for page to be ready *)
      call WaitForLoadState (wait_for_load_state pw) >>
      call (AsyncioSleep 2) (fun w => (Ok tt, w)) >>
      (* Run each check *)
      run_checks checks >>
      (* Calculate score *)
      let* results := get_results in
      (if 0 <? total_checks results then
         update_results
           (set_score (inject_Z (Z.of_nat (length (checks_passed results)))
                       / inject_Z (total_checks results)))
       else ret tt) >>
      (* Take screenshot *)
      try_except
        (let* screenshot_bytes := call Screenshot (page_screenshot pw) in
         update_results (set_screenshot screenshot_bytes))
        (fun e => ret tt) >>
      call ClosePage (page_close pw) >>
      ret (FallThrough tt)
  end.

(** [evaluate_page], with its local [results]. *)
Definition evaluate_page_local (pages_url : string) (checks : list string) (timeout : Z)
  : M (run (evaluating W) page_call) evaluation :=
  let* x :=
    try_except
      (evaluate_page_try pages_url checks timeout)
      (fun e =>
         update_results (append_error (str e)) >>
         ret (FallThrough tt)) in
  match x with
  | Return results => ret results
  | FallThrough _ => get_results
  end.

Definition evaluate_page (pages_url : string) (checks : list string) (timeout : Z)
  : M (run W page_call) evaluation :=
  fun s =>
    let results :=
      Evaluation pages_url [] [] (Z.of_nat (length checks)) 0 None [] in
    let (r, s') :=
      evaluate_page_local pages_url checks timeout
        (Run (Evaluating (world s) results) (trace s)) in
    (r, Run (browser_world (world s')) (trace s')).
End evaluator.

(** Navigation fails: [goto] raises, or there is no response, or its status
    is not 2xx. *)
Definition navigation_failed (g : result (option Z)) : Prop :=
  match g with
  | Raise _ => True
  | Ok None => True
  | Ok (Some status) => ~ (200 <= status < 300)
  end.

(** The entry of [errors] that records how navigation ended. *)
Definition navigation_error (g : result (option Z)) : string :=
  match g with
  | Raise e => "Failed to load page: " +:+ str e
  | Ok response => "Page returned status " +:+ format_status response
  end.

(** ** Python strings and dicts, continued *)

(** [s.replace(old, new)] for a non-empty [old]: the occurrences are taken
    from the left and do not overlap; [skip] counts the characters of the
    occurrence that is being replaced. *)
Fixpoint replace_go (old new : string) (skip : nat) (s : string) : string :=
  match s with
  | EmptyString => EmptyString
  | String c s' =>
      match skip with
      | S skip' => replace_go old new skip' s'
      | O =>
          if String.prefix old s
          then new +:+ replace_go old new (String.length old - 1) s'
          else String c (replace_go old new 0 s')
      end
  end.

Definition replace (old new s : string) : string := replace_go old new 0 s.

(** [s.split(sep)] for a separator of one character. *)
Fixpoint split_on (sep : ascii) (s : string) : list string :=
  match s with
  | EmptyString => [EmptyString]
  | String c s' =>
      if Ascii.eqb c sep then EmptyString :: split_on sep s'
      else match split_on sep s' with
           | piece :: pieces => String c piece :: pieces
           | [] => [String c EmptyString]
           end
  end.

(** [s[:n]] *)
Definition take_chars (n : nat) (s : string) : string := String.substring 0 n s.

(** A [dict] with string keys, in insertion order. *)
Definition dict (V : Type) : Type := list (string * V).

(** [d[k] = v]: a key that is present keeps its place. *)
Fixpoint dict_set {V} (k : string) (v : V) (d : dict V) : dict V :=
  match d with
  | [] => [(k, v)]
  | (k', v') :: d' =>
      if String.eqb k' k then (k, v) :: d' else (k', v') :: dict_set k v d'
  end.

(** [list(d.keys())] *)
Definition keys {V} (d : dict V) : list string := map fst d.

(** ** src/agent/tools.py, src/agent/orchestrator.py, src/api/routes.py *)

(** The task, as [request_task] builds it. *)
Record task_data := TaskData {
  task_id : string;
  round : Z;
  nonce : string;
  brief : string;
  checks : list string;
  attachments : list (string * string);
  evaluation_url : string;
  email : string
}.

(** What the hosting service answers to a deployment. *)
Record deployment_result := Deployment {
  repo_url : string;
  commit_sha : string;
  pages_url : string
}.

(** The dict returned by [_act_phase] (with ['files_generated']) and by
    [process_round2_task] (with ['files_updated']). *)
Record act_result := ActResult {
  workspace_id : string;
  files_count : Z;
  deployment : deployment_result;
  status : string
}.

(** The body of the completion callback. *)
Record callback_payload := Payload {
  payload_email : string;
  payload_task : string;
  payload_round : Z;
  payload_nonce : string;
  payload_repo_url : string;
  payload_commit_sha : string;
  payload_pages_url : string
}.

(** The outcome of the Think phase: the parsed answer of the model (kept as
    its text), or the default analysis with its success criteria. *)
Inductive analysis :=
| ParsedAnalysis (text : string)
| DefaultAnalysis (success_criteria : list string).

Inductive plan :=
| ParsedPlan (text : string)
| DefaultPlan.

(** The dict returned by [_run_quality_checks]. *)
Record quality_checks := QualityChecks {
  overall_score : Q;
  quality_passed : list string;
  quality_failed : list string;
  recommendations : list string;
  quality_screenshot : option string
}.

(** The report of the Review phase. *)
Record final_report := FinalReport {
  report_task_id : string;
  report_status : string;
  report_deployment : option deployment_result;
  quality_score : Q;
  report_checks_passed : list string;
  report_checks_failed : list string;
  report_recommendations : list string;
  completed_at : string
}.

(** A row of the task table, as far as it is read. *)
Record db_task := DbTask {
  db_repo_url : option string
}.

(** The collaborators of the pipeline, as operations on the world [U] beyond
    the workspace directories: operating system, language model, code
    generator, document generators, hosting service, HTTP, browser, clock and
    database.  The text of the prompts and of the generated documents is left
    open.  [json_loads] is [json.loads] on the answer of the model: the parsed
    value is kept as its text; a text that is not JSON raises
    [JSONDecodeError], and the parser may raise something else (a
    [RecursionError] on a text that is nested too deeply). *)
Record collaborators (U : Type) := Collaborators {
  uuid4 : U -> string * U;
  now : U -> string * U;
  mkdir : string -> extern U unit;
  run_command : string -> string -> U -> U;
  rmtree : string -> extern U unit;
  llm_generate : request -> extern U string;
  think_prompt : task_data -> string;
  plan_prompt : analysis -> task_data -> string;
  json_loads : string -> result unit;
  generate_application : task_data -> string -> extern U (dict string);
  update_application : task_data -> string -> dict string -> extern U (dict string);
  generate_mit_license : string;
  generate_code_explanation : string -> dict string -> extern U string;
  generate_readme :
    string -> string -> list string -> string -> string -> list string -> string -> string;
  deploy_application : string -> dict string -> string -> extern U deployment_result;
  update_repository : string -> dict string -> string -> extern U string;
  http_post : string -> callback_payload -> extern U Z;
  browser_start : extern U unit;
  browser_page : playwright U;
  browser_stop : extern U unit;
  update_task_status : Z -> string -> extern U unit;
  update_task_error : Z -> string -> extern U unit;
  update_task_deployment : Z -> string -> string -> extern U unit;
  get_task_by_task_id_and_round : string -> Z -> extern U (option db_task)
}.
Arguments Collaborators {U}.
Arguments uuid4 {U} c.
Arguments now {U} c.
Arguments mkdir {U} c.
Arguments run_command {U} c.
Arguments rmtree {U} c.
Arguments llm_generate {U} c.
Arguments think_prompt {U} c.
Arguments plan_prompt {U} c.
Arguments json_loads {U} c.
Arguments generate_application {U} c.
Arguments update_application {U} c.
Arguments generate_mit_license {U} c.
Arguments generate_code_explanation {U} c.
Arguments generate_readme {U} c.
Arguments deploy_application {U} c.
Arguments update_repository {U} c.
Arguments http_post {U} c.
Arguments browser_start {U} c.
Arguments browser_page {U} c.
Arguments browser_stop {U} c.
Arguments update_task_status {U} c.
Arguments update_task_error {U} c.
Arguments update_task_deployment {U} c.
Arguments get_task_by_task_id_and_round {U} c.

(** The world of a task run: the workspace directories on disk, the
    [workspaces] dict of the [AgentTools] object, and the rest.  Only
    [Path.mkdir] and [shutil.rmtree] create and remove workspace
    directories; the collaborators work inside them. *)
Record host (U : Type) := Host {
  dirs : gset string;
  workspaces : gmap string string;
  beyond : U
}.
Arguments Host {U} dirs workspaces beyond.
Arguments dirs {U} h.
Arguments workspaces {U} h.
Arguments beyond {U} h.

(** The calls of a task run. *)
Inductive task_event :=
| Uuid4 (id : string)
| Now
| Mkdir (path : string)
| RunCommand (command cwd : string)
| Rmtree (path : string)
| CleanupWorkspace (workspace_path : string)
| Generate (req : request)
| GenerateApplication (workspace_path : string)
| UpdateApplication (workspace_path : string) (existing_files : dict string)
| GenerateCodeExplanation (files : dict string)
| DeployApplication (task_id : string) (files : dict string) (description : string)
| UpdateRepository (repo_url : string) (files : dict string) (commit_message : string)
| PostWithRetry (url : string) (payload : callback_payload) (attempts : list (retry_event Z))
| BrowserStart
| EvaluatePage (pages_url : string) (calls : list page_call)
| BrowserStop
| UpdateTaskStatus (id : Z) (status : string)
| UpdateTaskError (id : Z) (message : string)
| UpdateTaskDeployment (id : Z) (repo_url pages_url : string)
| GetTaskByTaskIdAndRound (task_id : string) (round : Z).

Definition is_cleanup (ev : task_event) : bool :=
  match ev with CleanupWorkspace _ => true | _ => false end.

(** What [process_autonomous_task] gets from the orchestrator. *)
Inductive task_result :=
| Report (r : final_report)
| Updated (r : act_result).

(** [result.get('deployment')] *)
Definition get_deployment (result : task_result) : option deployment_result :=
  match result with
  | Report r => report_deployment r
  | Updated r => Some (deployment r)
  end.

Section orchestrator.
Context {U : Type}.
Variable C : collaborators U.

(** A call on the world beyond. *)
Definition outside_call {A} (ev : task_event) (op : extern U A)
  : M (run (host U) task_event) A :=
  fun s => let (r, u') := op (beyond (world s)) in
           (r, Run (Host (dirs (world s)) (workspaces (world s)) u') (trace s ++ [ev])).

(** *** AgentTools *)

Definition path_mkdir (path : string) : M (run (host U) task_event) unit :=
  fun s => match mkdir C path (beyond (world s)) with
           | (Ok _, u') =>
               (Ok tt, Run (Host ({[path]} ∪ dirs (world s)) (workspaces (world s)) u')
                         (trace s ++ [Mkdir path]))
           | (Raise e, u') =>
               (Raise e, Run (Host (dirs (world s)) (workspaces (world s)) u')
                           (trace s ++ [Mkdir path]))
           end.

(** [_run_command] catches whatever goes wrong and answers with a dict. *)
Definition _run_command (command workspace_path : string)
  : M (run (host U) task_event) unit :=
  fun s => (Ok tt, Run (Host (dirs (world s)) (workspaces (world s))
                          (run_command C command workspace_path (beyond (world s))))
                     (trace s ++ [RunCommand command workspace_path])).

Definition set_workspace (workspace_path : string) : M (run (host U) task_event) unit :=
  fun s => (Ok tt, Run (Host (dirs (world s))
                          (<[workspace_path := workspace_path]> (workspaces (world s)))
                          (beyond (world s))) (trace s)).

Definition create_workspace (workspace_path : string)
  : M (run (host U) task_event) string :=
  try_except
    (path_mkdir workspace_path >>
     _run_command "git init" workspace_path >>
     _run_command "git config user.name 'AI Agent'" workspace_path >>
     _run_command "git config user.email 'agent@llm-deployment.com'" workspace_path >>
     set_workspace workspace_path >>
     ret workspace_path)
    (fun e => raise e).

(** [os.path.exists] *)
Definition path_exists (path : string) : M (run (host U) task_event) bool :=
  fun s => (Ok (bool_decide (path ∈ dirs (world s))), s).

(** [shutil.rmtree]: the directory is gone when it succeeds and still there
    when it raises. *)
Definition shutil_rmtree (path : string) : M (run (host U) task_event) unit :=
  fun s => match rmtree C path (beyond (world s)) with
           | (Ok _, u') =>
               (Ok tt, Run (Host (dirs (world s) ∖ {[path]}) (workspaces (world s)) u')
                         (trace s ++ [Rmtree path]))
           | (Raise e, u') =>
               (Raise e, Run (Host (dirs (world s)) (workspaces (world s)) u')
                           (trace s ++ [Rmtree path]))
           end.

(** [self.workspaces.pop(workspace_path, None)] *)
Definition pop_workspace (workspace_path : string) : M (run (host U) task_event) unit :=
  fun s => (Ok tt, Run (Host (dirs (world s)) (delete workspace_path (workspaces (world s)))
                          (beyond (world s))) (trace s)).

(** The [try] block of [cleanup_workspace]. *)
Definition cleanup_workspace_try (workspace_path : string)
  : M (run (host U) task_event) unit :=
  let* found := path_exists workspace_path in
  (if found then shutil_rmtree workspace_path else ret tt) >>
  (* Remove from tracking *)
  pop_workspace workspace_path.

Definition cleanup_workspace (workspace_path : string)
  : M (run (host U) task_event) unit :=
  emit (CleanupWorkspace workspace_path) >>
  try_except
    (cleanup_workspace_try workspace_path)
    (fun e => ret tt).

(** *** TaskOrchestrator *)

(** The system messages of the Think and Plan phases are cut to their first
    sentence. *)

(** [except json.JSONDecodeError] *)
Definition is_json_decode_error (e : exn) : bool :=
  let 'PyExc cls _ := e in String.eqb cls "JSONDecodeError".

(** [try: value = json.loads(text) except json.JSONDecodeError: value = fallback]:
    any other exception of the parser leaves the phase. *)
Definition loads_or {A} (text : string) (parsed fallback : A)
  : M (run (host U) task_event) A :=
  match json_loads C text with
  | Ok _ => ret parsed
  | Raise e => if is_json_decode_error e then ret fallback else raise e
  end.

Definition _think_phase (task : task_data) : M (run (host U) task_event) analysis :=
  let req := Request (think_prompt C task)
               "You are an expert web developer analyzing project requirements."
               800 (3 # 10) in
  let* analysis_text := outside_call (Generate req) (llm_generate C req) in
  (* Fallback if LLM doesn't return valid JSON *)
  loads_or analysis_text (ParsedAnalysis analysis_text)
    (DefaultAnalysis (take 2 (checks task))).

Definition _plan_phase (task : task_data) (analysis : analysis)
  : M (run (host U) task_event) plan :=
  let req := Request (plan_prompt C analysis task)
               "You are a senior software architect creating development plans."
               1000 (4 # 10) in
  let* plan_text := outside_call (Generate req) (llm_generate C req) in
  (* Fallback plan structure *)
  loads_or plan_text (ParsedPlan plan_text) DefaultPlan.

(** [post_with_retry]: the backoff retrier on the POST, with its defaults. *)
Definition post_with_retry (url : string) (json_data : callback_payload) (max_attempts : Z)
  : M (run (host U) task_event) Z :=
  fun s =>
    let (r, s') :=
      retry_with_backoff (http_post C url json_data) max_attempts 1 60 2
        (start (beyond (world s))) in
    (r, Run (Host (dirs (world s)) (workspaces (world s)) (world s'))
          (trace s ++ [PostWithRetry url json_data (trace s')])).

Definition _send_evaluation_callback (task : task_data) (deployment : deployment_result)
  : M (run (host U) task_event) unit :=
  if String.eqb (evaluation_url task) "" then ret tt
  else
    let payload :=
      Payload (email task) (task_id task) (round task) (nonce task)
        (repo_url deployment) (commit_sha deployment) (pages_url deployment) in
    try_except
      (post_with_retry (evaluation_url task) payload 5 >> ret tt)
      (fun e => ret tt).

Definition _deploy_application (task : task_data) (files : dict string)
  : M (run (host U) task_event) deployment_result :=
  let description := take_chars 100 (brief task) in
  let* deployment_result :=
    outside_call (DeployApplication (task_id task) files description)
      (deploy_application C (task_id task) files description) in
  _send_evaluation_callback task deployment_result >>
  ret deployment_result.

(** The [try] block of [_act_phase]. *)
Definition _act_phase_try (task : task_data) (plan : plan)
    (workspace_id workspace_path : string)
  : M (run (host U) task_event) act_result :=
  create_workspace workspace_path >>
  let* files := outside_call (GenerateApplication workspace_path)
                  (generate_application C task workspace_path) in
  let files := dict_set "LICENSE" (generate_mit_license C) files in
  let* code_explanation := outside_call (GenerateCodeExplanation files)
                             (generate_code_explanation C (brief task) files) in
  let readme_content :=
    generate_readme C (task_id task) (brief task) (checks task) "" "" (keys files)
      code_explanation in
  let files := dict_set "README.md" readme_content files in
  let* deployment_result := _deploy_application task files in
  let readme_content :=
    generate_readme C (task_id task) (brief task) (checks task)
      (repo_url deployment_result) (pages_url deployment_result) (keys files)
      code_explanation in
  outside_call
    (UpdateRepository (repo_url deployment_result) [("README.md", readme_content)]
       "Update application")
    (update_repository C (repo_url deployment_result) [("README.md", readme_content)]
       "Update application") >>
  ret (ActResult workspace_id (Z.of_nat (length files)) deployment_result "completed").

Definition new_workspace : M (run (host U) task_event) string :=
  fun s => let (id, u') := uuid4 C (beyond (world s)) in
           (Ok id, Run (Host (dirs (world s)) (workspaces (world s)) u')
                     (trace s ++ [Uuid4 id])).

Definition _act_phase (task : task_data) (plan : plan)
  : M (run (host U) task_event) act_result :=
  let* workspace_id := new_workspace in
  let workspace_path := "/tmp/workspace_" +:+ workspace_id in
  try_finally
    (_act_phase_try task plan workspace_id workspace_path)
    (cleanup_workspace workspace_path).

(** The placeholder that stands for the files of the repository. *)
Definition existing_files_placeholder : dict string :=
  [("index.html", ""); ("style.css", ""); ("script.js", "")].

Definition subscript_piece (pieces : list string) (i : Z)
  : M (run (host U) task_event) string :=
  match py_index pieces i with
  | Some piece => ret piece
  | None => raise (IndexError "list index out of range")
  end.

(** The [try] block of [process_round2_task]. *)
Definition process_round2_task_try (task : task_data) (existing_repo_url : string)
    (workspace_id workspace_path : string)
  : M (run (host U) task_event) act_result :=
  create_workspace workspace_path >>
  (* Get existing files from repo *)
  let existing_files := existing_files_placeholder in
  let* updated_files := outside_call (UpdateApplication workspace_path existing_files)
                          (update_application C task workspace_path existing_files) in
  let* code_explanation := outside_call (GenerateCodeExplanation updated_files)
                             (generate_code_explanation C (brief task) updated_files) in
  let readme_content :=
    generate_readme C (task_id task) (brief task) (checks task) existing_repo_url
      (replace ".git" "/" (replace "github.com" "github.io" existing_repo_url))
      (keys updated_files) code_explanation in
  let updated_files := dict_set "README.md" readme_content updated_files in
  let* commit_sha :=
    outside_call
      (UpdateRepository existing_repo_url updated_files
         ("Round 2 update: " +:+ take_chars 50 (brief task)))
      (update_repository C existing_repo_url updated_files
         ("Round 2 update: " +:+ take_chars 50 (brief task))) in
  let owner_repo := replace ".git" "" (replace "https://github.com/" "" existing_repo_url) in
  let* owner := subscript_piece (split_on "/" owner_repo) 0 in
  let* repo := subscript_piece (split_on "/" owner_repo) 1 in
  let pages_url := "https://" +:+ owner +:+ ".github.io/" +:+ repo +:+ "/" in
  let deployment_result := Deployment existing_repo_url commit_sha pages_url in
  _send_evaluation_callback task deployment_result >>
  ret (ActResult workspace_id (Z.of_nat (length updated_files)) deployment_result
         "completed").

Definition process_round2_task (task : task_data) (existing_repo_url : string)
  : M (run (host U) task_event) act_result :=
  let* workspace_id := new_workspace in
  let workspace_path := "/tmp/workspace_" +:+ workspace_id in
  try_finally
    (process_round2_task_try task existing_repo_url workspace_id workspace_path)
    (cleanup_workspace workspace_path).

(** [async with PlaywrightEvaluator() as evaluator: body] *)
Definition with_evaluator {A} (body : M (run (host U) task_event) A)
  : M (run (host U) task_event) A :=
  outside_call BrowserStart (browser_start C) >>
  try_finally body (outside_call BrowserStop (browser_stop C)).

Definition evaluator_evaluate_page (pages_url : string) (checks : list string) (timeout : Z)
  : M (run (host U) task_event) evaluation :=
  fun s =>
    let (r, s') :=
      evaluate_page (browser_page C) pages_url checks timeout (start (beyond (world s))) in
    (r, Run (Host (dirs (world s)) (workspaces (world s)) (world s'))
          (trace s ++ [EvaluatePage pages_url (trace s')])).

(** The [try] block of [_run_quality_checks]. *)
Definition _run_quality_checks_try (result : act_result) (task : task_data)
  : M (run (host U) task_event) quality_checks :=
  with_evaluator
    (let* eval_result :=
       evaluator_evaluate_page (pages_url (deployment result)) (checks task) 30000 in
     ret (QualityChecks (score eval_result) (checks_passed eval_result)
            (map check (checks_failed eval_result))
            ["Application deployed successfully";
             "Passed " +:+ pretty (Z.of_nat (length (checks_passed eval_result))) +:+ "/"
             +:+ pretty (total_checks eval_result) +:+ " checks"]
            (screenshot eval_result))).

Definition _run_quality_checks (result : act_result) (task : task_data)
  : M (run (host U) task_event) quality_checks :=
  try_except
    (_run_quality_checks_try result task)
    (fun e =>
       ret (QualityChecks (1 # 2) [] (checks task)
              ["Evaluation error: " +:+ str e] None)).

Definition _review_phase (task : task_data) (result : act_result)
  : M (run (host U) task_event) final_report :=
  (* Run quality checks *)
  let* quality_checks := _run_quality_checks result task in
  let* completed_at :=
    (fun s => let (t, u') := now C (beyond (world s)) in
              (Ok t, Run (Host (dirs (world s)) (workspaces (world s)) u')
                       (trace s ++ [Now]))) in
  (* Generate final report *)
  ret (FinalReport (task_id task) "completed" (Some (deployment result))
         (overall_score quality_checks) (quality_passed quality_checks)
         (quality_failed quality_checks) (recommendations quality_checks) completed_at).

Definition process_task (task : task_data) : M (run (host U) task_event) final_report :=
  try_except
    (let* analysis := _think_phase task in
     let* plan := _plan_phase task analysis in
     let* result := _act_phase task plan in
     let* final_report := _review_phase task result in
     ret final_report)
    (fun e => raise e).

(** *** process_autonomous_task *)

(** [existing_task and existing_task.repo_url] *)
Definition resolved_repo_url (existing_task : option db_task) : option string :=
  match existing_task with
  | Some t =>
      match db_repo_url t with
      | Some url => if String.eqb url "" then None else Some url
      | None => None
      end
  | None => None
  end.

(** The choice of the processing by the round. *)
Definition process_by_round (task : task_data) : M (run (host U) task_event) task_result :=
  let round_num := round task in
  if round_num =? 2 then
    (* Get existing repo from round 1 *)
    let* existing_task :=
      outside_call (GetTaskByTaskIdAndRound (task_id task) 1)
        (get_task_by_task_id_and_round C (task_id task) 1) in
    match resolved_repo_url existing_task with
    | Some existing_repo_url =>
        (* Process round 2 update *)
        let* result := process_round2_task task existing_repo_url in
        ret (Updated result)
    | None =>
        (* No round 1 found, treat as new task *)
        let* result := process_task task in
        ret (Report result)
    end
  else
    (* Process round 1 task *)
    let* result := process_task task in
    ret (Report result).

Definition process_autonomous_task (id : Z) (email : string) (task : task_data)
  : M (run (host U) task_event) unit :=
  try_except
    (outside_call (UpdateTaskStatus id "processing") (update_task_status C id "processing") >>
     let* result := process_by_round task in
     (match get_deployment result with
      | Some d =>
          outside_call (UpdateTaskDeployment id (repo_url d) (pages_url d))
            (update_task_deployment C id (repo_url d) (pages_url d))
      | None => ret tt
      end) >>
     outside_call (UpdateTaskStatus id "completed") (update_task_status C id "completed"))
    (fun e =>
       outside_call (UpdateTaskStatus id "failed") (update_task_status C id "failed") >>
       outside_call (UpdateTaskError id (str e)) (update_task_error C id (str e))).
End orchestrator.

(** ** Vocabulary of the properties *)

(** A computation of the evaluator that leaves [results] alone, however it
    ends. *)
Definition keeps {W A} (m : M (run (evaluating W) page_call) A) : Prop :=
  forall s r s', m s = (r, s') -> results (world s') = results (world s).

(** A computation that does not raise. *)
Definition never_raises {S A} (m : M S A) : Prop :=
  forall s, exists a s', m s = (Ok a, s').

(** [r'] is [r] with the outcome of [n] checks appended. *)
Definition checked (n : nat) (r r' : evaluation) : Prop :=
  exists ps fs,
    r' = Evaluation (url r) (checks_passed r ++ ps) (checks_failed r ++ fs)
           (total_checks r) (score r) (screenshot r) (errors r)
    /\ (length ps + length fs = n)%nat.

(** What [evaluate_page] promises about the counts and the score of its
    result on [n] checks. *)
Definition scored (n : nat) (r : evaluation) : Prop :=
  total_checks r = Z.of_nat n
  /\ (length (checks_passed r) + length (checks_failed r) <= n)%nat
  /\ (n = 0%nat -> score r = 0%Q)
  /\ (n <> 0%nat ->
      (score r == inject_Z (Z.of_nat (length (checks_passed r))) / inject_Z (Z.of_nat n))%Q).

(** A computation of a task run none of whose calls is a workspace
    cleanup. *)
Definition calm {U A} (m : M (run (host U) task_event) A) : Prop :=
  forall s r s', m s = (r, s') ->
    exists evs, trace s' = trace s ++ evs /\ Forall (fun ev => is_cleanup ev = false) evs.

(** ** Scenarios *)

(** An operation on a call counter that fails on its first [n] calls and
    succeeds afterwards. *)
Definition flaky (n : nat) : extern nat Z :=
  fun calls =>
    if (calls <? n)%nat
    then (Raise (PyExc "ConnectError" "connection refused"), S calls)
    else (Ok 200, S calls).

(** Providers on a call counter: one that is down, one that answers. *)
Definition failing_provider (msg : string) : provider nat :=
  fun _ calls => (Raise (PyExc "RuntimeError" msg), S calls).

Definition working_provider (text : string) : provider nat :=
  fun _ calls => (Ok text, S calls).

(** A provider that is overloaded during the first [busy] calls of the
    service and answers afterwards. *)
Definition overloaded_provider (busy : nat) (msg text : string) : provider nat :=
  fun _ calls =>
    if (calls <? busy)%nat then (Raise (PyExc "RuntimeError" msg), S calls)
    else (Ok text, S calls).

Definition sample_request : request :=
  Request "Generate a landing page" "You are an expert web developer." 1000 (7 # 10).

(** Browsers on a call counter.  A site that answers every navigation with
    the given outcome, and whose page has the title "Sales dashboard", no
    element with an id and scripts that evaluate to [true]. *)
Definition site (navigation : result (option Z)) : playwright nat :=
  Playwright
    (fun calls => (Ok tt, S calls))
    (fun _ _ calls => (navigation, S calls))
    (fun calls => (Ok tt, S calls))
    (fun _ calls => (Ok (JsBool true), S calls))
    (fun calls => (Ok "<html><title>Sales dashboard</title></html>", S calls))
    (fun calls => (Ok "Sales dashboard", S calls))
    (fun _ calls => (Ok false, S calls))
    (fun calls => (Ok "PNG", S calls))
    (fun calls => (Ok tt, S calls)).

Definition sample_checks : list string :=
  ["Repo has MIT license"; "Page has element #total-sales"; "js: document.title.length > 0"].

(** A laboratory on a call counter: every collaborator answers, except that
    the removal of a directory, the start of the browser and the lookup of
    the round-1 task are as given. *)
Definition lab (removal : result unit) (browser : result unit)
    (round1 : option db_task) : collaborators nat :=
  Collaborators
    (fun calls => ("0001", S calls))
    (fun calls => ("2025-10-17T12:00:00+00:00", S calls))
    (fun _ calls => (Ok tt, S calls))
    (fun _ _ calls => S calls)
    (fun _ calls => (removal, S calls))
    (fun _ calls => (Ok "not json", S calls))
    (fun task => "Analyze: " +:+ brief task)
    (fun _ task => "Plan: " +:+ brief task)
    (fun _ => Raise (PyExc "JSONDecodeError" "Expecting value: line 1 column 1 (char 0)"))
    (fun _ _ calls =>
       (Ok [("index.html", "<!DOCTYPE html>"); ("style.css", "body {}");
            ("script.js", "// v1")], S calls))
    (fun _ _ existing calls =>
       (Ok (map (fun kv => (fst kv, snd kv +:+ "// round 2")) existing), S calls))
    "MIT License"
    (fun _ _ calls => (Ok "The page shows a table.", S calls))
    (fun task_id _ _ repo_url _ _ _ => "# " +:+ task_id +:+ " " +:+ repo_url)
    (fun task_id _ _ calls =>
       (Ok (Deployment ("https://github.com/user/" +:+ task_id) "abc123"
              ("https://user.github.io/" +:+ task_id +:+ "/")), S calls))
    (fun _ _ _ calls => (Ok "def456", S calls))
    (fun _ _ calls => (Ok 200, S calls))
    (fun calls => (browser, S calls))
    (site (Ok (Some 200)))
    (fun calls => (Ok tt, S calls))
    (fun _ _ calls => (Ok tt, S calls))
    (fun _ _ calls => (Ok tt, S calls))
    (fun _ _ _ calls => (Ok tt, S calls))
    (fun _ _ calls => (Ok round1, S calls)).

Definition sample_task (round : Z) : task_data :=
  TaskData "sales" round "n-42" "Show the total of sales" sample_checks []
    "https://example.com/notify" "student@example.com".

Definition permission_denied : exn := PyExc "PermissionError" "[Errno 13] Permission denied".

(** ** Further vocabulary *)

(** A computation of a task run none of whose calls satisfies [p]. *)
Definition avoids {U A} (p : task_event -> bool) (m : M (run (host U) task_event) A)
  : Prop :=
  forall s r s', m s = (r, s') ->
    exists evs, trace s' = trace s ++ evs /\ Forall (fun ev => p ev = false) evs.

Definition is_status_update (ev : task_event) : bool :=
  match ev with UpdateTaskStatus _ _ => true | _ => false end.

(** The writes to the task table with which [process_autonomous_task] ends,
    by the outcome [r] of the processing. *)
Definition closing_writes (id : Z) (r : result task_result) : list task_event :=
  match r with
  | Ok result =>
      match get_deployment result with
      | Some d => [UpdateTaskDeployment id (repo_url d) (pages_url d)]
      | None => []
      end ++ [UpdateTaskStatus id "completed"]
  | Raise e => [UpdateTaskStatus id "failed"; UpdateTaskError id (str e)]
  end.

(** The calls on the task table. *)
Definition is_table_access (ev : task_event) : bool :=
  match ev with
  | UpdateTaskStatus _ _ | UpdateTaskError _ _ | UpdateTaskDeployment _ _ _
  | GetTaskByTaskIdAndRound _ _ => true
  | _ => false
  end.

(** The request of the Think phase and the request of the Plan phase. *)
Definition think_request {U} (C : collaborators U) (task : task_data) : request :=
  Request (think_prompt C task)
    "You are an expert web developer analyzing project requirements." 800 (3 # 10).

Definition plan_request {U} (C : collaborators U) (a : analysis) (task : task_data)
  : request :=
  Request (plan_prompt C a task)
    "You are a senior software architect creating development plans." 1000 (4 # 10).

(** What [json.loads] and the handler of [JSONDecodeError] make of an answer
    of the model. *)
Definition loaded {U A} (C : collaborators U) (text : string) (parsed fallback : A)
  : result A :=
  match json_loads C text with
  | Ok _ => Ok parsed
  | Raise e => if is_json_decode_error e then Ok fallback else Raise e
  end.

(** The analysis that the Think phase makes of the answer of the model, and
    the plan that the Plan phase makes of it. *)
Definition analysis_of {U} (C : collaborators U) (task : task_data) (text : string)
  : result analysis :=
  loaded C text (ParsedAnalysis text) (DefaultAnalysis (take 2 (checks task))).

Definition plan_of {U} (C : collaborators U) (text : string) : result plan :=
  loaded C text (ParsedPlan text) DefaultPlan.

(** The call that only round 2 makes: the update of an application from
    the contents of its files. *)
Definition is_round2_update (ev : task_event) : bool :=
  match ev with
  | UpdateApplication _ _ => true
  | _ => false
  end.

(** The sleeps of a run of the retrier from the delay [first]: the first one
    lasts [first], the later ones at most [max_delay]. *)
Definition capped_after_first (first max_delay : Q) (ds : list Q) : Prop :=
  match ds with
  | [] => True
  | d :: ds' => d = first /\ Forall (fun x => (x <= max_delay)%Q) ds'
  end.

(** A provider all of whose calls answer. *)
Definition always_succeeds {W} (p : provider W) : Prop :=
  forall req w, exists text w', p req w = (Ok text, w').

(** Successive calls of [generate_response] on the same service. *)
Fixpoint generate_many {W} (reqs : list request)
  : M (run (llm W) llm_event) (list string) :=
  match reqs with
  | [] => ret []
  | req :: reqs' =>
      let* text := generate_response req in
      let* texts := generate_many reqs' in
      ret (text :: texts)
  end.

(** The verdicts of [r] account for each of [checks] exactly once, in the
    order of the list. *)
Definition classifies (checks : list string) (r : evaluation) : Prop :=
  checks_passed r ++ map check (checks_failed r) ≡ₚ checks
  /\ sublist (checks_passed r) checks
  /\ sublist (map check (checks_failed r)) checks.

(** The text checks that the page cannot contradict: those about a licence
    with MIT or about a README, and those that name no title, no [#id] and no
    Bootstrap. *)
Definition is_lenient_check (check : string) : bool :=
  let check_lower := lower check in
  contains "license" check_lower && contains "mit" check_lower
  || contains "readme" check_lower
  || negb (contains "title" check_lower)
     && negb (bool_decide (is_Some (search_id check)))
     && negb (contains "bootstrap" check_lower).

(** The text checks that reach the search of an [#id]. *)
Definition reaches_selector (check : string) : bool :=
  let check_lower := lower check in
  negb (contains "license" check_lower && contains "mit" check_lower)
  && negb (contains "readme" check_lower)
  && negb (contains "title" check_lower).

(** Every character of the string is in the class [[\w-]]. *)
Fixpoint all_id_chars (s : string) : bool :=
  match s with
  | EmptyString => true
  | String c s' => is_id_char c && all_id_chars s'
  end.

(** The string does not start with a character of the class [[\w-]]. *)
Definition no_id_char_ahead (s : string) : bool :=
  match s with
  | EmptyString => true
  | String c _ => negb (is_id_char c)
  end.

(** A browser whose page cannot be read. *)
Definition unreadable_site : playwright nat :=
  Playwright
    (fun calls => (Ok tt, S calls))
    (fun _ _ calls => (Ok (Some 200), S calls))
    (fun calls => (Ok tt, S calls))
    (fun _ calls => (Raise (PyExc "Error" "Execution context was destroyed"), S calls))
    (fun calls => (Raise (PyExc "Error" "Target closed"), S calls))
    (fun calls => (Raise (PyExc "Error" "Target closed"), S calls))
    (fun _ calls => (Raise (PyExc "Error" "Target closed"), S calls))
    (fun calls => (Raise (PyExc "Error" "Target closed"), S calls))
    (fun calls => (Ok tt, S calls)).

(** ** src/services/database.py: [DatabaseService.initialize] *)

(** The URL with the asynchronous driver. *)
Definition async_db_url (db_url : string) : string :=
  if String.prefix "sqlite:///" db_url then
    replace "sqlite:///" "sqlite+aiosqlite:///" db_url
  else if String.prefix "postgresql://" db_url then
    replace "postgresql://" "postgresql+asyncpg://" db_url
  else
    (* Already has async driver specified *)
    db_url.

(** What [initialize] does to the outside: it tries to connect (engine,
    tables, session factory and default templates, which make the [try]
    block) and it sleeps. *)
Inductive db_event :=
| Connect (attempt : Z) (async_db_url : string) (r : result unit)
| DbSleep (seconds : Z).

Section database.
Context {W : Type}.
Variable connect : string -> extern W unit.
Variable DATABASE_URL : string.

Definition await_connect (attempt : Z) : M (run W db_event) unit :=
  fun s => let db_url := DATABASE_URL in
           let (r, w') := connect (async_db_url db_url) (world s) in
           (r, Run w' (trace s ++ [Connect attempt (async_db_url db_url) r])).

(** The [for attempt in range(max_retries)] loop, on what is left of the
    range. *)
Fixpoint initialize_loop (max_retries : Z) (range : list Z) (retry_delay : Z)
  : M (run W db_event) (flow unit unit) :=
  match range with
  | [] => ret (FallThrough tt)
  | attempt :: range' =>
      try_except
        (await_connect attempt >>
         ret (Return tt))
        (fun e =>
           if attempt <? max_retries - 1 then
             emit (DbSleep retry_delay) >>
             (* Exponential backoff *)
             initialize_loop max_retries range' (retry_delay * 2)
           else raise e)
  end.

Definition initialize : M (run W db_event) unit :=
  let max_retries := 5 in
  let retry_delay := 2 in
  initialize_loop max_retries (py_range 0 max_retries) retry_delay >>
  ret tt.
End database.

Definition db_sleeps (tr : list db_event) : list Z :=
  omap (fun ev => match ev with DbSleep d => Some d | Connect _ _ _ => None end) tr.

Definition db_attempts (tr : list db_event) : list (Z * result unit) :=
  omap (fun ev => match ev with Connect k _ r => Some (k, r) | DbSleep _ => None end) tr.

(** ** src/services/llm.py: the provider classes and [LLMService.__init__] *)

(** [settings.llm]: the keys are [Optional[str]]. *)
Record llm_settings := LLMSettings {
  openai_api_key : option string;
  anthropic_api_key : option string;
  groq_api_key : option string;
  huggingface_api_key : option string
}.

(** A provider object, with its [api_key]. *)
Inductive provider_object :=
| OpenAIProvider (api_key : string)
| AnthropicProvider (api_key : string)
| GroqProvider (api_key : string)
| HuggingFaceProvider (api_key : string).

(** [if key: providers.append(make(key))]: [None] and the empty string are
    false. *)
Definition append_if_key (key : option string) (make : string -> provider_object)
  : list provider_object :=
  match key with
  | Some (String c k) => [make (String c k)]
  | Some EmptyString | None => []
  end.

(** [self.providers] after [LLMService.__init__]; [current_provider_index]
    is 0. *)
Definition LLMService__init__ (settings : llm_settings) : list provider_object :=
  append_if_key (openai_api_key settings) OpenAIProvider
  ++ append_if_key (anthropic_api_key settings) AnthropicProvider
  ++ append_if_key (groq_api_key settings) GroqProvider
  ++ append_if_key (huggingface_api_key settings) HuggingFaceProvider.

(** What [response.json()] gives to the Hugging Face provider: a list, with
    for each item the outcome of [item["generated_text"]], or something
    else. *)
Inductive hf_json :=
| JsonList (generated_text : list (result string))
| JsonOther.

Record http_response := HttpResponse {
  status_code : Z;
  text : string;
  json : result hf_json
}.

(** The client packages, as operations on the outside world.  A call of a
    client stands for the client's creation when there is none yet, the
    request, and the selection of the text in the response
    ([response.choices[0].message.content], [response.content[0].text]). *)
Record packages (W : Type) := Packages {
  import_module : string -> extern W unit;
  chat_completions_create :
    forall (api_key : string) (base_url : option string) (model : string)
           (messages : list (string * string)) (max_tokens : Z) (temperature : Q),
      extern W string;
  messages_create :
    forall (api_key model system : string) (messages : list (string * string))
           (max_tokens : Z) (temperature : Q),
      extern W string;
  httpx_post :
    forall (url api_key inputs : string) (max_length : Z) (temperature : Q),
      extern W http_response
}.
Arguments import_module {W} p _ _.
Arguments chat_completions_create {W} p _ _ _ _ _ _ _.
Arguments messages_create {W} p _ _ _ _ _ _ _.
Arguments httpx_post {W} p _ _ _ _ _ _.

(** [except ImportError] also takes the subclass that a missing module
    raises. *)
Definition is_import_error (e : exn) : bool :=
  let 'PyExc cls _ := e in
  bool_decide (cls = "ImportError") || bool_decide (cls = "ModuleNotFoundError").

(** The two handlers that every provider has. *)
Definition wrap_error {W A} (not_installed api_error : string) (e : exn) : M W A :=
  if is_import_error e then raise (ValueError not_installed)
  else raise (ValueError (api_error +:+ str e)).

Definition lift {W A} (r : result A) : M W A :=
  match r with Ok a => ret a | Raise e => raise e end.

(** The messages of the OpenAI-style providers. *)
Definition chat_messages (req : request) : list (string * string) :=
  (if bool_decide (system_message req = "") then []
   else [("system", system_message req)])
  ++ [("user", prompt req)].

Section providers.
Context {W : Type}.
Variable P : packages W.

Definition OpenAIProvider_generate_response (api_key : string) : provider W :=
  fun req =>
    try_except
      (import_module P "openai" >>
       let messages := chat_messages req in
       let* content :=
         chat_completions_create P api_key None "gpt-3.5-turbo" messages
           (max_tokens req) (temperature req) in
       ret (strip content))
      (wrap_error "OpenAI package not installed" "OpenAI API error: ").

Definition AnthropicProvider_generate_response (api_key : string) : provider W :=
  fun req =>
    try_except
      (import_module P "anthropic" >>
       let messages := [("user", prompt req)] in
       let* content :=
         messages_create P api_key "claude-3-5-sonnet-20241022" (system_message req)
           messages (max_tokens req) (temperature req) in
       ret (strip content))
      (wrap_error "Anthropic package not installed" "Anthropic API error: ").

Definition GroqProvider_generate_response (api_key : string) : provider W :=
  fun req =>
    let base_url := "https://api.groq.com/openai/v1" in
    let model := "llama3.1-70b-versatile" in
    try_except
      (import_module P "openai" >>
       let messages := chat_messages req in
       let* content :=
         chat_completions_create P api_key (Some base_url) model messages
           (max_tokens req) (temperature req) in
       ret (strip content))
      (wrap_error "OpenAI package not installed" "Groq API error: ").

Definition HuggingFaceProvider_generate_response (api_key : string) : provider W :=
  fun req =>
    let model := "facebook/blenderbot-400M-distill" in
    try_except
      (import_module P "httpx" >>
       (* Combine system message and prompt *)
       let full_prompt :=
         if bool_decide (system_message req = "") then prompt req
         else system_message req +:+ String "010" (String "010" (prompt req)) in
       let* response :=
         httpx_post P ("https://router.huggingface.co/hf-inference/models/" +:+ model)
           api_key full_prompt (max_tokens req) (temperature req) in
       if negb (status_code response =? 200) then
         raise (ValueError ("Hugging Face API error: " +:+ pretty (status_code response)
                            +:+ " - " +:+ text response))
       else
         let* result := lift (json response) in
         match result with
         | JsonList (item :: _) =>
             let* generated_text := lift item in
             ret (strip generated_text)
         | JsonList [] | JsonOther =>
             raise (ValueError "Unexpected response format from Hugging Face API")
         end)
      (wrap_error "httpx package not installed" "Hugging Face API error: ").

(** [provider.generate_response], by the class of the object. *)
Definition provider_generate_response (p : provider_object) : provider W :=
  match p with
  | OpenAIProvider api_key => OpenAIProvider_generate_response api_key
  | AnthropicProvider api_key => AnthropicProvider_generate_response api_key
  | GroqProvider api_key => GroqProvider_generate_response api_key
  | HuggingFaceProvider api_key => HuggingFaceProvider_generate_response api_key
  end.

(** The service as [LLMService()] makes it. *)
Definition LLMService (settings : llm_settings) (w : W) : llm W :=
  LLM (map provider_generate_response (LLMService__init__ settings)) 0 w.
End providers.

(** The name under which a provider reports its errors, and the package it
    needs. *)
Definition provider_name (p : provider_object) : string :=
  match p with
  | OpenAIProvider _ => "OpenAI"
  | AnthropicProvider _ => "Anthropic"
  | GroqProvider _ => "Groq"
  | HuggingFaceProvider _ => "Hugging Face"
  end.

Definition provider_package (p : provider_object) : string :=
  match p with
  | OpenAIProvider _ | GroqProvider _ => "OpenAI"
  | AnthropicProvider _ => "Anthropic"
  | HuggingFaceProvider _ => "httpx"
  end.

(** The texts of the errors that a provider lets out. *)
Definition provider_error (p : provider_object) (msg : string) : Prop :=
  msg = provider_package p +:+ " package not installed"
  \/ exists detail, msg = provider_name p +:+ " API error: " +:+ detail.

(** The place of a provider class in the order of [__init__]. *)
Definition provider_rank (p : provider_object) : nat :=
  match p with
  | OpenAIProvider _ => 0
  | AnthropicProvider _ => 1
  | GroqProvider _ => 2
  | HuggingFaceProvider _ => 3
  end.

Definition provider_key (p : provider_object) : string :=
  match p with
  | OpenAIProvider k | AnthropicProvider k | GroqProvider k | HuggingFaceProvider k => k
  end.

(** The key of the settings that a provider class reads. *)
Definition configured_key (settings : llm_settings) (p : provider_object) : option string :=
  match p with
  | OpenAIProvider _ => openai_api_key settings
  | AnthropicProvider _ => anthropic_api_key settings
  | GroqProvider _ => groq_api_key settings
  | HuggingFaceProvider _ => huggingface_api_key settings
  end.

(** A machine without the client packages. *)
Definition no_packages : packages unit := {|
  import_module name := fun w =>
    (Raise (PyExc "ModuleNotFoundError" ("No module named '" +:+ name +:+ "'")), w);
  chat_completions_create _ _ _ _ _ _ := fun w => (Ok "unused", w);
  messages_create _ _ _ _ _ _ := fun w => (Ok "unused", w);
  httpx_post _ _ _ _ _ := fun w => (Ok (HttpResponse 200 "[]" (Ok (JsonList []))), w)
|}.

(** A machine whose Hugging Face endpoint is loading its model. *)
Definition loading_model : packages unit := {|
  import_module _ := fun w => (Ok tt, w);
  chat_completions_create _ _ _ _ _ _ := fun w => (Raise (PyExc "APIConnectionError" "Connection error."), w);
  messages_create _ _ _ _ _ _ := fun w => (Raise (PyExc "APIConnectionError" "Connection error."), w);
  httpx_post _ _ _ _ _ := fun w =>
    (Ok (HttpResponse 503 "Model is loading" (Raise (PyExc "JSONDecodeError" "Expecting value"))), w)
|}.

(** ** src/utils/attachments.py *)

Definition newline : string := String "010" EmptyString.

(** [d.get(k)] *)
Fixpoint dict_get {V} (k : string) (d : dict V) : option V :=
  match d with
  | [] => None
  | (k', v) :: d' => if String.eqb k' k then Some v else dict_get k d'
  end.

(** [not v] for an optional string. *)
Definition falsy (v : option string) : bool :=
  match v with
  | Some (String _ _) => false
  | Some EmptyString | None => true
  end.

(** The longest prefix without [;] and [,]: what the group [([^;,]+)] takes
    when it takes something. *)
Fixpoint take_mime (s : string) : string :=
  match s with
  | String c s' =>
      if Ascii.eqb c ";" || Ascii.eqb c "," then EmptyString
      else String c (take_mime s')
  | EmptyString => EmptyString
  end.

(** The characters up to the first line feed: what [.+] can take. *)
Fixpoint first_line (s : string) : string :=
  match s with
  | String c s' =>
      if Ascii.eqb c "010" then EmptyString else String c (first_line s')
  | EmptyString => EmptyString
  end.

(** [re.match(r'data:([^;,]+)?(;base64)?,(.+)', data_uri)]: the three groups
    of the match.  The first group is greedy and what follows it starts
    with [;] or [,], so that no shorter choice can succeed. *)
Definition match_data_uri (data_uri : string) : option (option string * bool * string) :=
  if String.prefix "data:" data_uri then
    let rest := drop_chars 5 data_uri in
    let type := take_mime rest in
    let group1 := if bool_decide (type = "") then None else Some type in
    let rest := drop_chars (String.length type) rest in
    if String.prefix ";base64," rest then
      match first_line (drop_chars 8 rest) with
      | EmptyString => None
      | data => Some (group1, true, data)
      end
    else if String.prefix "," rest then
      match first_line (drop_chars 1 rest) with
      | EmptyString => None
      | data => Some (group1, false, data)
      end
    else None
  else None.

(** What the code generator does to the outside. *)
Inductive generator_event :=
| WriteBytes (workspace_path name content : string) (r : result unit)
| WriteText (workspace_path name content : string) (r : result unit)
| AskModel (req : request) (r : result string).

Definition is_write_text (ev : generator_event) : bool :=
  match ev with WriteText _ _ _ _ => true | _ => false end.

Definition is_write_bytes (ev : generator_event) : bool :=
  match ev with WriteBytes _ _ _ _ => true | _ => false end.

Definition is_generate (ev : generator_event) : bool :=
  match ev with AskModel _ _ => true | _ => false end.

(** The codecs ([bytes] are strings of the model; [None] stands for the
    [UnicodeDecodeError]) and the file system ([write_bytes] makes the parent
    directory and writes a binary file, [write_text] writes a text file). *)
Record files_api (W : Type) := FilesApi {
  b64decode : string -> result string;
  b64encode : string -> string;
  utf8_encode : string -> string;
  utf8_decode : string -> option string;
  write_bytes : string -> string -> string -> extern W unit;
  write_text : string -> string -> string -> extern W unit
}.
Arguments b64decode {W} f _.
Arguments b64encode {W} f _.
Arguments utf8_encode {W} f _.
Arguments utf8_decode {W} f _.
Arguments write_bytes {W} f _ _ _ _.
Arguments write_text {W} f _ _ _ _.

Section attachments.
Context {W : Type}.
Variable F : files_api W.

Definition decode_data_uri (data_uri : string) : option (string * string * string) :=
  match match_data_uri data_uri with
  | None => None
  | Some (group1, is_base64, data) =>
      let mime_type := default "text/plain" group1 in
      if is_base64 : bool then
        match b64decode F data with
        | Ok content => Some (content, mime_type, "base64")
        | Raise _ => None
        end
      else Some (utf8_encode F data, mime_type, "utf-8")
  end.

Definition await_write_bytes (workspace_path name content : string)
  : M (run W generator_event) unit :=
  fun s => let (r, w') := write_bytes F workspace_path name content (world s) in
           (r, Run w' (trace s ++ [WriteBytes workspace_path name content r])).

Definition await_write_text (workspace_path name content : string)
  : M (run W generator_event) unit :=
  fun s => let (r, w') := write_text F workspace_path name content (world s) in
           (r, Run w' (trace s ++ [WriteText workspace_path name content r])).

Definition save_attachment (attachment : dict string) (workspace_path : string)
  : M (run W generator_event) (option string) :=
  try_except
    (let name := dict_get "name" attachment in
     let url := dict_get "url" attachment in
     if falsy name || falsy url then ret None
     else
       let name := default "" name in
       let url := default "" url in
       (* Decode data URI *)
       match decode_data_uri url with
       | None => ret None
       | Some (content, mime_type, encoding) =>
           (* Save to workspace *)
           await_write_bytes workspace_path name content >>
           ret (Some name)
       end)
    (fun e => ret None).

Fixpoint save_all_attachments_loop (attachments : list (dict string))
    (workspace_path : string) (saved_files : list string)
  : M (run W generator_event) (list string) :=
  match attachments with
  | [] => ret saved_files
  | attachment :: attachments' =>
      let* file_path := save_attachment attachment workspace_path in
      save_all_attachments_loop attachments' workspace_path
        (if falsy file_path then saved_files
         else saved_files ++ [default "" file_path])
  end.

Definition save_all_attachments (attachments : list (dict string))
    (workspace_path : string) : M (run W generator_event) (list string) :=
  save_all_attachments_loop attachments workspace_path [].

Definition get_attachment_content (attachment : dict string) : option string :=
  let url := dict_get "url" attachment in
  if falsy url then None
  else
    match decode_data_uri (default "" url) with
    | None => None
    | Some (content, mime_type, encoding) =>
        (* Try to decode as text *)
        match utf8_decode F content with
        | Some s => Some s
        | None =>
            (* Binary content, return base64 *)
            Some (b64encode F content)
        end
    end.

End attachments.

(** ** src/agent/code_generator.py *)

(** The leftmost occurrence of [sep] in [s]: what stands before it and what
    stands after it. *)
Fixpoint split_at (sep s : string) : option (string * string) :=
  if String.prefix sep s then Some (EmptyString, drop_chars (String.length sep) s)
  else
    match s with
    | EmptyString => None
    | String c s' =>
        match split_at sep s' with
        | Some (before, after) => Some (String c before, after)
        | None => None
        end
    end.

(** [re.search(opening + '(.*?)\n```', text, re.DOTALL)]: group 1 of the
    leftmost match, which is the shortest one from there.  When the leftmost
    opening has no closing fence after it, no later one has. *)
Definition search_fenced (opening text : string) : option string :=
  match split_at opening text with
  | Some (_, rest) =>
      match split_at (newline +:+ "```") rest with
      | Some (code, _) => Some code
      | None => None
      end
  | None => None
  end.

Fixpoint first_fenced (openings : list string) (text : string) : option string :=
  match openings with
  | [] => None
  | opening :: openings' =>
      match search_fenced opening text with
      | Some code => Some code
      | None => first_fenced openings' text
      end
  end.

(** Every character of [s] is in the class [f]. *)
Fixpoint all_chars (f : ascii -> bool) (s : string) : bool :=
  match s with
  | EmptyString => true
  | String c s' => f c && all_chars f s'
  end.

(** The characters that have a meaning in a pattern of [re]; a pattern
    without them stands for itself. *)
Definition is_regex_special (c : ascii) : bool :=
  existsb (Ascii.eqb c)
    ["."; "^"; "$"; "*"; "+"; "?"; "{"; "}"; "["; "]"; "\"; "|"; "("; ")"]%char.

Definition is_literal (s : string) : bool :=
  all_chars (fun c => negb (is_regex_special c)) s.

Section extract_code.
(** [re.search(pattern, text, re.DOTALL)] and the text of group 1 of the
    match, for the patterns that are not computed here: [Ok None] is no
    match, and [Raise] the error of a pattern that [re] refuses (or of a
    group 1 that took no part in the match). *)
Variable re_search : string -> string -> result (option string).

(** The search for the first pattern, [f'```{language}\n(.*?)\n```'], into
    which [language] is put as it is: a language without special characters
    stands for itself, any other is left to [re]. *)
Definition search_language (language text : string) : result (option string) :=
  if is_literal language then
    Ok (search_fenced ("```" +:+ language +:+ newline) text)
  else
    re_search ("```" +:+ language +:+ newline +:+ "(.*?)" +:+ newline +:+ "```") text.

Definition _extract_code (text language : string) : result string :=
  match search_language language text with
  | Raise e => Raise e
  | Ok (Some code) => Ok (strip code)
  | Ok None =>
      let patterns := [
        "```" +:+ newline;
        "```html" +:+ newline;
        "```css" +:+ newline;
        "```js" +:+ newline;
        "```javascript" +:+ newline
      ] in
      match first_fenced patterns text with
      | Some code => Ok (strip code)
      | None =>
          (* If no code block found, return as-is (might already be clean code) *)
          Ok (strip text)
      end
  end.
End extract_code.

(** What [_extract_code] returns for a language without special
    characters. *)
Definition extracted (text language : string) : string :=
  let patterns := [
    "```" +:+ language +:+ newline;
    "```" +:+ newline;
    "```html" +:+ newline;
    "```css" +:+ newline;
    "```js" +:+ newline;
    "```javascript" +:+ newline
  ] in
  match first_fenced patterns text with
  | Some code => strip code
  | None => strip text
  end.

Module CodeGenerator.
Section code_generator.
Context {W : Type}.
Variable F : files_api W.

(** [self.llm_service.generate_response] *)
Variable llm_generate_response : request -> extern W string.

(** [re.search] on the patterns that are not computed. *)
Variable re_search : string -> string -> result (option string).

(** The texts of the prompts. *)
Variable html_prompt : task_data -> list string -> string.
Variable css_prompt : task_data -> string.
Variable js_prompt : task_data -> list string -> string -> string.
Variable update_prompt : task_data -> string -> string -> list string -> string.

Definition await_generate (req : request) : M (run W generator_event) string :=
  fun s => let (r, w') := llm_generate_response req (world s) in
           (r, Run w' (trace s ++ [AskModel req r])).

Definition _generate_html (task : task_data) (attachments : list string)
  : M (run W generator_event) string :=
  let prompt := html_prompt task attachments in
  let system_message :=
    "You are an expert frontend developer. Generate clean, semantic, " +:+ newline
    +:+ "        production-ready HTML5 code. Follow best practices and accessibility standards." in
  let* html := await_generate (Request prompt system_message 2000 (2 # 10)) in
  (* Clean up the response *)
  let* html := lift (_extract_code re_search html "html") in
  (* Ensure proper structure *)
  let html :=
    if negb (contains "<!DOCTYPE html>" html) then "<!DOCTYPE html>" +:+ newline +:+ html
    else html in
  ret html.

Definition _generate_css (task : task_data) : M (run W generator_event) string :=
  let prompt := css_prompt task in
  let system_message :=
    "You are an expert CSS developer. Generate modern, responsive, " +:+ newline
    +:+ "        production-ready CSS. Follow best practices and design principles." in
  let* css := await_generate (Request prompt system_message 1500 (2 # 10)) in
  lift (_extract_code re_search css "css").

(** The loop that gathers [attachment_info], which touches nothing outside;
    [att['name']] raises when the attachment has no name. *)
Fixpoint attachment_info_loop (attachments : list (dict string)) (attachment_info : string)
  : result string :=
  match attachments with
  | [] => Ok attachment_info
  | att :: attachments' =>
      let content := get_attachment_content F att in
      if negb (falsy content) && (String.length (default "" content) <? 500)%nat then
        match dict_get "name" att with
        | Some name =>
            attachment_info_loop attachments'
              (attachment_info +:+ newline +:+ name +:+ ": "
               +:+ take_chars 200 (default "" content) +:+ "...")
        | None => Raise (PyExc "KeyError" "'name'")
        end
      else attachment_info_loop attachments' attachment_info
  end.

Definition _generate_javascript (task : task_data) (raw_attachments : list (dict string))
    (attachments : list string) : M (run W generator_event) string :=
  (* Get attachment content for context *)
  let* attachment_info := lift (attachment_info_loop raw_attachments "") in
  let prompt := js_prompt task attachments attachment_info in
  let system_message :=
    "You are an expert JavaScript developer. Generate clean, modern, " +:+ newline
    +:+ "        production-ready JavaScript. Follow best practices and use ES6+ features." in
  let* js := await_generate (Request prompt system_message 2000 (2 # 10)) in
  lift (_extract_code re_search js "javascript").

(** [for filename, content in files.items(): ... f.write(content)] *)
Fixpoint write_files (workspace_path : string) (files : dict string)
  : M (run W generator_event) unit :=
  match files with
  | [] => ret tt
  | (filename, content) :: files' =>
      await_write_text F workspace_path filename content >>
      write_files workspace_path files'
  end.

(** [raw_attachments] is [task_data.get('attachments', [])], the dicts of
    the request. *)
Definition generate_application (task : task_data) (raw_attachments : list (dict string))
    (workspace_path : string) : M (run W generator_event) (dict string) :=
  (* Save attachments first *)
  let* saved_attachments := save_all_attachments F raw_attachments workspace_path in
  let* html_content := _generate_html task saved_attachments in
  let* css_content := _generate_css task in
  let* js_content := _generate_javascript task raw_attachments saved_attachments in
  let files := [
    ("index.html", html_content);
    ("style.css", css_content);
    ("script.js", js_content)
  ] in
  (* Save generated files *)
  write_files workspace_path files >>
  ret files.

(** The loop of [update_application] over [existing_files.items()]. *)
Fixpoint update_application_loop (task : task_data) (workspace_path : string)
    (saved_attachments : list string) (items : dict string) (updated_files : dict string)
  : M (run W generator_event) (dict string) :=
  match items with
  | [] => ret updated_files
  | (filename, current_content) :: items' =>
      let prompt := update_prompt task filename current_content saved_attachments in
      let system_message :=
        "You are an expert developer updating existing code. " +:+ newline
        +:+ "            Preserve working functionality while adding new features." in
      let* updated_content := await_generate (Request prompt system_message 2500 (2 # 10)) in
      (* Extract and save *)
      match py_index (split_on "." filename) (-1) with
      | None => raise (IndexError "list index out of range")
      | Some file_type =>
          let* updated_content := lift (_extract_code re_search updated_content file_type) in
          let updated_files := dict_set filename updated_content updated_files in
          (* Save to workspace *)
          await_write_text F workspace_path filename updated_content >>
          update_application_loop task workspace_path saved_attachments items' updated_files
      end
  end.

Definition update_application (task : task_data) (raw_attachments : list (dict string))
    (workspace_path : string) (existing_files : dict string)
  : M (run W generator_event) (dict string) :=
  (* Save new attachments *)
  let* saved_attachments := save_all_attachments F raw_attachments workspace_path in
  update_application_loop task workspace_path saved_attachments existing_files [].
End code_generator.
End CodeGenerator.

(** The attachments of which [save_attachment] tries to write the file, with
    the bytes that it writes. *)
Definition to_save {W} (F : files_api W) (attachment : dict string)
  : option (string * string) :=
  if falsy (dict_get "name" attachment) || falsy (dict_get "url" attachment) then None
  else
    match decode_data_uri F (default "" (dict_get "url" attachment)) with
    | Some (content, _, _) => Some (default "" (dict_get "name" attachment), content)
    | None => None
    end.

(** The writes of binary files in a trace: name, bytes and outcome. *)
Definition byte_writes (tr : list generator_event) : list (string * string * result unit) :=
  omap (fun ev => match ev with
                  | WriteBytes _ name content r => Some (name, content, r)
                  | _ => None
                  end) tr.

(** The writes of text files in a trace. *)
Definition text_writes (tr : list generator_event) : list (string * string * result unit) :=
  omap (fun ev => match ev with
                  | WriteText _ name content r => Some (name, content, r)
                  | _ => None
                  end) tr.

(** The answers of the model in a trace. *)
Definition generations (tr : list generator_event) : list (result string) :=
  omap (fun ev => match ev with AskModel _ r => Some r | _ => None end) tr.

(** A character that a MIME type may hold in a data URI. *)
Definition is_mime_char (c : ascii) : bool :=
  negb (Ascii.eqb c ";" || Ascii.eqb c ",").

(** A file system that takes everything, with the codecs of ASCII text;
    the world counts the files written. *)
Definition ascii_files : files_api nat := {|
  b64decode _ := Raise (PyExc "binascii.Error" "Incorrect padding");
  b64encode s := s;
  utf8_encode s := s;
  utf8_decode s := Some s;
  write_bytes _ _ _ := fun n => (Ok tt, S n);
  write_text _ _ _ := fun n => (Ok tt, S n)
|}.

(** The name and the bytes of a write, and the names of the writes that
    succeeded. *)
Definition written (w : string * string * result unit) : string * string :=
  (w.1.1, w.1.2).

Definition succeeded (ws : list (string * string * result unit)) : list string :=
  map (fun w => w.1.1) (filter (fun w => is_ok w.2 = true) ws).

(** The three files of a generated application. *)
Definition application_files (html css js : string) : dict string :=
  [("index.html", html); ("style.css", css); ("script.js", js)].

(** The successful writes of the files of a dict. *)
Definition writes_of (files : dict string) : list (string * string * result unit) :=
  map (fun kv => (kv.1, kv.2, Ok tt)) files.

(** A model that answers every request with the same text. *)
Definition parrot (answer : string) : request -> extern nat string :=
  fun _ n => (Ok answer, n).

Definition no_prompt2 : task_data -> list string -> string := fun _ _ => "prompt".
Definition no_prompt1 : task_data -> string := fun _ => "prompt".
Definition no_prompt3 : task_data -> list string -> string -> string := fun _ _ _ => "prompt".
Definition no_prompt4 : task_data -> string -> string -> list string -> string :=
  fun _ _ _ _ => "prompt".

(** What [_generate_html] makes of the extracted code. *)
Definition ensure_doctype (html : string) : string :=
  if negb (contains "<!DOCTYPE html>" html) then "<!DOCTYPE html>" +:+ newline +:+ html
  else html.

(** A [re] that refuses every pattern. *)
Definition no_regex : string -> string -> result (option string) :=
  fun _ _ => Raise (PyExc "re.error" "nothing to repeat").

(** A generation in which the model answers every request with a paragraph. *)
Definition sample_generation : result (dict string) * run nat generator_event :=
  CodeGenerator.generate_application ascii_files (parrot "<p>Hi</p>") no_regex
    no_prompt2 no_prompt1 no_prompt3 (sample_task 1) [] "/tmp/w" (Run 0%nat []).

(** [filename.split('.')[-1]] *)
Definition file_type (filename : string) : string :=
  default "" (py_index (split_on "." filename) (-1)).

(** What [update_application] extracts from the answers of the model, one
    answer for each existing file, for the file type of its name. *)
Definition extractions (re_search : string -> string -> result (option string))
    (existing_files : dict string) (answers : list string) : list (result string) :=
  zip_with (fun kv answer => _extract_code re_search answer (file_type kv.1))
    existing_files answers.


(** An attachment without a name, as a request may carry it. *)
Definition nameless_attachment : dict string := [("url", "data:,hello")].

Definition sample_update : result (dict string) * run nat generator_event :=
  CodeGenerator.update_application ascii_files (parrot "<p>Hi</p>") no_regex no_prompt4
    (sample_task 2) [] "/tmp/w" existing_files_placeholder (Run 0%nat []).

(** A character of a name, or the slash between two names. *)
Definition is_path_char (c : ascii) : bool := is_id_char c || Ascii.eqb c "/".

(** ** src/agent/tools.py: [AgentTools.close] *)

Section agent_tools_close.
Context {U : Type}.
Variable C : collaborators U.

(** [for workspace_path in self.workspaces.values():
         await self.cleanup_workspace(workspace_path)]
    Each time the loop asks for the next value, the iterator of the dict
    first checks that the dict still has the size [used] that it had when
    the loop started, and raises if it has not; [values] are the values
    that have not been visited yet. *)
Fixpoint close_loop (used : nat) (values : list string)
  : M (run (host U) task_event) unit :=
  fun s =>
    if bool_decide (size (workspaces (world s)) = used) then
      match values with
      | [] => (Ok tt, s)
      | workspace_path :: values' =>
          (cleanup_workspace C workspace_path >>
           close_loop used values') s
      end
    else (Raise (PyExc "RuntimeError" "dictionary changed size during iteration"), s).

(** [values] is [self.workspaces.values()] in the order of the dict, which
    the finite map of the model does not keep. *)
Definition close (values : list string) : M (run (host U) task_event) unit :=
  fun s => close_loop (size (workspaces (world s))) values s.
End agent_tools_close.

Definition cleanups (tr : list task_event) : list task_event :=
  filter (fun ev => is_cleanup ev = true) tr.

(** ** The task table and the request route *)

(** [src/models/database.py] and [src/services/database.py]: the rows of the
    tables [submissions] and [tasks] and the operations of
    [DatabaseService] on them; [src/api/routes.py]: [request_task], which
    stores a task and queues its processing.

    The four time stamps of a row and the two GitHub columns of a
    submission, which the program never reads back in the processing of a
    task, are left out. *)

(** [class Submission] *)
Record submission_row := SubmissionRow {
  submission_id : Z;
  submission_email : string;
  submission_endpoint : string;
  submission_secret : string
}.

(** [class Task] *)
Record task_row := TaskRow {
  row_id : Z;
  row_submission_id : Z;
  row_task_id : string;
  row_round : Z;
  row_nonce : string;
  row_brief : string;
  row_checks : list string;
  row_attachments : list (string * string);
  row_evaluation_url : string;
  row_status : string;
  row_repo_url : option string;
  row_pages_url : option string;
  row_error_message : option string
}.

(** The two tables, their rows in the order of insertion. *)
Record database := Database {
  submissions : list submission_row;
  tasks : list task_row
}.

(** The constraints that the schema puts on [tasks]: [id] is the primary
    key, [task_id] and [nonce] are declared [unique=True]. *)
Definition well_formed (db : database) : Prop :=
  NoDup (map row_id (tasks db))
  /\ NoDup (map row_task_id (tasks db))
  /\ NoDup (map row_nonce (tasks db)).

(** [db'] has every task of [db], under the same key, [task_id] and
    [round]: no operation of the program deletes a task or writes these
    columns of a stored one. *)
Definition extends (db db' : database) : Prop :=
  forall r, r ∈ tasks db ->
    exists r', r' ∈ tasks db'
               /\ row_id r' = row_id r
               /\ row_task_id r' = row_task_id r
               /\ row_round r' = row_round r.

(** The database engine, as far as the program cannot decide it: what the
    other sessions have committed since the last operation of this
    coroutine, whether the connection, the statement or the commit fails,
    and the primary key that is proposed for a new row. *)
Record engine (V : Type) := Engine {
  others : database -> V -> database * V;
  failure : V -> option exn * V;
  next_id : list Z -> V -> Z * V
}.
Arguments Engine {V}.
Arguments others {V} e.
Arguments failure {V} e.
Arguments next_id {V} e.

(** The other sessions respect the constraints of the schema and, like the
    operations of this program, neither delete a task nor write its
    [task_id] or [round]. *)
Definition orderly {V} (E : engine V) : Prop :=
  forall db v, well_formed db ->
    well_formed (fst (others E db v)) /\ extends db (fst (others E db v)).

(** The tables after an operation obey the schema and have the tasks that
    they had, when the tables before it obeyed the schema. *)
Definition kept (db db' : database) : Prop :=
  well_formed db -> well_formed db' /\ extends db db'.

(** The database and the rest of the world. *)
Record store (V : Type) := Store {
  table : database;
  rest : V
}.
Arguments Store {V}.
Arguments table {V} s.
Arguments rest {V} s.

(** [Result.scalar_one_or_none()] *)
Definition scalar_one_or_none {A} (rows : list A) : result (option A) :=
  match rows with
  | [] => Ok None
  | [row] => Ok (Some row)
  | _ => Raise (PyExc "MultipleResultsFound"
                  "Multiple rows were found when one or none was required")
  end.

Definition IntegrityError : exn := PyExc "IntegrityError" "UNIQUE constraint failed".

(** What the HTTP request carries ([class TaskRequest]). *)
Record task_request := TaskRequest {
  req_email : string;
  req_secret : string;
  req_nonce : string;
  req_task : string;
  req_round : Z;
  req_brief : string;
  req_checks : list string;
  req_evaluation_url : string;
  req_attachments : option (list (string * string));
  req_endpoint : option string
}.

(** [class TaskResponse] *)
Record task_response := TaskResponse {
  response_task : string;
  response_status : string;
  response_message : string;
  response_nonce : string;
  estimated_completion_time_minutes : Z
}.

(** A call of [process_autonomous_task] that [background_tasks.add_task]
    has queued. *)
Record background_job := Job {
  job_id : Z;
  job_email : string;
  job_task : task_data
}.

(** [HTTPException(status_code, detail)]; its [str] is the status code, a
    colon and the detail. *)
Definition HTTPException (status_code : Z) (detail : string) : exn :=
  PyExc "HTTPException" (pretty status_code +:+ ": " +:+ detail).

(** [secrets.compare_digest] on two [str]s: it wants ASCII strings. *)
Definition compare_digest (a b : string) : result bool :=
  if all_chars (fun c => (nat_of_ascii c <? 128)%nat) a
     && all_chars (fun c => (nat_of_ascii c <? 128)%nat) b
  then Ok (String.eqb a b)
  else Raise (TypeError "comparing strings with non-ASCII characters is not supported").

Section database_service.
Context {V : Type}.
Variable E : engine V.

(** [async with self.get_session() as session: ...].  The operation sees the
    tables as the other sessions have left them.  A failure before the
    commit leaves the tables as they are; a failure after it (in
    [session.refresh], or when the session is closed) raises although the
    [changes] are stored. *)
Definition session {A} (statement : database -> V -> result (A * database) * V)
  : extern (store V) A :=
  fun s =>
    let (db, v) := others E (table s) (rest s) in
    match failure E v with
    | (Some e, v1) => (Raise e, Store db v1)
    | (None, v1) =>
        match statement db v1 with
        | (Raise e, v2) => (Raise e, Store db v2)
        | (Ok (a, changes), v2) =>
            match failure E v2 with
            | (Some e, v3) => (Raise e, Store changes v3)
            | (None, v3) => (Ok a, Store changes v3)
            end
        end
    end.

Definition get_submission_by_email (email : string)
  : extern (store V) (option submission_row) :=
  session (fun db v =>
    match scalar_one_or_none
            (filter (fun r => submission_email r = email) (submissions db)) with
    | Ok found => (Ok (found, db), v)
    | Raise e => (Raise e, v)
    end).

Definition get_or_create_submission (email endpoint secret : string)
  : extern (store V) submission_row :=
  session (fun db v =>
    (* Try to find existing submission *)
    match scalar_one_or_none
            (filter (fun r => submission_email r = email) (submissions db)) with
    | Raise e => (Raise e, v)
    | Ok (Some submission) => (Ok (submission, db), v)
    | Ok None =>
        (* Create new submission *)
        let (id, v') := next_id E (map submission_id (submissions db)) v in
        let submission := SubmissionRow id email endpoint secret in
        if bool_decide (id ∈ map submission_id (submissions db))
        then (Raise IntegrityError, v')
        else (Ok (submission, Database (submissions db ++ [submission]) (tasks db)), v')
    end).

(** The row that [Task(submission_id=submission_id, **task_dict)] makes:
    the entries of the task but its email; [status] has its default. *)
Definition new_task_row (id submission_id : Z) (task : task_data) : task_row :=
  TaskRow id submission_id (task_id task) (round task) (nonce task) (brief task)
    (checks task) (attachments task) (evaluation_url task) "pending" None None None.

(** The insertion of [row] meets a row with its key, its [task_id] or its
    [nonce]. *)
Definition conflicts (db : database) (row : task_row) : bool :=
  bool_decide (row_id row ∈ map row_id (tasks db))
  || bool_decide (row_task_id row ∈ map row_task_id (tasks db))
  || bool_decide (row_nonce row ∈ map row_nonce (tasks db)).

(** [session.add(task)] and the commit: the engine refuses a row that
    breaks a constraint. *)
Definition add_task (submission_id : Z) (task : task_data) (db : database) (v : V)
  : result (task_row * database) * V :=
  let (id, v') := next_id E (map row_id (tasks db)) v in
  let task := new_task_row id submission_id task in
  if conflicts db task then (Raise IntegrityError, v')
  else (Ok (task, Database (submissions db) (tasks db ++ [task])), v').

Definition create_task (submission_id : Z) (task : task_data)
  : extern (store V) task_row :=
  session (add_task submission_id task).

(** An assignment to the columns of the task with the key [id], if there
    is one. *)
Definition update_row (id : Z) (assign : task_row -> task_row) (db : database)
  : database :=
  Database (submissions db)
    (map (fun r => if row_id r =? id then assign r else r) (tasks db)).

Definition set_status (status : string) (r : task_row) : task_row :=
  TaskRow (row_id r) (row_submission_id r) (row_task_id r) (row_round r) (row_nonce r)
    (row_brief r) (row_checks r) (row_attachments r) (row_evaluation_url r)
    status (row_repo_url r) (row_pages_url r) (row_error_message r).

Definition set_deployment (repo_url pages_url : string) (r : task_row) : task_row :=
  TaskRow (row_id r) (row_submission_id r) (row_task_id r) (row_round r) (row_nonce r)
    (row_brief r) (row_checks r) (row_attachments r) (row_evaluation_url r)
    (row_status r) (Some repo_url) (Some pages_url) (row_error_message r).

Definition set_error_message (error_message : string) (r : task_row) : task_row :=
  TaskRow (row_id r) (row_submission_id r) (row_task_id r) (row_round r) (row_nonce r)
    (row_brief r) (row_checks r) (row_attachments r) (row_evaluation_url r)
    (row_status r) (row_repo_url r) (row_pages_url r) (Some error_message).

Definition db_update_task_status (id : Z) (status : string) : extern (store V) unit :=
  session (fun db v => (Ok (tt, update_row id (set_status status) db), v)).

Definition db_update_task_deployment (id : Z) (repo_url pages_url : string)
  : extern (store V) unit :=
  session (fun db v => (Ok (tt, update_row id (set_deployment repo_url pages_url) db), v)).

Definition db_update_task_error (id : Z) (error_message : string)
  : extern (store V) unit :=
  session (fun db v => (Ok (tt, update_row id (set_error_message error_message) db), v)).

Definition db_get_task_by_task_id_and_round (task_id : string) (round : Z)
  : extern (store V) (option task_row) :=
  session (fun db v =>
    match scalar_one_or_none
            (filter (fun r => row_task_id r = task_id /\ row_round r = round) (tasks db)) with
    | Ok found => (Ok (found, db), v)
    | Raise e => (Raise e, v)
    end).

(** *** The request route *)

(** [validate_student_secret]: a stored secret that is not empty is
    compared with the one of the request; everything else, an exception
    included, lets the request pass. *)
Definition validate_student_secret (email secret : string) : M (store V) bool :=
  try_except
    (let* submission := get_submission_by_email email in
     match submission with
     | Some submission =>
         if String.eqb (submission_secret submission) "" then ret true
         else match compare_digest (submission_secret submission) secret with
              | Ok equal => ret equal
              | Raise e => raise e
              end
     | None =>
         (* Allow test requests *)
         ret true
     end)
    (fun e => ret true).

Definition check_rate_limit (email : string) : M (store V) bool :=
  ret true.

(** [request_task], at a time when the services are [initialized] or not.
    Together with its response it gives the call that it has queued. *)
Definition request_task (initialized : bool) (req : task_request)
  : M (store V) (task_response * background_job) :=
  (* Check if services are initialized *)
  if negb initialized then raise (HTTPException 503 "Services not initialized yet") else
  (* Validate secret *)
  let* valid := validate_student_secret (req_email req) (req_secret req) in
  if negb valid then raise (HTTPException 401 "Invalid secret") else
  (* Check rate limiting *)
  let* allowed := check_rate_limit (req_email req) in
  if negb allowed then raise (HTTPException 429 "Rate limit exceeded") else
  try_except
    ((* Create task record in database *)
     let* submission :=
       get_or_create_submission (req_email req) (default "" (req_endpoint req))
         (req_secret req) in
     (* Create task data *)
     let task_data :=
       TaskData (req_task req) (req_round req) (req_nonce req) (req_brief req)
         (req_checks req) (default [] (req_attachments req)) (req_evaluation_url req)
         (req_email req) in
     (* Store task in database *)
     let* db_task := create_task (submission_id submission) task_data in
     (* Queue task for background processing; return immediate response *)
     ret (TaskResponse (req_task req) "accepted"
            ("Task '" +:+ req_task req +:+ "' (round " +:+ pretty (req_round req)
             +:+ ") has been accepted and is being processed by the AI agent.")
            (req_nonce req) 5,
          Job (row_id db_task) (req_email req) task_data))
    (fun e => raise (HTTPException 500 "Failed to process task request")).

(** *** The collaborators of a task run on this database *)

(** An operation that does not touch the database. *)
Definition aside {A} (op : V -> A * V) : store V -> A * store V :=
  fun s => let (a, v) := op (rest s) in (a, Store (table s) v).

Definition aside_page (pw : playwright V) : playwright (store V) :=
  Playwright
    (aside (new_page pw))
    (fun url timeout => aside (goto pw url timeout))
    (aside (wait_for_load_state pw))
    (fun script => aside (page_evaluate pw script))
    (aside (page_content pw))
    (aside (page_title pw))
    (fun selector => aside (query_selector pw selector))
    (aside (page_screenshot pw))
    (aside (page_close pw)).

(** What [existing_task.repo_url] will read. *)
Definition as_db_task (r : task_row) : db_task := DbTask (row_repo_url r).

(** The collaborators [C], with the task table in the place of their four
    database operations. *)
Definition with_database (C : collaborators V) : collaborators (store V) :=
  Collaborators
    (aside (uuid4 C))
    (aside (now C))
    (fun path => aside (mkdir C path))
    (fun command cwd s => Store (table s) (run_command C command cwd (rest s)))
    (fun path => aside (rmtree C path))
    (fun req => aside (llm_generate C req))
    (think_prompt C)
    (plan_prompt C)
    (json_loads C)
    (fun task brief => aside (generate_application C task brief))
    (fun task brief files => aside (update_application C task brief files))
    (generate_mit_license C)
    (fun brief files => aside (generate_code_explanation C brief files))
    (generate_readme C)
    (fun name files description => aside (deploy_application C name files description))
    (fun url files message => aside (update_repository C url files message))
    (fun url payload => aside (http_post C url payload))
    (aside (browser_start C))
    (aside_page (browser_page C))
    (aside (browser_stop C))
    db_update_task_status
    db_update_task_error
    db_update_task_deployment
    (fun task_id round s =>
       match db_get_task_by_task_id_and_round task_id round s with
       | (Ok found, s') => (Ok (as_db_task <$> found), s')
       | (Raise e, s') => (Raise e, s')
       end).

(** What round 2 does when no round-1 repository is found: the lookup, then
    the processing of a new task. *)
Definition treated_as_new (C : collaborators V) (task : task_data)
  : M (run (host (store V)) task_event) task_result :=
  let* existing_task :=
    outside_call (GetTaskByTaskIdAndRound (task_id task) 1)
      (get_task_by_task_id_and_round (with_database C) (task_id task) 1) in
  let* result := process_task (with_database C) task in
  ret (Report result).
End database_service.

(** A database engine without other sessions and without failures, whose
    keys count from 1. *)
Definition quiet_engine : engine nat :=
  Engine (fun db v => (db, v)) (fun v => (None, v))
    (fun ids v => (1 + Z.of_nat (length ids), v)).

Definition sample_task_request (round : Z) : task_request :=
  TaskRequest "student@example.com" "s3cret" "n-42" "sales" round
    "Show the total of sales" sample_checks "https://example.com/notify" None None.
(** * Properties *)

(** ** Generic facts *)

Lemma py_range_nil lo hi : hi <= lo -> py_range lo hi = [].
Proof.
  intros H. unfold py_range.
  replace (Z.to_nat (hi - lo)) with 0%nat by lia. reflexivity.
Qed.

Lemma py_range_cons lo hi : lo < hi -> py_range lo hi = lo :: py_range (lo + 1) hi.
Proof.
  intros H. unfold py_range.
  replace (Z.to_nat (hi - lo)) with (S (Z.to_nat (hi - (lo + 1)))) by lia.
  cbn [seq map]. f_equal; [lia|].
  rewrite <- seq_shift, map_map.
  apply map_ext. intros k. lia.
Qed.

Lemma py_range_length lo hi : length (py_range lo hi) = Z.to_nat (hi - lo).
Proof. unfold py_range. now rewrite length_map, length_seq. Qed.

(** ** The backoff retrier *)

Section retry_facts.
Context {W A : Type}.
Variable func : extern W A.
Variables (max_attempts : Z) (initial_delay max_delay backoff_factor : Q).

Local Abbreviation loop := (retry_loop func max_attempts max_delay backoff_factor).

Lemma invocations_app (l1 l2 : list (retry_event A)) :
  invocations (l1 ++ l2) = invocations l1 ++ invocations l2.
Proof. unfold invocations. apply omap_app. Qed.

(** One iteration whose call succeeds returns at once. *)
Lemma retry_loop_success attempt range delay last s v w' :
  func (world s) = (Ok v, w') ->
  loop (attempt :: range) delay last s
  = (Ok (Return v), Run w' (trace s ++ [Invoke attempt (Ok v)])).
Proof.
  intros H. cbn [retry_loop]. unfold try_except, bind, await_func.
  rewrite H. reflexivity.
Qed.

(** One iteration whose call fails on the last attempt re-raises. *)
Lemma retry_loop_last_failure range delay last s e w' :
  func (world s) = (Raise e, w') ->
  loop (max_attempts :: range) delay last s
  = (Raise e, Run w' (trace s ++ [Invoke max_attempts (Raise e)])).
Proof.
  intros H. cbn [retry_loop]. unfold try_except, bind, await_func.
  rewrite H, Z.eqb_refl. reflexivity.
Qed.

(** One iteration whose call fails before the last attempt sleeps and goes
    on with the capped delay. *)
Lemma retry_loop_retry attempt range delay last s e w' :
  func (world s) = (Raise e, w') ->
  attempt <> max_attempts ->
  loop (attempt :: range) delay last s
  = loop range (py_min (delay * backoff_factor) max_delay) (Some e)
      (Run w' ((trace s ++ [Invoke attempt (Raise e)]) ++ [Sleep delay])).
Proof.
  intros H Hne. cbn [retry_loop]. unfold try_except at 1, bind at 1, await_func.
  rewrite H. apply Z.eqb_neq in Hne. rewrite Hne.
  reflexivity.
Qed.

(** The loop over a non-empty range that ends at [max_attempts] is left by
    its [return] or by its [raise], and the call that decides is the last
    thing it does. *)
Lemma retry_loop_spec (n : nat) : forall a delay last s,
  a <= max_attempts -> n = Z.to_nat (max_attempts - a) ->
  exists pre k r w',
    loop (py_range a (max_attempts + 1)) delay last s
    = (match r with Ok v => Ok (Return v) | Raise e => Raise e end,
       Run w' (trace s ++ pre ++ [Invoke k r]))
    /\ Forall failed_or_sleep pre
    /\ a <= k <= max_attempts
    /\ (is_ok r = false -> k = max_attempts)
    /\ length (invocations (pre ++ [Invoke k r])) = Z.to_nat (k - a + 1).
Proof.
  induction n as [|n IH]; intros a delay last s Ha Hn.
  - assert (a = max_attempts) by lia. subst a.
    rewrite py_range_cons by lia.
    destruct (func (world s)) as [[v|e] w'] eqn:Hf.
    + exists [], max_attempts, (Ok v), w'.
      rewrite (retry_loop_success _ _ _ _ _ _ _ Hf).
      repeat split; auto; try lia.
      cbn. lia.
    + exists [], max_attempts, (Raise e), w'.
      rewrite (retry_loop_last_failure _ _ _ _ _ _ Hf).
      repeat split; auto; try lia.
      cbn. lia.
  - rewrite py_range_cons by lia.
    destruct (func (world s)) as [[v|e] w'] eqn:Hf.
    + exists [], a, (Ok v), w'.
      rewrite (retry_loop_success _ _ _ _ _ _ _ Hf).
      repeat split; auto; try lia; try discriminate.
      cbn. lia.
    + rewrite (retry_loop_retry _ _ _ _ _ _ _ Hf) by lia.
      destruct (IH (a + 1) (py_min (delay * backoff_factor) max_delay) (Some e)
                  (Run w' ((trace s ++ [Invoke a (Raise e)]) ++ [Sleep delay])))
        as (pre & k & r & w'' & Heq & Hpre & Hk & Hlast & Hlen); [lia|lia|].
      exists (Invoke a (Raise e) :: Sleep delay :: pre), k, r, w''.
      rewrite Heq. cbn [trace].
      repeat split; auto; try lia.
      * f_equal. f_equal. rewrite <- !app_assoc. reflexivity.
      * repeat constructor; assumption.
      * change ((Invoke a (Raise e) :: Sleep delay :: pre) ++ [Invoke k r])
          with ([Invoke a (Raise e); Sleep delay] ++ (pre ++ [Invoke k r])).
        rewrite invocations_app, length_app, Hlen. cbn. lia.
Qed.

(** The same for the whole function, from attempt 1. *)
Lemma retry_with_backoff_spec s :
  1 <= max_attempts ->
  exists pre k r w',
    retry_with_backoff func max_attempts initial_delay max_delay backoff_factor s
    = (r, Run w' (trace s ++ pre ++ [Invoke k r]))
    /\ Forall failed_or_sleep pre
    /\ 1 <= k <= max_attempts
    /\ (is_ok r = false -> k = max_attempts)
    /\ length (invocations (pre ++ [Invoke k r])) = Z.to_nat k.
Proof.
  intros Hmax.
  destruct (retry_loop_spec _ 1 initial_delay None s Hmax eq_refl)
    as (pre & k & r & w' & Heq & Hpre & Hk & Hlast & Hlen).
  exists pre, k, r, w'. unfold retry_with_backoff, bind. rewrite Heq.
  replace (k - 1 + 1) with k in Hlen by lia.
  destruct r; auto.
Qed.

(** With no attempt allowed the loop is not entered. *)
Lemma retry_loop_empty delay last s :
  max_attempts <= 0 ->
  loop (py_range 1 (max_attempts + 1)) delay last s = (Ok (FallThrough last), s).
Proof. intros H. rewrite py_range_nil by lia. reflexivity. Qed.
End retry_facts.

(** A successful call can only be the last event of a trace whose earlier
    events are failures and sleeps. *)
Lemma success_is_last {A} (pre0 pre post : list (retry_event A)) ev k x :
  Forall failed_or_sleep pre0 ->
  pre0 ++ [ev] = pre ++ Invoke k (Ok x) :: post ->
  post = [] /\ ev = Invoke k (Ok x).
Proof.
  intros Hall Heq.
  destruct post as [|z post] using rev_ind.
  - apply app_inj_tail in Heq. tauto.
  - clear IHpost.
    change (pre ++ Invoke k (Ok x) :: post ++ [z])
      with (pre ++ (Invoke k (Ok x) :: post) ++ [z]) in Heq.
    rewrite app_assoc in Heq. apply app_inj_tail in Heq as [Heq _].
    subst pre0. rewrite Forall_app in Hall. destruct Hall as [_ Hall].
    inversion Hall as [|? ? Hbad]. destruct Hbad.
Qed.

(** C6 (amended). An operation that fails on its first two invocations and
    succeeds on the third is invoked exactly three times by
    [retry_with_backoff] when [max_attempts >= 3], and its value is returned.
    Two sleeps happen: the first lasts [initial_delay], the second
    [min(initial_delay * backoff_factor, max_delay)]; their sum is
    [initial_delay + initial_delay * backoff_factor] when that product does
    not exceed [max_delay].  For every operation: it is invoked at most
    [max_attempts] times, a successful invocation is the last event of the
    run and its value is returned, and when the run fails with
    [max_attempts >= 1] the exception raised is the one of the last
    invocation, which is attempt number [max_attempts]. *)
Theorem retry_fails_twice_then_succeeds {W A : Type} (func : extern W A)
    (max_attempts : Z) (initial_delay max_delay backoff_factor : Q)
    (w0 w1 w2 w3 : W) (e1 e2 : exn) (v : A) :
  func w0 = (Raise e1, w1) ->
  func w1 = (Raise e2, w2) ->
  func w2 = (Ok v, w3) ->
  3 <= max_attempts ->
  let second := py_min (initial_delay * backoff_factor) max_delay in
  let tr := [Invoke 1 (Raise e1); Sleep initial_delay;
             Invoke 2 (Raise e2); Sleep second; Invoke 3 (Ok v)] in
  retry_with_backoff func max_attempts initial_delay max_delay backoff_factor (start w0)
  = (Ok v, Run w3 tr)
  /\ length (invocations tr) = 3%nat
  /\ sleeps tr = [initial_delay; second]
  /\ (total_slept tr == initial_delay + second)%Q
  /\ ((initial_delay * backoff_factor <= max_delay)%Q ->
      (total_slept tr == initial_delay + initial_delay * backoff_factor)%Q)
  /\ forall (op : extern W A) (n : Z) (w : W) r s',
      retry_with_backoff op n initial_delay max_delay backoff_factor (start w) = (r, s') ->
      (length (invocations (trace s')) <= Z.to_nat n)%nat
      /\ (forall pre k x post,
             trace s' = pre ++ Invoke k (Ok x) :: post -> post = [] /\ r = Ok x)
      /\ (1 <= n -> is_ok r = false ->
          exists e pre, r = Raise e /\ trace s' = pre ++ [Invoke n (Raise e)]).
Proof.
  intros H1 H2 H3 Hmax second tr.
  assert (Hsum : (total_slept tr == initial_delay + second)%Q).
  { unfold total_slept, tr. cbn. ring. }
  split; [|split; [reflexivity|split; [reflexivity|split; [exact Hsum|split]]]].
  - unfold retry_with_backoff, bind.
    rewrite (py_range_cons 1) by lia.
    rewrite (retry_loop_retry func _ _ _ 1 _ _ _ _ e1 w1) by (cbn; auto; lia).
    rewrite (py_range_cons (1 + 1)) by lia.
    rewrite (retry_loop_retry func _ _ _ (1 + 1) _ _ _ _ e2 w2) by (cbn; auto; lia).
    rewrite (py_range_cons (1 + 1 + 1)) by lia.
    rewrite (retry_loop_success func _ _ _ (1 + 1 + 1) _ _ _ _ v w3) by (cbn; auto).
    reflexivity.
  - intros Hcap. rewrite Hsum. unfold second, py_min.
    apply Qle_bool_iff in Hcap. rewrite Hcap. reflexivity.
  - intros op n w r s' Hrun.
    destruct (Z_lt_le_dec n 1) as [Hn|Hn].
    + unfold retry_with_backoff, bind in Hrun.
      rewrite retry_loop_empty in Hrun by lia.
      cbn in Hrun. injection Hrun as <- <-. cbn.
      split; [lia|split].
      * intros pre k x post Hpost. destruct pre; discriminate.
      * intros; lia.
    + destruct (retry_with_backoff_spec op n initial_delay max_delay backoff_factor
                  (start w) Hn)
        as (pre0 & k & r0 & w' & Heq & Hpre & Hk & Hlast & Hlen).
      rewrite Heq in Hrun. injection Hrun as <- <-. cbn [trace start app].
      split; [rewrite Hlen; lia|split].
      * intros pre k' x post Hpost.
        destruct (success_is_last _ _ _ _ _ _ Hpre Hpost) as [-> Hev].
        split; [reflexivity|]. congruence.
      * intros _ Hfail. specialize (Hlast Hfail). subst k.
        destruct r0 as [x|e]; [discriminate|].
        exists e, pre0. split; reflexivity.
Qed.

Lemma retry_fails_twice_then_succeeds_witness :
  flaky 2 0%nat = (Raise (PyExc "ConnectError" "connection refused"), 1%nat)
  /\ 3 <= 5
  /\ retry_with_backoff (flaky 2) 5 1 60 2 (start 0%nat)
     = (Ok 200, Run 3%nat [Invoke 1 (Raise (PyExc "ConnectError" "connection refused"));
                           Sleep 1%Q;
                           Invoke 2 (Raise (PyExc "ConnectError" "connection refused"));
                           Sleep (py_min (1 * 2) 60);
                           Invoke 3 (Ok 200)]).
Proof.
  split; [reflexivity|split; [lia|]].
  apply (retry_fails_twice_then_succeeds (flaky 2) 5 1 60 2 0%nat 1%nat 2%nat 3%nat
           (PyExc "ConnectError" "connection refused")
           (PyExc "ConnectError" "connection refused") 200);
    [reflexivity|reflexivity|reflexivity|lia].
Defined.

(** C6 (as stated, refuted). With [initial_delay = 100], [max_delay = 60] and
    [backoff_factor = 2], an operation that fails twice and then succeeds is
    slept on for [100 + 60 = 160] seconds: neither
    [initial_delay + initial_delay * backoff_factor = 300], nor the sum of
    the two delays each capped at [max_delay], [60 + 60 = 120]. *)
Lemma retry_total_delay_counterexample :
  let run := retry_with_backoff (flaky 2) 5 100 60 2 (start 0%nat) in
  fst run = Ok 200
  /\ sleeps (trace (snd run)) = [100%Q; py_min (100 * 2) 60]
  /\ (total_slept (trace (snd run)) == 160)%Q
  /\ ~ (total_slept (trace (snd run)) == 100 + 100 * 2)%Q
  /\ ~ (total_slept (trace (snd run)) == py_min 100 60 + py_min (100 * 2) 60)%Q.
Proof.
  cbv zeta. repeat split; try reflexivity; vm_compute; discriminate.
Qed.



(** ** The LLM access layer *)

Lemma rotation_cons c n len :
  0 <= c < n -> rotation c n (S len) = c :: rotation ((c + 1) mod n) n len.
Proof.
  intros Hc. unfold rotation. cbn [seq map]. f_equal.
  - rewrite Z.add_0_r. apply Z.mod_small. assumption.
  - rewrite <- seq_shift, map_map. apply map_ext. intros j.
    rewrite Zplus_mod_idemp_l. f_equal. lia.
Qed.

Lemma rotation_inj c n i j :
  0 <= c < n -> 0 <= i < n -> 0 <= j < n ->
  (c + i) mod n = (c + j) mod n -> i = j.
Proof.
  intros Hc Hi Hj.
  assert (Hred : forall x, 0 <= x < n -> (c + x) mod n = c + x \/ (c + x) mod n = c + x - n).
  { intros x Hx. destruct (Z_lt_le_dec (c + x) n).
    - left. apply Z.mod_small. lia.
    - right. symmetry. apply (Z.mod_unique_pos _ _ 1); lia. }
  pose proof (Z.mod_pos_bound (c + i) n ltac:(lia)).
  pose proof (Z.mod_pos_bound (c + j) n ltac:(lia)).
  destruct (Hred i Hi), (Hred j Hj); lia.
Qed.

Lemma rotation_NoDup c n len :
  0 <= c < n -> Z.of_nat len <= n -> NoDup (rotation c n len).
Proof.
  intros Hc Hlen. unfold rotation.
  apply (NoDup_fmap_2_strong (fun j : nat => (c + Z.of_nat j) mod n)).
  - intros i j Hi Hj Heq.
    apply elem_of_seq in Hi. apply elem_of_seq in Hj.
    apply Nat2Z.inj. apply (rotation_inj c n); auto; lia.
  - apply NoDup_seq.
Qed.

Lemma py_index_in_range {A} (l : list A) (i : Z) :
  0 <= i < Z.of_nat (length l) -> exists x, py_index l i = Some x.
Proof.
  intros Hi. unfold py_index.
  destruct (0 <=? i) eqn:Hle; [|lia].
  apply lookup_lt_is_Some_2. lia.
Qed.

Section llm_facts.
Context {W : Type}.
Implicit Types (ps : list (provider W)) (w : W) (tr : list llm_event).

Lemma advance_cursor_run ps c w tr :
  ps <> [] ->
  advance_cursor (Run (LLM ps c w) tr)
  = (Ok tt, Run (LLM ps ((c + 1) mod Z.of_nat (length ps)) w) tr).
Proof.
  intros Hne. unfold advance_cursor, bind, get_cursor, get_providers, py_mod. cbn.
  destruct (Z.of_nat (length ps) =? 0) eqn:Hz.
  - apply Z.eqb_eq in Hz. destruct ps; [congruence|]. cbn [length] in Hz. lia.
  - reflexivity.
Qed.

(** An attempt that succeeds advances the cursor and returns. *)
Lemma provider_loop_success req i range err ps c w tr p text w' :
  ps <> [] -> py_index ps c = Some p -> p req w = (Ok text, w') ->
  provider_loop req (i :: range) err (Run (LLM ps c w) tr)
  = (Ok (Return text),
     Run (LLM ps ((c + 1) mod Z.of_nat (length ps)) w') (tr ++ [Attempt c (Ok text)])).
Proof.
  intros Hne Hp Hcall. cbn [provider_loop].
  unfold bind at 1, get_providers at 1. cbn [world providers].
  unfold bind at 1, get_cursor at 1. cbn [world current_provider_index].
  unfold bind at 1, subscript. rewrite Hp. unfold ret at 1.
  unfold try_except, bind at 1, await_provider. cbn [world outside providers trace
    current_provider_index]. rewrite Hcall.
  unfold bind. rewrite advance_cursor_run by assumption. reflexivity.
Qed.

(** An attempt that fails advances the cursor and goes on. *)
Lemma provider_loop_failure req i range err ps c w tr p e w' :
  ps <> [] -> py_index ps c = Some p -> p req w = (Raise e, w') ->
  provider_loop req (i :: range) err (Run (LLM ps c w) tr)
  = provider_loop req range (Some e)
      (Run (LLM ps ((c + 1) mod Z.of_nat (length ps)) w') (tr ++ [Attempt c (Raise e)])).
Proof.
  intros Hne Hp Hcall. cbn [provider_loop].
  unfold bind at 1, get_providers at 1. cbn [world providers].
  unfold bind at 1, get_cursor at 1. cbn [world current_provider_index].
  unfold bind at 1, subscript. rewrite Hp. unfold ret at 1.
  unfold try_except, bind at 1, await_provider. cbn [world outside providers trace
    current_provider_index]. rewrite Hcall.
  unfold bind at 1. rewrite advance_cursor_run by assumption. reflexivity.
Qed.

(** The loop, from a cursor inside the list: it never raises, every attempt
    is made at the cursor and moves it by one, and it goes on exactly as long
    as the attempts fail. *)
Lemma provider_loop_spec req ps : ps <> [] ->
  forall range err c w tr,
  0 <= c < Z.of_nat (length ps) ->
  exists evs x w',
    provider_loop req range err (Run (LLM ps c w) tr)
    = (Ok x, Run (LLM ps ((c + Z.of_nat (length evs)) mod Z.of_nat (length ps)) w')
               (tr ++ evs))
    /\ map attempt_index evs = rotation c (Z.of_nat (length ps)) (length evs)
    /\ Forall (answered_by ps req) evs
    /\ (length evs <= length range)%nat
    /\ match x with
       | Return text =>
           exists pre k, evs = pre ++ [Attempt k (Ok text)] /\ Forall attempt_failed pre
       | FallThrough err' =>
           Forall attempt_failed evs /\ length evs = length range
           /\ err' = final_error err evs
       end.
Proof.
  intros Hne. set (n := Z.of_nat (length ps)).
  induction range as [|i range IH]; intros err c w tr Hc.
  - exists [], (FallThrough err), w. cbn.
    rewrite Z.add_0_r, Z.mod_small, app_nil_r by assumption.
    repeat split; auto.
  - destruct (py_index_in_range ps c Hc) as [p Hp].
    destruct (p req w) as [[text|e] w'] eqn:Hcall.
    + exists [Attempt c (Ok text)], (Return text), w'.
      rewrite (provider_loop_success _ _ _ _ _ _ _ _ _ _ _ Hne Hp Hcall).
      repeat split.
      * cbn. unfold rotation. cbn. f_equal.
        rewrite Z.add_0_r. symmetry. apply Z.mod_small. assumption.
      * repeat constructor. exists p, w, w'. cbn. auto.
      * cbn. lia.
      * exists [], c. split; [reflexivity|constructor].
    + rewrite (provider_loop_failure _ _ _ _ _ _ _ _ _ _ _ Hne Hp Hcall).
      assert (Hc' : 0 <= (c + 1) mod n < n) by (apply Z.mod_pos_bound; lia).
      destruct (IH (Some e) ((c + 1) mod n) w' (tr ++ [Attempt c (Raise e)]) Hc')
        as (evs & x & w'' & Heq & Hrot & Hans & Hlen & Hx).
      exists (Attempt c (Raise e) :: evs), x, w''.
      fold n. rewrite Heq. repeat split.
      * f_equal. f_equal; [f_equal|].
        -- fold n. rewrite Zplus_mod_idemp_l. f_equal. cbn [length]. lia.
        -- rewrite <- app_assoc. reflexivity.
      * cbn [map length]. rewrite rotation_cons by assumption.
        f_equal. exact Hrot.
      * constructor; [|assumption]. exists p, w, w'. cbn. auto.
      * cbn. lia.
      * destruct x as [text|err'].
        -- destruct Hx as (pre & k & -> & Hpre).
           exists (Attempt c (Raise e) :: pre), k. split; [reflexivity|].
           constructor; [exact I|assumption].
        -- destruct Hx as (Hall & Hl & ->). repeat split.
           ++ constructor; [exact I|assumption].
           ++ cbn. lia.
           ++ unfold final_error. destruct evs as [|ev evs']; [reflexivity|].
              rewrite last_cons_cons.
              destruct (last (ev :: evs')) as [[k [text|e']]|] eqn:Hlast; try reflexivity.
              ** apply last_Some_elem_of in Hlast.
                 rewrite Forall_forall in Hall. destruct (Hall _ Hlast).
              ** apply last_None in Hlast. discriminate.
Qed.
End llm_facts.

Lemma py_index_elem_of {A} (l : list A) (i : Z) (x : A) :
  py_index l i = Some x -> x ∈ l.
Proof.
  unfold py_index. intros H.
  destruct (0 <=? i); [|destruct (- Z.of_nat (length l) <=? i); [|discriminate]];
    eapply list_elem_of_lookup_2; exact H.
Qed.

(** The cursor of a service with providers stays inside the list, from one
    call of [generate_response] to the next. *)
Lemma generate_response_cursor_in_range {W} (req : request) (ps : list (provider W))
    (c : Z) (w : W) tr r s' :
  ps <> [] -> 0 <= c < Z.of_nat (length ps) ->
  generate_response req (Run (LLM ps c w) tr) = (r, s') ->
  0 <= current_provider_index (world s') < Z.of_nat (length (providers (world s'))).
Proof.
  intros Hne Hc Hrun.
  destruct (provider_loop_spec req ps Hne (py_range 0 (Z.of_nat (length ps))) None c w tr Hc)
    as (evs & x & w' & Heq & _).
  unfold generate_response, bind at 1, get_providers at 1 in Hrun. cbn [world providers] in Hrun.
  destruct ps as [|p ps']; [congruence|].
  unfold bind in Hrun. rewrite Heq in Hrun.
  destruct x; cbn in Hrun; injection Hrun as <- <-; cbn [world providers current_provider_index];
    apply Z.mod_pos_bound; cbn [length]; lia.
Qed.

(** C4. With providers [A, B, C] and the cursor on [A], a call of
    [generate_response] in which [A] and [B] fail and [C] answers attempts
    [A], then [B], then [C], returns the answer of [C] and leaves the cursor
    at [(2 + 1) mod 3].  In general, from a cursor inside a non-empty list of
    [n] providers, the attempts of one call are made at the cursor values
    [c, (c + 1) mod n, (c + 2) mod n, ...] and the cursor ends at
    [(c + number of attempts) mod n]: each attempt, failed or not, moves it
    by one. *)
Theorem generate_response_rotation {W : Type} (A B C : provider W) (req : request)
    (w0 w1 w2 w3 : W) (ea eb : exn) (text : string) :
  A req w0 = (Raise ea, w1) ->
  B req w1 = (Raise eb, w2) ->
  C req w2 = (Ok text, w3) ->
  generate_response req (start (LLM [A; B; C] 0 w0))
  = (Ok text,
     Run (LLM [A; B; C] ((2 + 1) mod 3) w3)
       [Attempt 0 (Raise ea); Attempt 1 (Raise eb); Attempt 2 (Ok text)])
  /\ forall (ps : list (provider W)) (c : Z) (w : W) tr r s',
      ps <> [] -> 0 <= c < Z.of_nat (length ps) ->
      generate_response req (Run (LLM ps c w) tr) = (r, s') ->
      exists evs,
        trace s' = tr ++ evs
        /\ map attempt_index evs = rotation c (Z.of_nat (length ps)) (length evs)
        /\ providers (world s') = ps
        /\ current_provider_index (world s')
           = (c + Z.of_nat (length evs)) mod Z.of_nat (length ps).
Proof.
  intros HA HB HC. split.
  - unfold generate_response, bind at 1, get_providers at 1, start. cbn [world providers].
    unfold bind. change (py_range 0 (Z.of_nat (length [A; B; C]))) with [0; 1; 2].
    rewrite (provider_loop_failure req 0 _ None [A; B; C] 0 w0 [] A ea w1)
      by (auto; discriminate).
    change ((0 + 1) mod Z.of_nat (length [A; B; C])) with 1.
    rewrite (provider_loop_failure req _ _ _ [A; B; C] 1 w1 _ B eb w2)
      by (auto; discriminate).
    change ((1 + 1) mod Z.of_nat (length [A; B; C])) with 2.
    rewrite (provider_loop_success req _ _ _ [A; B; C] 2 w2 _ C text w3)
      by (auto; discriminate).
    reflexivity.
  - intros ps c w tr r s' Hne Hc Hrun.
    destruct (provider_loop_spec req ps Hne (py_range 0 (Z.of_nat (length ps))) None c w tr Hc)
      as (evs & x & w' & Heq & Hrot & _ & _ & _).
    unfold generate_response, bind at 1, get_providers at 1 in Hrun. cbn [world providers] in Hrun.
    destruct ps as [|p ps']; [congruence|].
    unfold bind in Hrun. rewrite Heq in Hrun.
    exists evs. destruct x; cbn in Hrun; injection Hrun as <- <-; cbn; auto.
Qed.

Lemma generate_response_rotation_witness :
  failing_provider "openai down" sample_request 0%nat
  = (Raise (PyExc "RuntimeError" "openai down"), 1%nat)
  /\ generate_response sample_request
       (start (LLM [failing_provider "openai down"; failing_provider "anthropic down";
                    working_provider "<html></html>"] 0 0%nat))
     = (Ok "<html></html>",
        Run (LLM [failing_provider "openai down"; failing_provider "anthropic down";
                  working_provider "<html></html>"] ((2 + 1) mod 3) 3%nat)
          [Attempt 0 (Raise (PyExc "RuntimeError" "openai down"));
           Attempt 1 (Raise (PyExc "RuntimeError" "anthropic down"));
           Attempt 2 (Ok "<html></html>")]).
Proof.
  split; [reflexivity|].
  apply (generate_response_rotation
           (failing_provider "openai down") (failing_provider "anthropic down")
           (working_provider "<html></html>") sample_request 0%nat 1%nat 2%nat 3%nat
           (PyExc "RuntimeError" "openai down") (PyExc "RuntimeError" "anthropic down")
           "<html></html>"); reflexivity.
Defined.

(** C5. When the provider list is not empty and every attempt that a call
    of [generate_response] makes fails, the call raises a [ValueError] whose
    message is ["All LLM providers failed. Last error: "] followed by the
    text of the error of the last attempt; each attempt is the answer of the
    provider at its position, the positions are the successive values of the
    cursor, pairwise different, and there are as many attempts as providers:
    every provider is attempted once and none twice.  When the list is empty
    the call raises ["No LLM providers available"] and attempts nothing. *)
Theorem generate_response_all_fail {W : Type} (req : request) :
  (forall (ps : list (provider W)) (c : Z) (w : W) tr r s' evs,
      ps <> [] -> 0 <= c < Z.of_nat (length ps) ->
      generate_response req (Run (LLM ps c w) tr) = (r, s') ->
      trace s' = tr ++ evs ->
      Forall attempt_failed evs ->
      exists pre k e,
        r = Raise (ValueError ("All LLM providers failed. Last error: " +:+ str e))
        /\ evs = pre ++ [Attempt k (Raise e)]
        /\ Forall (answered_by ps req) evs
        /\ map attempt_index evs = rotation c (Z.of_nat (length ps)) (length ps)
        /\ NoDup (map attempt_index evs)
        /\ length evs = length ps)
  /\ (forall (c : Z) (w : W) tr,
         generate_response req (Run (LLM [] c w) tr)
         = (Raise (ValueError "No LLM providers available"), Run (LLM [] c w) tr)).
Proof.
  split; [|reflexivity].
  intros ps c w tr r s' evs0 Hne Hc Hrun Htr Hall.
  destruct (provider_loop_spec req ps Hne (py_range 0 (Z.of_nat (length ps))) None c w tr Hc)
    as (evs & x & w' & Heq & Hrot & Hans & Hlen & Hx).
  unfold generate_response, bind at 1, get_providers at 1 in Hrun. cbn [world providers] in Hrun.
  destruct ps as [|p0 ps0] eqn:Hps; [congruence|]. rewrite <- Hps in *.
  unfold bind in Hrun. rewrite Heq in Hrun.
  assert (Hevs : evs0 = evs).
  { destruct x; cbn in Hrun; injection Hrun as _ <-; cbn [trace] in Htr;
      apply app_inv_head in Htr; congruence. }
  subst evs0.
  destruct x as [text|err'].
  { destruct Hx as (pre & k & -> & _).
    rewrite Forall_app in Hall. destruct Hall as [_ Hall].
    inversion Hall as [|? ? Hbad]. destruct Hbad. }
  destruct Hx as (_ & Hn & ->).
  rewrite py_range_length, Z.sub_0_r, Nat2Z.id in Hn.
  destruct evs as [|ev evs' _] using rev_ind.
  { rewrite Hps in Hn. discriminate. }
  pose proof Hall as Hall'.
  rewrite Forall_app in Hall'. destruct Hall' as [_ Hev].
  inversion Hev as [|? ? Hfailed _]. destruct ev as [k [text|e]]; [destruct Hfailed|].
  exists evs', k, e.
  unfold final_error in Hrun. rewrite last_snoc in Hrun. cbn in Hrun.
  injection Hrun as <- _.
  split; [reflexivity|]. split; [reflexivity|]. split; [exact Hans|].
  split; [rewrite Hrot, Hn; reflexivity|]. split; [|exact Hn].
  rewrite Hrot. apply rotation_NoDup; [assumption|]. rewrite Hn. lia.
Qed.

Lemma generate_response_all_fail_witness :
  let ps := [overloaded_provider 3 "openai overloaded" "<html></html>";
             overloaded_provider 3 "groq overloaded" "<html></html>"] in
  (exists pre k e,
      fst (generate_response sample_request (start (LLM ps 1 0%nat)))
      = Raise (ValueError ("All LLM providers failed. Last error: " +:+ str e))
      /\ [Attempt 1 (Raise (PyExc "RuntimeError" "groq overloaded"));
          Attempt 0 (Raise (PyExc "RuntimeError" "openai overloaded"))]
         = pre ++ [Attempt k (Raise e)])
  /\ fst (generate_response sample_request (start (LLM ps 1 5%nat))) = Ok "<html></html>"
  /\ generate_response sample_request (start (LLM (W := nat) [] 0 0%nat))
     = (Raise (ValueError "No LLM providers available"), start (LLM [] 0 0%nat)).
Proof.
  cbv zeta. split; [|split; [reflexivity|]].
  - destruct (proj1 (generate_response_all_fail (W := nat) sample_request)
                [overloaded_provider 3 "openai overloaded" "<html></html>";
                 overloaded_provider 3 "groq overloaded" "<html></html>"] 1 0%nat []
                _ _
                [Attempt 1 (Raise (PyExc "RuntimeError" "groq overloaded"));
                 Attempt 0 (Raise (PyExc "RuntimeError" "openai overloaded"))]
                ltac:(discriminate) ltac:(cbn; lia) (surjective_pairing _)
                eq_refl ltac:(repeat constructor))
      as (pre & k & e & Hr & Hevs & _).
    exists pre, k, e. split; [exact Hr|exact Hevs].
  - apply (proj2 (generate_response_all_fail (W := nat) sample_request)).
Defined.

(** ** The evaluation engine *)

Example strip_example : strip "  document.title  " = "document.title".
Proof. reflexivity. Qed.

Example split_example : split " page  has title " = ["page"; "has"; "title"].
Proof. reflexivity. Qed.

Example search_id_example : search_id "Page has # and #total-sales." = Some "total-sales".
Proof. reflexivity. Qed.

(** An id with an accented letter (U+00E9), which is a word character. *)
Example search_id_accent_example :
  let e_acute := ascii_of_nat 233 in
  search_id ("Show #" +:+ String e_acute "l scores") = Some (String e_acute "l").
Proof. reflexivity. Qed.

Example lower_contains_example : contains "mit" (lower "Repo has MIT license") = true.
Proof. reflexivity. Qed.

Section evaluator_facts.
Context {W : Type}.
Variable pw : playwright W.

Lemma keeps_ret {A} (a : A) : keeps (W := W) (ret a).
Proof. intros s r s' H. injection H as _ <-. reflexivity. Qed.

Lemma keeps_raise {A} e : keeps (W := W) (raise (A := A) e).
Proof. intros s r s' H. injection H as _ <-. reflexivity. Qed.

Lemma keeps_call {A} c (op : extern W A) : keeps (call c op).
Proof.
  intros s r s' H. unfold call in H.
  destruct (op (browser_world (world s))). injection H as _ <-. reflexivity.
Qed.

Lemma keeps_bind {A B} (m : M (run (evaluating W) page_call) A)
    (k : A -> M (run (evaluating W) page_call) B) :
  keeps m -> (forall a, keeps (k a)) -> keeps (bind m k).
Proof.
  intros Hm Hk s r s' H. unfold bind in H.
  destruct (m s) as [[a|e] s1] eqn:Hms.
  - rewrite (Hk a _ _ _ H). exact (Hm _ _ _ Hms).
  - injection H as _ <-. exact (Hm _ _ _ Hms).
Qed.

Lemma keeps_try_except {A} (m : M (run (evaluating W) page_call) A)
    (h : exn -> M (run (evaluating W) page_call) A) :
  keeps m -> (forall e, keeps (h e)) -> keeps (try_except m h).
Proof.
  intros Hm Hh s r s' H. unfold try_except in H.
  destruct (m s) as [[a|e] s1] eqn:Hms.
  - injection H as _ <-. exact (Hm _ _ _ Hms).
  - rewrite (Hh e _ _ _ H). exact (Hm _ _ _ Hms).
Qed.

Lemma never_raises_try_except {A} (m : M (run (evaluating W) page_call) A)
    (h : exn -> M (run (evaluating W) page_call) A) :
  (forall e, never_raises (h e)) -> never_raises (try_except m h).
Proof.
  intros Hh s. unfold try_except.
  destruct (m s) as [[a|e] s1]; [eauto|apply Hh].
Qed.

Lemma never_raises_ret {A} (a : A) :
  never_raises (ret (S := run (evaluating W) page_call) a).
Proof. intros s. eexists _, _. reflexivity. Qed.

Ltac keeps_step :=
  first
    [ apply keeps_ret | apply keeps_raise | apply keeps_call
    | apply keeps_try_except | apply keeps_bind
    | match goal with
      | |- keeps (if ?b then _ else _) => destruct b
      | |- keeps (match ?x with _ => _ end) => destruct x
      end
    | intro ].

Lemma keeps_run_js_check expr : keeps (_run_js_check pw expr).
Proof. unfold _run_js_check. repeat keeps_step. Qed.

Lemma keeps_run_text_check c : keeps (_run_text_check pw c).
Proof. unfold _run_text_check. cbv zeta. repeat keeps_step. Qed.

(** [_run_check] answers for every check and does not touch [results]. *)
Lemma run_check_never_raises c : never_raises (_run_check pw c).
Proof. apply never_raises_try_except. intros e. apply never_raises_ret. Qed.

Lemma keeps_run_check c : keeps (_run_check pw c).
Proof.
  unfold _run_check. apply keeps_try_except.
  - destruct (String.prefix "js:" c);
      [apply keeps_run_js_check|apply keeps_run_text_check].
  - intros e. apply keeps_ret.
Qed.

Lemma run_checks_spec checks : forall s,
  exists s', run_checks pw checks s = (Ok tt, s')
             /\ checked (length checks) (results (world s)) (results (world s')).
Proof.
  induction checks as [|c checks IH]; intros s.
  - exists s. split; [reflexivity|]. exists [], [].
    rewrite !app_nil_r. destruct (results (world s)). split; reflexivity.
  - cbn [run_checks]. unfold bind at 1.
    destruct (run_check_never_raises c s) as (cr & s1 & Hc). rewrite Hc.
    pose proof (keeps_run_check c _ _ _ Hc) as Hkeep.
    unfold bind.
    destruct (passed cr).
    + unfold update_results at 1.
      destruct (IH (Run (Evaluating (browser_world (world s1))
                           (append_passed c (results (world s1)))) (trace s1)))
        as (s' & Hrun & ps & fs & Hr & Hlen).
      exists s'. split; [exact Hrun|].
      cbn [world results] in Hr. rewrite Hkeep in Hr.
      exists (c :: ps), fs. split; [|cbn; lia].
      rewrite Hr. cbn. rewrite <- app_assoc. reflexivity.
    + unfold update_results at 1.
      set (f := FailedCheck c (get_reason cr)).
      destruct (IH (Run (Evaluating (browser_world (world s1))
                           (append_failed f (results (world s1)))) (trace s1)))
        as (s' & Hrun & ps & fs & Hr & Hlen).
      exists s'. split; [exact Hrun|].
      cbn [world results] in Hr. rewrite Hkeep in Hr.
      exists ps, (f :: fs). split; [|cbn; lia].
      rewrite Hr. cbn. rewrite <- app_assoc. reflexivity.
Qed.
End evaluator_facts.

Lemma scored_fresh n u errs : scored n (Evaluation u [] [] (Z.of_nat n) 0 None errs).
Proof.
  repeat split; cbn; lia.
Qed.

Lemma scored_append_error n msg r : scored n r -> scored n (append_error msg r).
Proof. intros H. exact H. Qed.

Lemma scored_after_checks n u ps fs shot errs :
  (length ps + length fs = n)%nat ->
  scored n (Evaluation u ps fs (Z.of_nat n)
              (if 0 <? Z.of_nat n
               then inject_Z (Z.of_nat (length ps)) / inject_Z (Z.of_nat n) else 0)
              shot errs).
Proof.
  intros Hlen. repeat split; cbn [total_checks checks_passed checks_failed score]; try lia.
  - intros ->. reflexivity.
  - intros Hn. destruct (0 <? Z.of_nat n) eqn:Hpos; [reflexivity|lia].
Qed.

Lemma ratio_bounds (a n : Z) :
  0 <= a <= n -> 0 < n -> (0 <= inject_Z a / inject_Z n <= 1)%Q.
Proof.
  intros Ha Hn.
  assert (Hpos : (0 < inject_Z n)%Q).
  { change 0%Q with (inject_Z 0). rewrite <- Zlt_Qlt. exact Hn. }
  split.
  - apply Qle_shift_div_l; [exact Hpos|]. rewrite Qmult_0_l.
    change 0%Q with (inject_Z 0). rewrite <- Zle_Qle. lia.
  - apply Qle_shift_div_r; [exact Hpos|]. rewrite Qmult_1_l.
    rewrite <- Zle_Qle. lia.
Qed.

Section evaluate_page_facts.
Context {W : Type}.
Variable pw : playwright W.
Variables (pages_url : string) (checks : list string) (timeout : Z).

Local Abbreviation fresh :=
  (Evaluation pages_url [] [] (Z.of_nat (length checks)) 0 None []).

(** The block of the outer [try], from the initial [results]: however it
    ends, the [results] it leaves are well scored, and what it returns is
    that very dict. *)
Lemma evaluate_page_try_spec w tr x s' :
  evaluate_page_try pw pages_url checks timeout (Run (Evaluating w fresh) tr) = (x, s') ->
  scored (length checks) (results (world s'))
  /\ forall r, x = Ok (Return r) -> r = results (world s').
Proof.
  unfold evaluate_page_try, bind at 1, call at 1. cbn [world browser_world results trace].
  destruct (new_page pw w) as [[[]|e] w1].
  2:{ intros H. injection H as <- <-. split; [apply scored_fresh|discriminate]. }
  unfold bind at 1, navigate, try_except at 1, bind at 1, call at 1.
  cbn [world browser_world results trace].
  destruct (goto pw pages_url timeout w1) as [[response|e] w2].
  2:{ cbn. intros H. injection H as <- <-. cbn.
      split; [apply scored_fresh|]. intros r Hr. injection Hr as <-. reflexivity. }
  destruct (bad_response response).
  { cbn. intros H. injection H as <- <-. cbn.
    split; [apply scored_fresh|]. intros r Hr. injection Hr as <-. reflexivity. }
  unfold ret at 1. unfold bind at 1, call at 1. cbn [world browser_world results trace].
  destruct (wait_for_load_state pw w2) as [[[]|e] w3].
  2:{ intros H. injection H as <- <-. split; [apply scored_fresh|discriminate]. }
  unfold bind at 1, call at 1. cbn [world browser_world results trace].
  unfold bind at 1.
  match goal with |- context [run_checks pw checks ?s] =>
    destruct (run_checks_spec pw checks s) as ([[w4 r4] tr4] & Hrun & ps & fs & Hr & Hlen);
    rewrite Hrun end.
  cbn [world results url checks_passed checks_failed total_checks score screenshot errors
       app] in Hr. subst r4.
  unfold bind at 1, get_results at 1. cbn [world results total_checks checks_passed].
  assert (Hscored : forall shot errs,
             scored (length checks)
               (Evaluation pages_url ps fs (Z.of_nat (length checks))
                  (if 0 <? Z.of_nat (length checks)
                   then inject_Z (Z.of_nat (length ps)) / inject_Z (Z.of_nat (length checks))
                   else 0) shot errs))
    by (intros; apply scored_after_checks; exact Hlen).
  destruct (0 <? Z.of_nat (length checks)) eqn:Hpos;
    unfold bind, update_results, ret, try_except, call;
    cbn [world browser_world results trace];
    destruct (page_screenshot pw w4) as [[shot|e] w5];
    cbn [world browser_world results trace];
    destruct (page_close pw w5) as [[[]|e'] w6];
    intros H; injection H as <- <-; (split; [apply Hscored|discriminate]).
Qed.

(** [evaluate_page] always returns its [results], well scored. *)
Lemma evaluate_page_scored s :
  exists r s', evaluate_page pw pages_url checks timeout s = (Ok r, s')
               /\ scored (length checks) r.
Proof.
  unfold evaluate_page, evaluate_page_local, bind at 1, try_except at 1.
  destruct (evaluate_page_try pw pages_url checks timeout
              (Run (Evaluating (world s) fresh) (trace s))) as [x s1] eqn:Htry.
  destruct (evaluate_page_try_spec _ _ _ _ Htry) as [Hscored Hret].
  destruct x as [[r|[]]|e].
  - rewrite (Hret r eq_refl). eexists _, _. split; [reflexivity|exact Hscored].
  - eexists _, _. split; [reflexivity|exact Hscored].
  - eexists _, _. split; [reflexivity|]. cbn. apply scored_append_error. exact Hscored.
Qed.
End evaluate_page_facts.

(** C2. When the page opens but navigation fails ([goto] raises, or gives no
    response, or a response whose status is not 2xx), [evaluate_page] returns
    a result with no passed check, no failed check, score 0.0 and one entry
    in [errors], which tells how navigation failed; the only calls made on
    the browser are [new_page] and [goto], so that no check runs. *)
Theorem evaluate_page_navigation_failure {W : Type} (pw : playwright W)
    (pages_url : string) (checks : list string) (timeout : Z)
    (s : run W page_call) (w1 w2 : W) (g : result (option Z)) :
  new_page pw (world s) = (Ok tt, w1) ->
  goto pw pages_url timeout w1 = (g, w2) ->
  navigation_failed g ->
  exists r,
    evaluate_page pw pages_url checks timeout s
    = (Ok r, Run w2 (trace s ++ [NewPage; Goto pages_url timeout]))
    /\ checks_passed r = []
    /\ checks_failed r = []
    /\ score r = 0%Q
    /\ errors r = [navigation_error g]
    /\ Forall (fun c => is_check_call c = false) [NewPage; Goto pages_url timeout].
Proof.
  intros Hnew Hgoto Hfail.
  exists (Evaluation pages_url [] [] (Z.of_nat (length checks)) 0 None [navigation_error g]).
  split; [|repeat split; repeat constructor].
  unfold evaluate_page, evaluate_page_local, evaluate_page_try.
  unfold bind at 1, try_except at 1, bind at 1, call at 1.
  cbn [world browser_world results trace]. rewrite Hnew.
  unfold bind at 1, navigate, try_except at 1, bind at 1, call at 1.
  cbn [world browser_world results trace]. rewrite Hgoto.
  assert (Hbad : forall response, g = Ok response -> bad_response response = true).
  { intros [status|] ->; [|reflexivity]. cbn in *.
    destruct (status =? 200) eqn:Hs; [|reflexivity]. lia. }
  destruct g as [response|e].
  - rewrite (Hbad response eq_refl). cbn. rewrite <- app_assoc. reflexivity.
  - cbn. rewrite <- app_assoc. reflexivity.
Qed.

Lemma evaluate_page_navigation_failure_witness :
  navigation_failed (Ok (Some 404))
  /\ exists r,
      evaluate_page (site (Ok (Some 404))) "https://user.github.io/sales/" sample_checks 30000
        (start 0%nat)
      = (Ok r, Run 2%nat ([] ++ [NewPage; Goto "https://user.github.io/sales/" 30000]))
      /\ checks_passed r = []
      /\ checks_failed r = []
      /\ score r = 0%Q
      /\ errors r = [navigation_error (Ok (Some 404))]
      /\ Forall (fun c => is_check_call c = false)
           [NewPage; Goto "https://user.github.io/sales/" 30000].
Proof.
  split; [cbn; lia|].
  apply (evaluate_page_navigation_failure (site (Ok (Some 404)))
           "https://user.github.io/sales/" sample_checks 30000 (start 0%nat) 1%nat 2%nat
           (Ok (Some 404))); [reflexivity|reflexivity|cbn; lia].
Defined.

(** C3. [evaluate_page] always returns a result.  When the check list is not
    empty its score is the number of passed checks divided by the number of
    checks, and lies between 0 and 1 (whatever navigation did: after a failed
    navigation both the score and the number of passed checks are 0); when
    the check list is empty its score is 0.0. *)
Theorem evaluate_page_score {W : Type} (pw : playwright W)
    (pages_url : string) (checks : list string) (timeout : Z) (s : run W page_call) :
  exists r s',
    evaluate_page pw pages_url checks timeout s = (Ok r, s')
    /\ total_checks r = Z.of_nat (length checks)
    /\ (checks <> [] ->
        (score r == inject_Z (Z.of_nat (length (checks_passed r)))
                    / inject_Z (Z.of_nat (length checks)))%Q
        /\ (0 <= score r <= 1)%Q)
    /\ (checks = [] -> score r = 0%Q).
Proof.
  destruct (evaluate_page_scored pw pages_url checks timeout s)
    as (r & s' & Hrun & Htotal & Hlen & Hzero & Hscore).
  exists r, s'. split; [exact Hrun|split; [exact Htotal|split]].
  - intros Hne.
    assert (Hn : length checks <> 0%nat) by (destruct checks; [congruence|discriminate]).
    specialize (Hscore Hn). split; [exact Hscore|].
    rewrite Hscore. apply ratio_bounds; lia.
  - intros ->. apply Hzero. reflexivity.
Qed.

Lemma evaluate_page_score_witness :
  sample_checks <> []
  /\ exists r s',
      evaluate_page (site (Ok (Some 200))) "https://user.github.io/sales/" sample_checks 30000
        (start 0%nat) = (Ok r, s')
      /\ (score r == inject_Z (Z.of_nat (length (checks_passed r)))
                     / inject_Z (Z.of_nat (length sample_checks)))%Q
      /\ (0 <= score r <= 1)%Q.
Proof.
  split; [discriminate|].
  destruct (evaluate_page_score (site (Ok (Some 200))) "https://user.github.io/sales/"
              sample_checks 30000 (start 0%nat))
    as (r & s' & Hrun & _ & Hscore & _).
  exists r, s'. split; [exact Hrun|]. apply Hscore. discriminate.
Defined.

(** On the sample site two of the three sample checks pass: the licence check
    and the script; the element [#total-sales] is not found. *)
Example evaluate_page_sample :
  let r := fst (evaluate_page (site (Ok (Some 200))) "https://user.github.io/sales/"
                  sample_checks 30000 (start 0%nat)) in
  r = Ok (Evaluation "https://user.github.io/sales/"
            ["Repo has MIT license"; "js: document.title.length > 0"]
            [FailedCheck "Page has element #total-sales"
               (Some "Element #total-sales not found")]
            3 (inject_Z 2 / inject_Z 3) (Some "PNG") []).
Proof. vm_compute. reflexivity. Qed.

(** ** Workspaces and the Act phase *)

Lemma try_finally_ok {S A} (m : M S A) (c : M S unit) s r s' s'' :
  m s = (r, s') -> c s' = (Ok tt, s'') -> try_finally m c s = (r, s'').
Proof. intros Hm Hc. unfold try_finally. rewrite Hm, Hc. reflexivity. Qed.

Section workspace_facts.
Context {U : Type}.
Variable C : collaborators U.

Lemma calm_silent {A} (m : M (run (host U) task_event) A) :
  (forall s r s', m s = (r, s') -> trace s' = trace s) -> calm m.
Proof.
  intros H s r s' Hm. exists []. rewrite app_nil_r. split; [eauto|constructor].
Qed.

Lemma calm_single {A} (m : M (run (host U) task_event) A) ev :
  is_cleanup ev = false ->
  (forall s r s', m s = (r, s') -> trace s' = trace s ++ [ev]) -> calm m.
Proof.
  intros Hev H s r s' Hm. exists [ev]. split; [eauto|repeat constructor; exact Hev].
Qed.

Lemma calm_ret {A} (a : A) : calm (U := U) (ret a).
Proof. apply calm_silent. intros s r s' H. injection H as _ <-. reflexivity. Qed.

Lemma calm_raise {A} e : calm (U := U) (raise (A := A) e).
Proof. apply calm_silent. intros s r s' H. injection H as _ <-. reflexivity. Qed.

Lemma calm_bind {A B} (m : M (run (host U) task_event) A)
    (k : A -> M (run (host U) task_event) B) :
  calm m -> (forall a, calm (k a)) -> calm (bind m k).
Proof.
  intros Hm Hk s r s' H. unfold bind in H.
  destruct (m s) as [[a|e] s1] eqn:Hms; destruct (Hm _ _ _ Hms) as (evs1 & Htr & H1).
  - destruct (Hk a _ _ _ H) as (evs2 & Htr2 & H2).
    exists (evs1 ++ evs2). rewrite app_assoc, <- Htr. split; [exact Htr2|].
    apply Forall_app; auto.
  - injection H as _ <-. eauto.
Qed.

Lemma calm_try_except {A} (m : M (run (host U) task_event) A)
    (h : exn -> M (run (host U) task_event) A) :
  calm m -> (forall e, calm (h e)) -> calm (try_except m h).
Proof.
  intros Hm Hh s r s' H. unfold try_except in H.
  destruct (m s) as [[a|e] s1] eqn:Hms; destruct (Hm _ _ _ Hms) as (evs1 & Htr & H1).
  - injection H as _ <-. eauto.
  - destruct (Hh e _ _ _ H) as (evs2 & Htr2 & H2).
    exists (evs1 ++ evs2). rewrite app_assoc, <- Htr. split; [exact Htr2|].
    apply Forall_app; auto.
Qed.

Lemma calm_outside_call {A} ev (op : extern U A) :
  is_cleanup ev = false -> calm (outside_call ev op).
Proof.
  intros Hev. apply (calm_single _ ev Hev). intros s r s' H. unfold outside_call in H.
  destruct (op (beyond (world s))). injection H as _ <-. reflexivity.
Qed.

Lemma calm_path_mkdir path : calm (path_mkdir C path).
Proof.
  apply (calm_single _ (Mkdir path) eq_refl). intros s r s' H. unfold path_mkdir in H.
  destruct (mkdir C path (beyond (world s))) as [[[]|e] u']; injection H as _ <-; reflexivity.
Qed.

Lemma calm_run_command command cwd : calm (_run_command C command cwd).
Proof.
  apply (calm_single _ (RunCommand command cwd) eq_refl).
  intros s r s' H. injection H as _ <-. reflexivity.
Qed.

Lemma calm_set_workspace path : calm (U := U) (set_workspace path).
Proof. apply calm_silent. intros s r s' H. injection H as _ <-. reflexivity. Qed.

Lemma calm_post_with_retry url payload n : calm (post_with_retry C url payload n).
Proof.
  intros s r s' H. unfold post_with_retry in H.
  destruct (retry_with_backoff _ _ _ _ _ _) as [r1 s1].
  injection H as _ <-. eexists [_]. split; [reflexivity|repeat constructor].
Qed.

Lemma calm_subscript_piece pieces i : calm (U := U) (subscript_piece pieces i).
Proof. unfold subscript_piece. destruct (py_index pieces i); [apply calm_ret|apply calm_raise]. Qed.

(** [cleanup_workspace] returns, whatever [shutil.rmtree] does; it removes
    the directory unless the removal fails, and then leaves the directory
    and the tracking dict as they were. *)
Lemma cleanup_workspace_spec path s :
  exists s' evs,
    cleanup_workspace C path s = (Ok tt, s')
    /\ trace s' = trace s ++ CleanupWorkspace path :: evs
    /\ Forall (fun ev => is_cleanup ev = false) evs
    /\ (is_ok (fst (rmtree C path (beyond (world s)))) = true -> path ∉ dirs (world s'))
    /\ (path ∈ dirs (world s) -> is_ok (fst (rmtree C path (beyond (world s)))) = false ->
        dirs (world s') = dirs (world s) /\ workspaces (world s') = workspaces (world s)).
Proof.
  unfold cleanup_workspace, bind at 1, emit. cbn [world trace].
  unfold try_except, cleanup_workspace_try, bind at 1, path_exists. cbn [world trace].
  destruct (bool_decide (path ∈ dirs (world s))) eqn:Hin.
  - apply bool_decide_eq_true in Hin.
    unfold bind at 1, shutil_rmtree. cbn [world trace beyond dirs workspaces].
    destruct (rmtree C path (beyond (world s))) as [[[]|e] u'].
    + eexists _, [_]. split; [reflexivity|]. cbn [world trace dirs fst is_ok].
      split; [rewrite <- app_assoc; reflexivity|].
      split; [repeat constructor|]. split; [|discriminate].
      intros _ Hbad. apply elem_of_difference in Hbad as [_ Hbad].
      apply Hbad, elem_of_singleton. reflexivity.
    + eexists _, [_]. split; [reflexivity|]. cbn [world trace dirs workspaces fst is_ok].
      split; [rewrite <- app_assoc; reflexivity|].
      split; [repeat constructor|]. split; [discriminate|auto].
  - apply bool_decide_eq_false in Hin.
    eexists _, []. split; [reflexivity|]. cbn [world trace dirs].
    split; [reflexivity|]. split; [constructor|]. split; [auto|contradiction].
Qed.
End workspace_facts.

Ltac calm_step :=
  first
    [ apply calm_ret | apply calm_raise | apply calm_path_mkdir | apply calm_run_command
    | apply calm_set_workspace | apply calm_post_with_retry | apply calm_subscript_piece
    | apply calm_outside_call; reflexivity
    | apply calm_try_except | apply calm_bind
    | match goal with
      | |- calm (if ?b then _ else _) => destruct b
      end
    | intro ].

Lemma calm_create_workspace {U} (C : collaborators U) path : calm (create_workspace C path).
Proof. unfold create_workspace. repeat calm_step. Qed.

Lemma calm_send_evaluation_callback {U} (C : collaborators U) task d :
  calm (_send_evaluation_callback C task d).
Proof. unfold _send_evaluation_callback. cbv zeta. repeat calm_step. Qed.

Ltac calm_solve :=
  cbv zeta;
  repeat first [apply calm_create_workspace | apply calm_send_evaluation_callback | calm_step].

Lemma calm_act_phase_try {U} (C : collaborators U) task plan id path :
  calm (_act_phase_try C task plan id path).
Proof. unfold _act_phase_try, _deploy_application. calm_solve. Qed.

Lemma calm_process_round2_task_try {U} (C : collaborators U) task url id path :
  calm (process_round2_task_try C task url id path).
Proof. unfold process_round2_task_try. calm_solve. Qed.

(** The [try ... finally] of a phase whose [try] block is calm: the outcome
    is the one of the block, and cleanup is the only cleanup call. *)
Lemma phase_with_cleanup {U A} (C : collaborators U)
    (block : string -> string -> M (run (host U) task_event) A) s :
  (forall id path, calm (block id path)) ->
  exists id s1 r s2 s' evs,
    let path := "/tmp/workspace_" +:+ id in
    new_workspace C s = (Ok id, s1)
    /\ block id path s1 = (r, s2)
    /\ cleanup_workspace C path s2 = (Ok tt, s')
    /\ (let* workspace_id := new_workspace C in
        try_finally (block workspace_id ("/tmp/workspace_" +:+ workspace_id))
          (cleanup_workspace C ("/tmp/workspace_" +:+ workspace_id))) s = (r, s')
    /\ trace s' = trace s ++ evs
    /\ filter (fun ev => is_cleanup ev = true) evs = [CleanupWorkspace path]
    /\ (is_ok (fst (rmtree C path (beyond (world s2)))) = true -> path ∉ dirs (world s'))
    /\ (path ∈ dirs (world s2) -> is_ok (fst (rmtree C path (beyond (world s2)))) = false ->
        dirs (world s') = dirs (world s2) /\ workspaces (world s') = workspaces (world s2)).
Proof.
  intros Hcalm.
  destruct (new_workspace C s) as [r0 s1] eqn:Hnew.
  assert (Hid : exists id, r0 = Ok id /\ trace s1 = trace s ++ [Uuid4 id]).
  { unfold new_workspace in Hnew. destruct (uuid4 C (beyond (world s))) as [id u'].
    injection Hnew as <- <-. eauto. }
  destruct Hid as (id & -> & Htr1).
  destruct (block id ("/tmp/workspace_" +:+ id) s1) as [r s2] eqn:Hblock.
  destruct (Hcalm _ _ _ _ _ Hblock) as (evs2 & Htr2 & Hquiet2).
  destruct (cleanup_workspace_spec C ("/tmp/workspace_" +:+ id) s2)
    as (s' & evs3 & Hclean & Htr3 & Hquiet3 & Hgone & Hkept).
  exists id, s1, r, s2, s', ([Uuid4 id] ++ evs2 ++ CleanupWorkspace ("/tmp/workspace_" +:+ id) :: evs3).
  cbv zeta. split; [reflexivity|]. split; [exact Hblock|]. split; [exact Hclean|].
  split; [|split; [|split; [|split]]].
  - unfold bind. rewrite Hnew. apply (try_finally_ok _ _ _ _ _ _ Hblock Hclean).
  - rewrite Htr3, Htr2, Htr1, <- !app_assoc. reflexivity.
  - assert (Hnone : forall evs, Forall (fun ev => is_cleanup ev = false) evs ->
                                filter (fun ev => is_cleanup ev = true) evs = []).
    { intros evs Hall. induction Hall as [|ev evs Hev _ IH]; [reflexivity|].
      rewrite filter_cons_False by congruence. exact IH. }
    cbn [app]. rewrite filter_cons_False by discriminate.
    rewrite filter_app, (Hnone _ Hquiet2).
    rewrite filter_cons_True by reflexivity.
    rewrite (Hnone _ Hquiet3). reflexivity.
  - exact Hgone.
  - exact Hkept.
Qed.

(** C8 (amended). In every run of the Act phase, whether its [try] block
    returns or raises, [cleanup_workspace] is called exactly once, on the
    workspace of the run, and the outcome of the phase is the one of the
    block.  The workspace directory does not exist afterwards provided that
    the removal of the directory, at the state the block has left, does not
    itself fail.  When the directory exists and its removal fails, the
    failure is swallowed: the directory is still on disk afterwards and the
    table of tracked workspaces is as the block has left it. *)
Theorem act_phase_cleanup_once {U : Type} (C : collaborators U)
    (task : task_data) (p : plan) (s : run (host U) task_event) :
  exists id s1 r s2 s' evs,
    let path := "/tmp/workspace_" +:+ id in
    new_workspace C s = (Ok id, s1)
    /\ _act_phase_try C task p id path s1 = (r, s2)
    /\ _act_phase C task p s = (r, s')
    /\ trace s' = trace s ++ evs
    /\ filter (fun ev => is_cleanup ev = true) evs = [CleanupWorkspace path]
    /\ (is_ok (fst (rmtree C path (beyond (world s2)))) = true -> path ∉ dirs (world s'))
    /\ (path ∈ dirs (world s2) ->
        is_ok (fst (rmtree C path (beyond (world s2)))) = false ->
        path ∈ dirs (world s') /\ workspaces (world s') = workspaces (world s2)).
Proof.
  destruct (phase_with_cleanup C (_act_phase_try C task p) s
              (calm_act_phase_try C task p))
    as (id & s1 & r & s2 & s' & evs & Hnew & Hblock & _ & Hrun & Htr & Hone & Hgone & Hkept).
  exists id, s1, r, s2, s', evs. cbv zeta.
  split; [exact Hnew|]. split; [exact Hblock|]. split; [exact Hrun|].
  split; [exact Htr|]. split; [exact Hone|]. split; [exact Hgone|].
  intros Hin Hfail. destruct (Hkept Hin Hfail) as [Hdirs Hws].
  split; [rewrite Hdirs; exact Hin|exact Hws].
Qed.

Lemma act_phase_cleanup_once_witness :
  (exists r s' evs,
      _act_phase (lab (Ok tt) (Ok tt) None) (sample_task 1) DefaultPlan
        (start (Host ∅ ∅ 0%nat)) = (r, s')
      /\ trace s' = [] ++ evs
      /\ filter (fun ev => is_cleanup ev = true) evs
         = [CleanupWorkspace "/tmp/workspace_0001"]
      /\ "/tmp/workspace_0001" ∉ dirs (world s'))
  /\ (exists r s',
         _act_phase (lab (Raise permission_denied) (Ok tt) None) (sample_task 1) DefaultPlan
           (start (Host ∅ ∅ 0%nat)) = (r, s')
         /\ "/tmp/workspace_0001" ∈ dirs (world s')).
Proof.
  split.
  - destruct (act_phase_cleanup_once (lab (Ok tt) (Ok tt) None) (sample_task 1) DefaultPlan
                (start (Host ∅ ∅ 0%nat)))
      as (id & s1 & r & s2 & s' & evs & Hnew & _ & Hrun & Htr & Hone & Hgone & _).
    injection Hnew as <- _.
    exists r, s', evs. split; [exact Hrun|]. split; [exact Htr|]. split; [exact Hone|].
    apply Hgone. reflexivity.
  - destruct (act_phase_cleanup_once (lab (Raise permission_denied) (Ok tt) None)
                (sample_task 1) DefaultPlan (start (Host ∅ ∅ 0%nat)))
      as (id & s1 & r & s2 & s' & evs & Hnew & Hblock & Hrun & _ & _ & _ & Hkept).
    injection Hnew as <- <-.
    exists r, s'. split; [exact Hrun|].
    apply Hkept; [|reflexivity].
    apply (f_equal snd) in Hblock. cbn [snd] in Hblock. rewrite <- Hblock.
    rewrite <- (bool_decide_eq_true (_ ∈ _)). vm_compute. reflexivity.
Defined.

(** C8 (as stated, refuted). When the removal of the workspace directory
    fails with a permission error, the Act phase returns normally and has
    called [cleanup_workspace] exactly once, and yet the workspace directory
    is still on disk afterwards. *)
Lemma act_phase_orphan_counterexample :
  let run := _act_phase (lab (Raise permission_denied) (Ok tt) None) (sample_task 1)
               DefaultPlan (start (Host ∅ ∅ 0%nat)) in
  is_ok (fst run) = true
  /\ filter (fun ev => is_cleanup ev = true) (trace (snd run))
     = [CleanupWorkspace "/tmp/workspace_0001"]
  /\ "/tmp/workspace_0001" ∈ dirs (world (snd run)).
Proof.
  cbv zeta. split; [vm_compute; reflexivity|]. split; [vm_compute; reflexivity|].
  rewrite <- (bool_decide_eq_true (_ ∈ _)). vm_compute. reflexivity.
Qed.

(** C10. [cleanup_workspace] always returns: a failure of the removal is
    swallowed, and then the directory is still there.  Hence the outcome of
    the Act phase and the outcome of round-2 processing, value or exception,
    are those of their [try] blocks: the cleanup in [finally] neither raises
    nor replaces an exception. *)
Theorem cleanup_workspace_never_raises {U : Type} (C : collaborators U) :
  (forall path s,
      exists s',
        cleanup_workspace C path s = (Ok tt, s')
        /\ (path ∈ dirs (world s) ->
            is_ok (fst (rmtree C path (beyond (world s)))) = false ->
            path ∈ dirs (world s')))
  /\ (forall task p s,
         exists id s1,
           new_workspace C s = (Ok id, s1)
           /\ fst (_act_phase C task p s)
              = fst (_act_phase_try C task p id ("/tmp/workspace_" +:+ id) s1))
  /\ (forall task existing_repo_url s,
         exists id s1,
           new_workspace C s = (Ok id, s1)
           /\ fst (process_round2_task C task existing_repo_url s)
              = fst (process_round2_task_try C task existing_repo_url id
                       ("/tmp/workspace_" +:+ id) s1)).
Proof.
  split; [|split].
  - intros path s.
    destruct (cleanup_workspace_spec C path s) as (s' & evs & Hrun & _ & _ & _ & Hkept).
    exists s'. split; [exact Hrun|].
    intros Hin Hfail. destruct (Hkept Hin Hfail) as [-> _]. exact Hin.
  - intros task p s.
    destruct (phase_with_cleanup C (_act_phase_try C task p) s (calm_act_phase_try C task p))
      as (id & s1 & r & s2 & s' & evs & Hnew & Hblock & _ & Hrun & _).
    exists id, s1. split; [exact Hnew|].
    unfold _act_phase. rewrite Hrun, Hblock. reflexivity.
  - intros task url s.
    destruct (phase_with_cleanup C (process_round2_task_try C task url) s
                (calm_process_round2_task_try C task url))
      as (id & s1 & r & s2 & s' & evs & Hnew & Hblock & _ & Hrun & _).
    exists id, s1. split; [exact Hnew|].
    unfold process_round2_task. rewrite Hrun, Hblock. reflexivity.
Qed.

Lemma cleanup_workspace_never_raises_witness :
  let s := start (Host {["/tmp/workspace_0001"]} ∅ 0%nat) in
  "/tmp/workspace_0001" ∈ dirs (world s)
  /\ is_ok (fst (rmtree (lab (Raise permission_denied) (Ok tt) None) "/tmp/workspace_0001"
                   (beyond (world s)))) = false
  /\ exists s',
      cleanup_workspace (lab (Raise permission_denied) (Ok tt) None) "/tmp/workspace_0001" s
      = (Ok tt, s')
      /\ "/tmp/workspace_0001" ∈ dirs (world s').
Proof.
  cbv zeta.
  assert (Hin : "/tmp/workspace_0001"
                ∈ dirs (world (start (Ev := task_event)
                                 (Host {["/tmp/workspace_0001"]} ∅ 0%nat)))).
  { apply elem_of_singleton. reflexivity. }
  split; [exact Hin|]. split; [reflexivity|].
  destruct (proj1 (cleanup_workspace_never_raises (lab (Raise permission_denied) (Ok tt) None))
              "/tmp/workspace_0001" (start (Host {["/tmp/workspace_0001"]} ∅ 0%nat)))
    as (s' & Hrun & Hkept).
  exists s'. split; [exact Hrun|]. apply Hkept; [exact Hin|reflexivity].
Defined.

(** ** The Review phase *)

(** C7 (amended). When the evaluation of the Review phase raises an
    exception, [_review_phase] does not raise: it returns a report whose
    score is 0.5, whose list of passed checks is empty, whose list of failed
    checks is the list of the checks of the task, and whose only
    recommendation is the label ["Evaluation error: "] followed by the
    message of the exception. *)
Theorem review_phase_evaluation_error {U : Type} (C : collaborators U)
    (task : task_data) (result : act_result) (s s1 : run (host U) task_event) (e : exn) :
  _run_quality_checks_try C result task s = (Raise e, s1) ->
  exists report s',
    _review_phase C task result s = (Ok report, s')
    /\ quality_score report = (1 # 2)%Q
    /\ report_checks_passed report = []
    /\ report_checks_failed report = checks task
    /\ report_recommendations report = ["Evaluation error: " +:+ str e].
Proof.
  intros Hraise.
  unfold _review_phase, bind at 1, _run_quality_checks, try_except. rewrite Hraise.
  unfold ret at 1, bind. cbn [world trace].
  destruct (now C (beyond (world s1))) as [t u'].
  eexists _, _. split; [reflexivity|]. cbn. repeat split; reflexivity.
Qed.

Lemma review_phase_evaluation_error_witness :
  let C := lab (Ok tt) (Raise (PyExc "Error" "Executable doesn't exist")) None in
  let result := ActResult "0001" 5
                  (Deployment "https://github.com/user/sales" "abc123"
                     "https://user.github.io/sales/") "completed" in
  let s := start (Host ∅ ∅ 0%nat) in
  _run_quality_checks_try C result (sample_task 1) s
  = (Raise (PyExc "Error" "Executable doesn't exist"),
     Run (Host ∅ ∅ 1%nat) [BrowserStart])
  /\ exists report s',
      _review_phase C (sample_task 1) result s = (Ok report, s')
      /\ quality_score report = (1 # 2)%Q
      /\ report_checks_passed report = []
      /\ report_checks_failed report = sample_checks
      /\ report_recommendations report = ["Evaluation error: Executable doesn't exist"].
Proof.
  cbv zeta. split; [reflexivity|].
  destruct (review_phase_evaluation_error
              (lab (Ok tt) (Raise (PyExc "Error" "Executable doesn't exist")) None)
              (sample_task 1)
              (ActResult "0001" 5
                 (Deployment "https://github.com/user/sales" "abc123"
                    "https://user.github.io/sales/") "completed")
              (start (Host ∅ ∅ 0%nat)) (Run (Host ∅ ∅ 1%nat) [BrowserStart])
              (PyExc "Error" "Executable doesn't exist") eq_refl)
    as (report & s' & Hrun & Hscore & Hpassed & Hfailed & Hrec).
  exists report, s'. repeat split; assumption.
Defined.

(** C7 (as stated, refuted). When the browser of the evaluation cannot be
    started, the evaluation raises, the report of [_review_phase] has one
    recommendation, and this recommendation is not the message of the
    exception: it is the message after the label ["Evaluation error: "]. *)
Lemma review_phase_recommendation_counterexample :
  let C := lab (Ok tt) (Raise (PyExc "Error" "Executable doesn't exist")) None in
  let result := ActResult "0001" 5
                  (Deployment "https://github.com/user/sales" "abc123"
                     "https://user.github.io/sales/") "completed" in
  let s := start (Host ∅ ∅ 0%nat) in
  let e := PyExc "Error" "Executable doesn't exist" in
  fst (_run_quality_checks_try C result (sample_task 1) s) = Raise e
  /\ exists report,
      fst (_review_phase C (sample_task 1) result s) = Ok report
      /\ quality_score report = (1 # 2)%Q
      /\ report_checks_passed report = []
      /\ report_checks_failed report = sample_checks
      /\ report_recommendations report = ["Evaluation error: Executable doesn't exist"]
      /\ report_recommendations report <> [str e].
Proof.
  cbv zeta. split; [reflexivity|].
  eexists. split; [reflexivity|]. cbn.
  repeat split; try reflexivity. discriminate.
Qed.

(** ** Round 2 *)

Lemma new_workspace_spec {U} (C : collaborators U) s :
  exists id s1, new_workspace C s = (Ok id, s1) /\ trace s1 = trace s ++ [Uuid4 id].
Proof.
  unfold new_workspace. destruct (uuid4 C (beyond (world s))) as [id u'].
  eexists _, _. split; reflexivity.
Qed.

(** * Further properties of the sources *)

(** ** The backoff retrier, continued *)

Lemma py_min_le_r (a b : Q) : (py_min a b <= b)%Q.
Proof.
  unfold py_min. destruct (Qle_bool a b) eqn:H.
  - apply Qle_bool_iff. exact H.
  - apply Qle_refl.
Qed.

Lemma sleeps_app {A} (l1 l2 : list (retry_event A)) :
  sleeps (l1 ++ l2) = sleeps l1 ++ sleeps l2.
Proof. unfold sleeps. apply omap_app. Qed.

(** The sleeps of the loop: one between two attempts, none after the last;
    the first lasts the current delay and the others are capped. *)
Lemma retry_loop_sleeps {W A} (func : extern W A) max_attempts max_delay backoff_factor
    (n : nat) : forall a delay last s,
  a <= max_attempts -> n = Z.to_nat (max_attempts - a) ->
  exists evs x s',
    retry_loop func max_attempts max_delay backoff_factor
      (py_range a (max_attempts + 1)) delay last s = (x, s')
    /\ trace s' = trace s ++ evs
    /\ (length (sleeps evs) + 1 = length (invocations evs))%nat
    /\ capped_after_first delay max_delay (sleeps evs).
Proof.
  induction n as [|n IH]; intros a delay last s Ha Hn.
  - assert (a = max_attempts) by lia. subst a.
    rewrite py_range_cons by lia.
    destruct (func (world s)) as [[v|e] w'] eqn:Hf.
    + rewrite (retry_loop_success _ _ _ _ _ _ _ _ _ _ _ Hf).
      eexists [_], _, _. repeat split.
    + rewrite (retry_loop_last_failure _ _ _ _ _ _ _ _ _ _ Hf).
      eexists [_], _, _. repeat split.
  - rewrite py_range_cons by lia.
    destruct (func (world s)) as [[v|e] w'] eqn:Hf.
    + rewrite (retry_loop_success _ _ _ _ _ _ _ _ _ _ _ Hf).
      eexists [_], _, _. repeat split.
    + rewrite (retry_loop_retry _ _ _ _ _ _ _ _ _ _ _ Hf) by lia.
      destruct (IH (a + 1) (py_min (delay * backoff_factor) max_delay) (Some e)
                  (Run w' ((trace s ++ [Invoke a (Raise e)]) ++ [Sleep delay])))
        as (evs & x & s' & Heq & Htr & Hlen & Hcap); [lia|lia|].
      exists (Invoke a (Raise e) :: Sleep delay :: evs), x, s'.
      split; [exact Heq|]. split; [|split].
      * rewrite Htr. cbn [trace]. rewrite <- !app_assoc. reflexivity.
      * change (Invoke a (Raise e) :: Sleep delay :: evs)
          with ([Invoke a (Raise e); Sleep delay] ++ evs).
        rewrite sleeps_app, invocations_app, !length_app. cbn. lia.
      * change (Invoke a (Raise e) :: Sleep delay :: evs)
          with ([Invoke a (Raise e); Sleep delay] ++ evs).
        rewrite sleeps_app. cbn [sleeps omap app]. cbn.
        split; [reflexivity|].
        destruct (sleeps evs) as [|d ds]; [constructor|].
        destruct Hcap as [-> Hds]. constructor; [apply py_min_le_r|exact Hds].
Qed.

(** X1. When at least one attempt is allowed, [retry_with_backoff] sleeps
    exactly once between two consecutive attempts and never after the last
    one: the number of sleeps is the number of invocations minus one.  The
    first sleep lasts [initial_delay]; every later sleep lasts at most
    [max_delay]. *)
Theorem retry_sleeps_between_attempts {W A : Type} (func : extern W A)
    (max_attempts : Z) (initial_delay max_delay backoff_factor : Q)
    (s : run W (retry_event A)) :
  1 <= max_attempts ->
  exists evs r s',
    retry_with_backoff func max_attempts initial_delay max_delay backoff_factor s = (r, s')
    /\ trace s' = trace s ++ evs
    /\ (length (sleeps evs) + 1 = length (invocations evs))%nat
    /\ capped_after_first initial_delay max_delay (sleeps evs).
Proof.
  intros Hmax.
  destruct (retry_loop_sleeps func max_attempts max_delay backoff_factor _ 1 initial_delay
              None s Hmax eq_refl) as (evs & x & s' & Heq & Htr & Hlen & Hcap).
  unfold retry_with_backoff, bind. rewrite Heq.
  destruct x as [[v|last]|e].
  - exists evs, (Ok v), s'. auto.
  - destruct last as [e|]; eexists evs, _, s'; (split; [reflexivity|auto]).
  - exists evs, (Raise e), s'. auto.
Qed.

Lemma retry_sleeps_between_attempts_witness :
  1 <= 5
  /\ exists evs r s',
      retry_with_backoff (flaky 5) 5 40 60 2 (start 0%nat) = (r, s')
      /\ trace s' = [] ++ evs
      /\ (length (sleeps evs) + 1 = length (invocations evs))%nat
      /\ capped_after_first 40 60 (sleeps evs).
Proof.
  split; [lia|].
  apply (retry_sleeps_between_attempts (flaky 5) 5 40 60 2 (start 0%nat)). lia.
Defined.

(** ** Calls that a computation of a task run never makes *)

Section avoids_facts.
Context {U : Type}.
Variable C : collaborators U.
Variable p : task_event -> bool.

Lemma avoids_silent {A} (m : M (run (host U) task_event) A) :
  (forall s r s', m s = (r, s') -> trace s' = trace s) -> avoids p m.
Proof.
  intros H s r s' Hm. exists []. rewrite app_nil_r. split; [eauto|constructor].
Qed.

Lemma avoids_single {A} (m : M (run (host U) task_event) A) ev :
  p ev = false ->
  (forall s r s', m s = (r, s') -> trace s' = trace s ++ [ev]) -> avoids p m.
Proof.
  intros Hev H s r s' Hm. exists [ev]. split; [eauto|repeat constructor; exact Hev].
Qed.

Lemma avoids_ret {A} (a : A) : avoids (U := U) p (ret a).
Proof. apply avoids_silent. intros s r s' H. injection H as _ <-. reflexivity. Qed.

Lemma avoids_raise {A} e : avoids (U := U) p (raise (A := A) e).
Proof. apply avoids_silent. intros s r s' H. injection H as _ <-. reflexivity. Qed.

Lemma avoids_bind {A B} (m : M (run (host U) task_event) A)
    (k : A -> M (run (host U) task_event) B) :
  avoids p m -> (forall a, avoids p (k a)) -> avoids p (bind m k).
Proof.
  intros Hm Hk s r s' H. unfold bind in H.
  destruct (m s) as [[a|e] s1] eqn:Hms; destruct (Hm _ _ _ Hms) as (evs1 & Htr & H1).
  - destruct (Hk a _ _ _ H) as (evs2 & Htr2 & H2).
    exists (evs1 ++ evs2). rewrite app_assoc, <- Htr. split; [exact Htr2|].
    apply Forall_app; auto.
  - injection H as _ <-. eauto.
Qed.

Lemma avoids_try_except {A} (m : M (run (host U) task_event) A)
    (h : exn -> M (run (host U) task_event) A) :
  avoids p m -> (forall e, avoids p (h e)) -> avoids p (try_except m h).
Proof.
  intros Hm Hh s r s' H. unfold try_except in H.
  destruct (m s) as [[a|e] s1] eqn:Hms; destruct (Hm _ _ _ Hms) as (evs1 & Htr & H1).
  - injection H as _ <-. eauto.
  - destruct (Hh e _ _ _ H) as (evs2 & Htr2 & H2).
    exists (evs1 ++ evs2). rewrite app_assoc, <- Htr. split; [exact Htr2|].
    apply Forall_app; auto.
Qed.

Lemma avoids_try_finally {A} (m : M (run (host U) task_event) A)
    (c : M (run (host U) task_event) unit) :
  avoids p m -> avoids p c -> avoids p (try_finally m c).
Proof.
  intros Hm Hc s r s' H. unfold try_finally in H.
  destruct (m s) as [r1 s1] eqn:Hms. destruct (Hm _ _ _ Hms) as (evs1 & Htr & H1).
  destruct (c s1) as [[[]|e] s2] eqn:Hcs; destruct (Hc _ _ _ Hcs) as (evs2 & Htr2 & H2);
    injection H as _ <-; exists (evs1 ++ evs2); rewrite app_assoc, <- Htr;
    (split; [exact Htr2|apply Forall_app; auto]).
Qed.

Lemma avoids_outside_call {A} ev (op : extern U A) :
  p ev = false -> avoids p (outside_call ev op).
Proof.
  intros Hev. apply (avoids_single _ ev Hev). intros s r s' H. unfold outside_call in H.
  destruct (op (beyond (world s))). injection H as _ <-. reflexivity.
Qed.

Lemma avoids_emit ev : p ev = false -> avoids (U := U) p (emit ev).
Proof.
  intros Hev. apply (avoids_single _ ev Hev). intros s r s' H.
  injection H as _ <-. reflexivity.
Qed.

Lemma avoids_path_mkdir path : p (Mkdir path) = false -> avoids p (path_mkdir C path).
Proof.
  intros Hev. apply (avoids_single _ (Mkdir path) Hev). intros s r s' H.
  unfold path_mkdir in H.
  destruct (mkdir C path (beyond (world s))) as [[[]|e] u']; injection H as _ <-; reflexivity.
Qed.

Lemma avoids_shutil_rmtree path : p (Rmtree path) = false -> avoids p (shutil_rmtree C path).
Proof.
  intros Hev. apply (avoids_single _ (Rmtree path) Hev). intros s r s' H.
  unfold shutil_rmtree in H.
  destruct (rmtree C path (beyond (world s))) as [[[]|e] u']; injection H as _ <-; reflexivity.
Qed.

Lemma avoids_run_command command cwd :
  p (RunCommand command cwd) = false -> avoids p (_run_command C command cwd).
Proof.
  intros Hev. apply (avoids_single _ (RunCommand command cwd) Hev).
  intros s r s' H. injection H as _ <-. reflexivity.
Qed.

Lemma avoids_set_workspace path : avoids (U := U) p (set_workspace path).
Proof. apply avoids_silent. intros s r s' H. injection H as _ <-. reflexivity. Qed.

Lemma avoids_pop_workspace path : avoids (U := U) p (pop_workspace path).
Proof. apply avoids_silent. intros s r s' H. injection H as _ <-. reflexivity. Qed.

Lemma avoids_path_exists path : avoids (U := U) p (path_exists path).
Proof. apply avoids_silent. intros s r s' H. injection H as _ <-. reflexivity. Qed.

Lemma avoids_subscript_piece pieces i : avoids (U := U) p (subscript_piece pieces i).
Proof.
  unfold subscript_piece. destruct (py_index pieces i); [apply avoids_ret|apply avoids_raise].
Qed.

Lemma avoids_post_with_retry url payload n :
  (forall attempts, p (PostWithRetry url payload attempts) = false) ->
  avoids p (post_with_retry C url payload n).
Proof.
  intros Hev s r s' H. unfold post_with_retry in H.
  destruct (retry_with_backoff _ _ _ _ _ _) as [r1 s1].
  injection H as _ <-. eexists [_]. split; [reflexivity|repeat constructor; apply Hev].
Qed.

Lemma avoids_new_workspace : (forall id, p (Uuid4 id) = false) -> avoids p (new_workspace C).
Proof.
  intros Hev s r s' H. unfold new_workspace in H.
  destruct (uuid4 C (beyond (world s))) as [id u'].
  injection H as _ <-. eexists [_]. split; [reflexivity|repeat constructor; apply Hev].
Qed.

Lemma avoids_evaluator_evaluate_page url checks timeout :
  (forall calls, p (EvaluatePage url calls) = false) ->
  avoids p (evaluator_evaluate_page C url checks timeout).
Proof.
  intros Hev s r s' H. unfold evaluator_evaluate_page in H.
  destruct (evaluate_page _ _ _ _ _) as [r1 s1].
  injection H as _ <-. eexists [_]. split; [reflexivity|repeat constructor; apply Hev].
Qed.

Lemma avoids_now :
  p Now = false ->
  avoids p (fun s : run (host U) task_event =>
              let (t, u') := now C (beyond (world s)) in
              (Ok t, Run (Host (dirs (world s)) (workspaces (world s)) u') (trace s ++ [Now]))).
Proof.
  intros Hev. apply (avoids_single _ Now Hev). intros s r s' H.
  destruct (now C (beyond (world s))). injection H as _ <-. reflexivity.
Qed.
End avoids_facts.

Section avoids_pipeline.
Context {U : Type}.
Variable C : collaborators U.
Variable p : task_event -> bool.
Hypothesis p_beyond : forall ev,
  p ev = true -> is_table_access ev = true \/ is_round2_update ev = true.

Local Ltac quiet :=
  match goal with
  | |- p ?ev = false =>
      destruct (p ev) eqn:Hp;
      [apply p_beyond in Hp; destruct Hp as [Hp|Hp]; discriminate Hp|reflexivity]
  end.

Lemma avoids_create_workspace path : avoids p (create_workspace C path).
Proof.
  unfold create_workspace.
  apply avoids_try_except; [|intros; apply avoids_raise].
  repeat (apply avoids_bind; [|intros _]);
    first [apply avoids_path_mkdir; quiet | apply avoids_run_command; quiet
          | apply avoids_set_workspace | apply avoids_ret].
Qed.

Lemma avoids_cleanup_workspace path : avoids p (cleanup_workspace C path).
Proof.
  unfold cleanup_workspace.
  apply avoids_bind; [apply avoids_emit; quiet|intros _].
  apply avoids_try_except; [|intros; apply avoids_ret].
  unfold cleanup_workspace_try.
  apply avoids_bind; [apply avoids_path_exists|intros found].
  apply avoids_bind; [|intros _; apply avoids_pop_workspace].
  destruct found; [apply avoids_shutil_rmtree; quiet|apply avoids_ret].
Qed.

Lemma avoids_send_evaluation_callback task d :
  avoids p (_send_evaluation_callback C task d).
Proof.
  unfold _send_evaluation_callback. cbv zeta.
  destruct (String.eqb (evaluation_url task) ""); [apply avoids_ret|].
  apply avoids_try_except; [|intros; apply avoids_ret].
  apply avoids_bind; [|intros; apply avoids_ret].
  apply avoids_post_with_retry. intros attempts. quiet.
Qed.

Lemma avoids_deploy_application task files : avoids p (_deploy_application C task files).
Proof.
  unfold _deploy_application. cbv zeta.
  apply avoids_bind; [apply avoids_outside_call; quiet|intros d].
  apply avoids_bind; [apply avoids_send_evaluation_callback|intros; apply avoids_ret].
Qed.

Lemma avoids_act_phase_try task pl id path : avoids p (_act_phase_try C task pl id path).
Proof.
  unfold _act_phase_try. cbv zeta.
  apply avoids_bind; [apply avoids_create_workspace|intros _].
  apply avoids_bind; [apply avoids_outside_call; quiet|intros files].
  apply avoids_bind; [apply avoids_outside_call; quiet|intros explanation].
  apply avoids_bind; [apply avoids_deploy_application|intros d].
  apply avoids_bind; [apply avoids_outside_call; quiet|intros; apply avoids_ret].
Qed.

Lemma avoids_act_phase task pl : avoids p (_act_phase C task pl).
Proof.
  unfold _act_phase. cbv zeta.
  apply avoids_bind; [apply avoids_new_workspace; intros; quiet|intros id].
  apply avoids_try_finally; [apply avoids_act_phase_try|apply avoids_cleanup_workspace].
Qed.

Lemma avoids_process_round2_task task url :
  (forall ev, is_round2_update ev = true -> p ev = false) ->
  avoids p (process_round2_task C task url).
Proof.
  intros Hupdate. unfold process_round2_task. cbv zeta.
  apply avoids_bind; [apply avoids_new_workspace; intros; quiet|intros id].
  apply avoids_try_finally; [|apply avoids_cleanup_workspace].
  unfold process_round2_task_try. cbv zeta.
  apply avoids_bind; [apply avoids_create_workspace|intros _].
  apply avoids_bind; [apply avoids_outside_call; apply Hupdate; reflexivity|intros files].
  apply avoids_bind; [apply avoids_outside_call; quiet|intros explanation].
  apply avoids_bind; [apply avoids_outside_call; quiet|intros sha].
  apply avoids_bind; [apply avoids_subscript_piece|intros owner].
  apply avoids_bind; [apply avoids_subscript_piece|intros repo].
  apply avoids_bind; [apply avoids_send_evaluation_callback|intros; apply avoids_ret].
Qed.

Lemma avoids_loads_or {A} text (parsed fallback : A) :
  avoids p (loads_or C text parsed fallback).
Proof.
  unfold loads_or. destruct (json_loads C text) as [[]|e]; [apply avoids_ret|].
  destruct (is_json_decode_error e); [apply avoids_ret|apply avoids_raise].
Qed.

Lemma avoids_think_phase task : avoids p (_think_phase C task).
Proof.
  unfold _think_phase. cbv zeta.
  apply avoids_bind; [apply avoids_outside_call; quiet|intros text].
  apply avoids_loads_or.
Qed.

Lemma avoids_plan_phase task a : avoids p (_plan_phase C task a).
Proof.
  unfold _plan_phase. cbv zeta.
  apply avoids_bind; [apply avoids_outside_call; quiet|intros text].
  apply avoids_loads_or.
Qed.

Lemma avoids_run_quality_checks result task : avoids p (_run_quality_checks C result task).
Proof.
  unfold _run_quality_checks.
  apply avoids_try_except; [|intros; apply avoids_ret].
  unfold _run_quality_checks_try, with_evaluator.
  apply avoids_bind; [apply avoids_outside_call; quiet|intros _].
  apply avoids_try_finally; [|apply avoids_outside_call; quiet].
  apply avoids_bind; [|intros; apply avoids_ret].
  apply avoids_evaluator_evaluate_page. intros calls. quiet.
Qed.

Lemma avoids_review_phase task result : avoids p (_review_phase C task result).
Proof.
  unfold _review_phase.
  apply avoids_bind; [apply avoids_run_quality_checks|intros qc].
  apply avoids_bind; [apply avoids_now; quiet|intros; apply avoids_ret].
Qed.

Lemma avoids_process_task task : avoids p (process_task C task).
Proof.
  unfold process_task.
  apply avoids_try_except; [|intros; apply avoids_raise].
  apply avoids_bind; [apply avoids_think_phase|intros a].
  apply avoids_bind; [apply avoids_plan_phase|intros pl].
  apply avoids_bind; [apply avoids_act_phase|intros result].
  apply avoids_bind; [apply avoids_review_phase|intros; apply avoids_ret].
Qed.

(** The task table is written by [process_autonomous_task] only: the
    orchestrator does not touch it. *)
Lemma avoids_process_by_round task :
  (forall t r, p (GetTaskByTaskIdAndRound t r) = false) ->
  (forall ev, is_round2_update ev = true -> p ev = false) ->
  avoids p (process_by_round C task).
Proof.
  intros Hlookup Hupdate. unfold process_by_round. cbv zeta.
  destruct (round task =? 2).
  - apply avoids_bind; [apply avoids_outside_call; apply Hlookup|intros existing].
    destruct (resolved_repo_url existing).
    + apply avoids_bind;
        [apply avoids_process_round2_task; exact Hupdate|intros; apply avoids_ret].
    + apply avoids_bind; [apply avoids_process_task|intros; apply avoids_ret].
  - apply avoids_bind; [apply avoids_process_task|intros; apply avoids_ret].
Qed.
End avoids_pipeline.

Lemma outside_call_ok {U A} ev (op : extern U A) (s : run (host U) task_event) :
  is_ok (fst (op (beyond (world s)))) = true ->
  exists a u',
    outside_call ev op s
    = (Ok a, Run (Host (dirs (world s)) (workspaces (world s)) u') (trace s ++ [ev])).
Proof.
  intros Hok. unfold outside_call.
  destruct (op (beyond (world s))) as [[a|e] u']; [eauto|discriminate].
Qed.

(** ** src/api/routes.py: the status of a task *)

(** X2. When the writes to the task table succeed, [process_autonomous_task]
    never raises, and what it writes follows the outcome of the processing.
    It first writes the status ["processing"], then processes the task by its
    round, which writes no status; when the processing returns, it stores the
    deployment, if there is one, and writes the status ["completed"]; when
    the processing raises [e], it writes the status ["failed"] and then the
    error message [str e], of that exception. *)
Theorem process_autonomous_task_status {U : Type} (C : collaborators U)
    (id : Z) (email : string) (task : task_data) (s : run (host U) task_event) :
  (forall i st u, is_ok (fst (update_task_status C i st u)) = true) ->
  (forall i msg u, is_ok (fst (update_task_error C i msg u)) = true) ->
  (forall i a b u, is_ok (fst (update_task_deployment C i a b u)) = true) ->
  exists u1 r s2 mid s',
    update_task_status C id "processing" (beyond (world s)) = (Ok tt, u1)
    /\ process_by_round C task
         (Run (Host (dirs (world s)) (workspaces (world s)) u1)
            (trace s ++ [UpdateTaskStatus id "processing"]))
       = (r, s2)
    /\ trace s2 = trace s ++ [UpdateTaskStatus id "processing"] ++ mid
    /\ Forall (fun ev => is_status_update ev = false) mid
    /\ process_autonomous_task C id email task s = (Ok tt, s')
    /\ trace s' = trace s2 ++ closing_writes id r.
Proof.
  intros Hst Herr Hdep.
  unfold process_autonomous_task, try_except, bind at 1.
  destruct (outside_call_ok (UpdateTaskStatus id "processing")
              (update_task_status C id "processing") s (Hst _ _ _)) as ([] & u1 & Hfirst).
  rewrite Hfirst.
  assert (Hu1 : update_task_status C id "processing" (beyond (world s)) = (Ok tt, u1)).
  { unfold outside_call in Hfirst.
    destruct (update_task_status C id "processing" (beyond (world s))) as [[[]|e] u'];
      [injection Hfirst as <-; reflexivity|discriminate Hfirst]. }
  cbv beta. unfold bind at 1.
  match goal with |- context [process_by_round C task ?s1] => set (s1' := s1) end.
  destruct (process_by_round C task s1') as [r1 s2] eqn:Hround.
  assert (Hsub : forall ev, is_status_update ev = true ->
                            is_table_access ev = true \/ is_round2_update ev = true)
    by (intros []; auto).
  destruct (avoids_process_by_round C is_status_update Hsub task (fun _ _ => eq_refl)
              ltac:(intros []; auto) _ _ _ Hround) as (evs & Htr & Hquiet).
  exists u1, r1, s2, evs.
  assert (Htr2 : trace s2 = trace s ++ [UpdateTaskStatus id "processing"] ++ evs).
  { rewrite Htr. subst s1'. cbn [trace]. rewrite <- app_assoc. reflexivity. }
  destruct r1 as [result|e]; cbn [closing_writes].
  - unfold bind at 1.
    destruct (get_deployment result) as [d|].
    + destruct (outside_call_ok (UpdateTaskDeployment id (repo_url d) (pages_url d))
                  (update_task_deployment C id (repo_url d) (pages_url d)) s2 (Hdep _ _ _ _))
        as ([] & u3 & ->).
      cbv beta.
      match goal with |- context [outside_call ?ev ?op ?s3] =>
        destruct (outside_call_ok ev op s3 (Hst _ _ _)) as ([] & u4 & ->) end.
      eexists. repeat split; auto. cbn [trace]. rewrite <- app_assoc. reflexivity.
    + unfold ret at 1. cbv beta.
      match goal with |- context [outside_call ?ev ?op ?s3] =>
        destruct (outside_call_ok ev op s3 (Hst _ _ _)) as ([] & u4 & ->) end.
      eexists. repeat split; auto.
  - unfold bind at 1.
    destruct (outside_call_ok (UpdateTaskStatus id "failed")
                (update_task_status C id "failed") s2 (Hst _ _ _)) as ([] & u3 & ->).
    cbv beta.
    match goal with |- context [outside_call ?ev ?op ?s3] =>
      destruct (outside_call_ok ev op s3 (Herr _ _ _)) as ([] & u4 & ->) end.
    eexists. repeat split; auto. cbn [trace]. rewrite <- app_assoc. reflexivity.
Qed.

Lemma process_autonomous_task_status_witness :
  let C := lab (Ok tt) (Ok tt) None in
  let s := start (Host ∅ ∅ 0%nat) in
  (forall i st u, is_ok (fst (update_task_status C i st u)) = true)
  /\ exists u1 r s2 mid s',
      update_task_status C 7 "processing" (beyond (world s)) = (Ok tt, u1)
      /\ process_by_round C (sample_task 1)
           (Run (Host (dirs (world s)) (workspaces (world s)) u1)
              (trace s ++ [UpdateTaskStatus 7 "processing"]))
         = (r, s2)
      /\ trace s2 = trace s ++ [UpdateTaskStatus 7 "processing"] ++ mid
      /\ Forall (fun ev => is_status_update ev = false) mid
      /\ process_autonomous_task C 7 "student@example.com" (sample_task 1) s = (Ok tt, s')
      /\ trace s' = trace s2 ++ closing_writes 7 r.
Proof.
  cbv zeta. split; [reflexivity|].
  apply (process_autonomous_task_status (lab (Ok tt) (Ok tt) None) 7 "student@example.com"
           (sample_task 1) (start (Host ∅ ∅ 0%nat))); reflexivity.
Defined.

(** ** src/agent/orchestrator.py: callback and deployment *)

(** X3. [_send_evaluation_callback] never raises and leaves the workspaces
    alone.  Without an evaluation URL it does nothing at all; with one it
    runs the retrier once, which posts the payload between one and five
    times. *)
Theorem send_evaluation_callback_never_raises {U : Type} (C : collaborators U)
    (task : task_data) (d : deployment_result) (s : run (host U) task_event) :
  exists s',
    _send_evaluation_callback C task d s = (Ok tt, s')
    /\ dirs (world s') = dirs (world s)
    /\ workspaces (world s') = workspaces (world s)
    /\ (evaluation_url task = "" -> s' = s)
    /\ (evaluation_url task <> "" ->
        exists attempts,
          trace s' = trace s ++ [PostWithRetry (evaluation_url task)
                                   (Payload (email task) (task_id task) (round task)
                                      (nonce task) (repo_url d) (commit_sha d) (pages_url d))
                                   attempts]
          /\ (1 <= length (invocations attempts) <= 5)%nat).
Proof.
  unfold _send_evaluation_callback. cbv zeta.
  destruct (String.eqb (evaluation_url task) "") eqn:Hurl.
  - apply String.eqb_eq in Hurl. exists s. repeat split; auto. congruence.
  - apply String.eqb_neq in Hurl.
    unfold try_except, bind, post_with_retry.
    set (payload := Payload _ _ _ _ _ _ _).
    destruct (retry_with_backoff_spec (http_post C (evaluation_url task) payload) 5 1 60 2
                (start (beyond (world s))) ltac:(lia))
      as (pre & k & r & w' & Heq & _ & Hk & _ & Hlen).
    rewrite Heq. cbn [start trace app world].
    destruct r as [code|e]; eexists; (split; [reflexivity|]); cbn [world dirs workspaces trace];
      (repeat split; [congruence|]); intros _; eexists; (split; [reflexivity|]);
      rewrite Hlen; lia.
Qed.

Lemma send_evaluation_callback_never_raises_witness :
  let C := lab (Ok tt) (Ok tt) None in
  let d := Deployment "https://github.com/user/sales" "abc123"
             "https://user.github.io/sales/" in
  evaluation_url (sample_task 1) <> ""
  /\ exists s' attempts,
      _send_evaluation_callback C (sample_task 1) d (start (Host ∅ ∅ 0%nat)) = (Ok tt, s')
      /\ trace s' = [] ++ [PostWithRetry "https://example.com/notify"
                             (Payload "student@example.com" "sales" 1 "n-42"
                                "https://github.com/user/sales" "abc123"
                                "https://user.github.io/sales/") attempts]
      /\ (1 <= length (invocations attempts) <= 5)%nat.
Proof.
  cbv zeta. split; [discriminate|].
  destruct (send_evaluation_callback_never_raises (lab (Ok tt) (Ok tt) None) (sample_task 1)
              (Deployment "https://github.com/user/sales" "abc123"
                 "https://user.github.io/sales/") (start (Host ∅ ∅ 0%nat)))
    as (s' & Hrun & _ & _ & _ & Hposts).
  destruct (Hposts ltac:(discriminate)) as (attempts & Htr & Hlen).
  exists s', attempts. auto.
Defined.

(** X4. The outcome of [_deploy_application] is the outcome of the hosting
    service: when the deployment raises, the exception is passed on and no
    callback is sent; when it answers, its answer is returned whatever
    becomes of the callback. *)
Theorem deploy_application_outcome {U : Type} (C : collaborators U)
    (task : task_data) (files : dict string) (s : run (host U) task_event) :
  let description := take_chars 100 (brief task) in
  let called := DeployApplication (task_id task) files description in
  forall outcome u',
    deploy_application C (task_id task) files description (beyond (world s)) = (outcome, u') ->
    match outcome with
    | Raise e =>
        _deploy_application C task files s
        = (Raise e, Run (Host (dirs (world s)) (workspaces (world s)) u')
                      (trace s ++ [called]))
    | Ok d =>
        exists s' evs,
          _deploy_application C task files s = (Ok d, s')
          /\ trace s' = trace s ++ called :: evs
          /\ (length evs <= 1)%nat
    end.
Proof.
  intros description called outcome u' Hdeploy.
  destruct outcome as [d|e];
    unfold _deploy_application; cbv zeta; fold description; fold called;
    unfold bind at 1, outside_call; rewrite Hdeploy; [|reflexivity].
  cbv beta. unfold bind, ret.
  match goal with |- context [_send_evaluation_callback C task d ?s1] =>
    destruct (send_evaluation_callback_never_raises C task d s1)
      as (s' & Hrun & _ & _ & Hnone & Hsome) end.
  rewrite Hrun.
  destruct (decide (evaluation_url task = "")) as [Hurl|Hurl].
  - rewrite (Hnone Hurl). eexists _, []. split; [reflexivity|]. split; [reflexivity|cbn; lia].
  - destruct (Hsome Hurl) as (attempts & Htr & _).
    eexists _, [_]. split; [reflexivity|]. split; [|cbn; lia].
    rewrite Htr. cbn [trace]. rewrite <- app_assoc. reflexivity.
Qed.

Lemma deploy_application_outcome_witness :
  let C := lab (Ok tt) (Ok tt) None in
  let d := Deployment "https://github.com/user/sales" "abc123"
             "https://user.github.io/sales/" in
  deploy_application C "sales" [("index.html", "<html>")] "Show the total of sales" 0%nat
  = (Ok d, 1%nat)
  /\ exists s' evs,
      _deploy_application C (sample_task 1) [("index.html", "<html>")]
        (start (Host ∅ ∅ 0%nat)) = (Ok d, s')
      /\ trace s' = [] ++ DeployApplication "sales" [("index.html", "<html>")]
                            "Show the total of sales" :: evs
      /\ (length evs <= 1)%nat.
Proof.
  cbv zeta. split; [reflexivity|].
  apply (deploy_application_outcome (lab (Ok tt) (Ok tt) None) (sample_task 1)
           [("index.html", "<html>")] (start (Host ∅ ∅ 0%nat))
           (Ok (Deployment "https://github.com/user/sales" "abc123"
                  "https://user.github.io/sales/")) 1%nat eq_refl).
Defined.

(** ** src/agent/orchestrator.py: the Review phase, continued *)

Lemma scored_bounds n r : scored n r -> (0 <= score r <= 1)%Q.
Proof.
  intros (_ & Hlen & Hzero & Hscore).
  destruct (decide (n = 0%nat)) as [Hn|Hn].
  - rewrite (Hzero Hn). split; [apply Qle_refl|discriminate].
  - rewrite (Hscore Hn). apply ratio_bounds; lia.
Qed.

(** The dict of [_run_quality_checks]: it is always returned, with a score
    between 0 and 1 and at most as many verdicts as the task has checks. *)
Lemma run_quality_checks_spec {U} (C : collaborators U) result task s :
  exists qc s',
    _run_quality_checks C result task s = (Ok qc, s')
    /\ (0 <= overall_score qc <= 1)%Q
    /\ (length (quality_passed qc) + length (quality_failed qc)
        <= length (checks task))%nat.
Proof.
  unfold _run_quality_checks, try_except, _run_quality_checks_try, with_evaluator.
  unfold bind at 1, outside_call.
  destruct (browser_start C (beyond (world s))) as [[[]|e] u1].
  2:{ eexists _, _. split; [reflexivity|]. cbn. split; [split; discriminate|lia]. }
  unfold try_finally, bind at 1, evaluator_evaluate_page.
  cbn [world beyond dirs workspaces trace].
  destruct (evaluate_page_scored (browser_page C) (pages_url (deployment result))
              (checks task) 30000 (start u1)) as (r & s1 & Heval & Hscored).
  rewrite Heval. unfold ret at 1. cbn [world beyond dirs workspaces trace].
  destruct (browser_stop C (world s1)) as [[[]|e] u2].
  - eexists _, _. split; [reflexivity|]. cbn [overall_score quality_passed quality_failed].
    split; [exact (scored_bounds _ _ Hscored)|].
    rewrite length_map. destruct Hscored as (_ & Hlen & _). exact Hlen.
  - eexists _, _. split; [reflexivity|]. cbn. split; [split; discriminate|lia].
Qed.

(** X5. The Review phase never raises.  Its report carries the identifier and
    the deployment of the task, a score between 0 and 1, and lists of passed
    and failed checks that together have at most as many entries as the task
    has checks. *)
Theorem review_phase_always_reports {U : Type} (C : collaborators U)
    (task : task_data) (result : act_result) (s : run (host U) task_event) :
  exists report s',
    _review_phase C task result s = (Ok report, s')
    /\ report_task_id report = task_id task
    /\ report_deployment report = Some (deployment result)
    /\ (0 <= quality_score report <= 1)%Q
    /\ (length (report_checks_passed report) + length (report_checks_failed report)
        <= length (checks task))%nat.
Proof.
  destruct (run_quality_checks_spec C result task s) as (qc & s1 & Hqc & Hscore & Hlen).
  unfold _review_phase, bind at 1. rewrite Hqc.
  unfold bind, ret. destruct (now C (beyond (world s1))) as [t u'].
  eexists _, _. split; [reflexivity|]. cbn. auto.
Qed.

(** ** src/agent/orchestrator.py: the order of the phases *)

Lemma new_workspace_first {U A} (C : collaborators U)
    (k : string -> M (run (host U) task_event) A) s r s' :
  (forall id, avoids (fun _ => false) (k id)) ->
  bind (new_workspace C) k s = (r, s') ->
  exists id evs, trace s' = trace s ++ Uuid4 id :: evs.
Proof.
  intros Hk H. unfold bind in H.
  destruct (new_workspace_spec C s) as (id & s1 & Hnew & Htr). rewrite Hnew in H.
  destruct (Hk id _ _ _ H) as (evs & Htr' & _).
  exists id, evs. rewrite Htr', Htr, <- app_assoc. reflexivity.
Qed.

(** X6. [process_task] runs Think, Plan and Act in this order, and an answer
    of the model that is not JSON ([JSONDecodeError]) does not stop it: the
    phase goes on with its fallback.  When the call of the model in Think
    raises, or [json.loads] raises something else than [JSONDecodeError] on
    its answer, [process_task] raises the same exception and nothing else
    has happened; likewise in Plan, after the two calls of the model.
    Otherwise the Act phase starts: the next call draws the identifier of
    the workspace. *)
Theorem process_task_phases {U : Type} (C : collaborators U) (task : task_data)
    (s : run (host U) task_event) :
  forall o1 u1,
    llm_generate C (think_request C task) (beyond (world s)) = (o1, u1) ->
    let s1 := Run (Host (dirs (world s)) (workspaces (world s)) u1)
                (trace s ++ [Generate (think_request C task)]) in
    match o1 with
    | Raise e => process_task C task s = (Raise e, s1)
    | Ok text1 =>
        match analysis_of C task text1 with
        | Raise e => process_task C task s = (Raise e, s1)
        | Ok a =>
            let req2 := plan_request C a task in
            forall o2 u2,
              llm_generate C req2 u1 = (o2, u2) ->
              let s2 := Run (Host (dirs (world s)) (workspaces (world s)) u2)
                          (trace s ++ [Generate (think_request C task); Generate req2]) in
              match o2 with
              | Raise e => process_task C task s = (Raise e, s2)
              | Ok text2 =>
                  match plan_of C text2 with
                  | Raise e => process_task C task s = (Raise e, s2)
                  | Ok pl =>
                      exists r s' id evs,
                        process_task C task s = (r, s')
                        /\ trace s' = trace s2 ++ [Uuid4 id] ++ evs
                  end
              end
        end
    end.
Proof.
  intros o1 u1 H1 s1.
  assert (Hfalse : forall ev : task_event,
             false = true -> is_table_access ev = true \/ is_round2_update ev = true)
    by discriminate.
  assert (Hthink : _think_phase C task s
                   = (match o1 with
                      | Ok text1 => analysis_of C task text1
                      | Raise e => Raise e
                      end, s1)).
  { unfold _think_phase. cbv zeta. fold (think_request C task).
    unfold bind, outside_call. rewrite H1. fold s1.
    destruct o1 as [text1|e]; [|reflexivity].
    unfold loads_or, analysis_of, loaded.
    destruct (json_loads C text1) as [[]|e]; [reflexivity|].
    destruct (is_json_decode_error e); reflexivity. }
  destruct o1 as [text1|e].
  2:{ unfold process_task, try_except, bind at 1. rewrite Hthink. reflexivity. }
  destruct (analysis_of C task text1) as [a|e].
  2:{ unfold process_task, try_except, bind at 1. rewrite Hthink. reflexivity. }
  intros req2 o2 u2 H2 s2.
  assert (Hplan : _plan_phase C task a s1
                  = (match o2 with
                     | Ok text2 => plan_of C text2
                     | Raise e => Raise e
                     end, s2)).
  { unfold _plan_phase. cbv zeta. fold (plan_request C a task). fold req2.
    unfold bind, outside_call. subst s1. cbn [world beyond dirs workspaces trace].
    rewrite H2, <- app_assoc. fold s2.
    destruct o2 as [text2|e]; [|reflexivity].
    unfold loads_or, plan_of, loaded.
    destruct (json_loads C text2) as [[]|e]; [reflexivity|].
    destruct (is_json_decode_error e); reflexivity. }
  destruct o2 as [text2|e].
  2:{ unfold process_task, try_except, bind at 1. rewrite Hthink.
      unfold bind at 1. rewrite Hplan. reflexivity. }
  destruct (plan_of C text2) as [pl|e].
  2:{ unfold process_task, try_except, bind at 1. rewrite Hthink.
      unfold bind at 1. rewrite Hplan. reflexivity. }
  unfold process_task, try_except, bind at 1. rewrite Hthink.
  unfold bind at 1. rewrite Hplan. unfold bind at 1.
  destruct (_act_phase C task pl s2) as [ra s3] eqn:Hact.
  unfold _act_phase in Hact. cbv zeta in Hact.
  apply new_workspace_first in Hact as (id & evs1 & Htr3).
  2:{ intros id. apply avoids_try_finally;
        [apply avoids_act_phase_try|apply avoids_cleanup_workspace]; exact Hfalse. }
  destruct ra as [result|e].
  - unfold bind.
    destruct (_review_phase C task result s3) as [rr s4] eqn:Hreview.
    destruct (avoids_review_phase C _ Hfalse task result _ _ _ Hreview) as (evs2 & Htr4 & _).
    destruct rr as [report|e]; eexists _, s4, id, (evs1 ++ evs2);
      (split; [reflexivity|]); rewrite Htr4, Htr3, <- !app_assoc; reflexivity.
  - eexists _, s3, id, evs1. split; [reflexivity|].
    rewrite Htr3. reflexivity.
Qed.

Lemma process_task_phases_witness :
  let C := lab (Ok tt) (Ok tt) None in
  let task := sample_task 1 in
  let s := start (Host ∅ ∅ 0%nat) in
  let req2 := plan_request C (DefaultAnalysis (take 2 (checks task))) task in
  llm_generate C (think_request C task) 0%nat = (Ok "not json", 1%nat)
  /\ analysis_of C task "not json" = Ok (DefaultAnalysis (take 2 (checks task)))
  /\ llm_generate C req2 1%nat = (Ok "not json", 2%nat)
  /\ plan_of C "not json" = Ok DefaultPlan
  /\ exists r s' id evs,
      process_task C task s = (r, s')
      /\ trace s'
         = trace (Run (Host (dirs (world s)) (workspaces (world s)) 2%nat)
                    (trace s ++ [Generate (think_request C task); Generate req2]))
           ++ [Uuid4 id] ++ evs.
Proof.
  cbv zeta. split; [reflexivity|]. split; [reflexivity|]. split; [reflexivity|].
  split; [reflexivity|].
  apply (process_task_phases (lab (Ok tt) (Ok tt) None) (sample_task 1)
           (start (Host ∅ ∅ 0%nat)) (Ok "not json") 1%nat eq_refl (Ok "not json") 2%nat
           eq_refl).
Defined.

(** X7. Only round 2 looks for an earlier round.  A task of any other round
    (1, 3, 4, ...) is processed by [process_task] as a new task, and its
    processing makes no call on the task table. *)
Theorem process_by_round_other_rounds {U : Type} (C : collaborators U) (task : task_data)
    (s : run (host U) task_event) :
  round task <> 2 ->
  exists r s' evs,
    process_task C task s = (r, s')
    /\ process_by_round C task s
       = (match r with Ok report => Ok (Report report) | Raise e => Raise e end, s')
    /\ trace s' = trace s ++ evs
    /\ Forall (fun ev => is_table_access ev = false) evs.
Proof.
  intros Hround.
  destruct (process_task C task s) as [r s'] eqn:Hrun.
  destruct (avoids_process_task C is_table_access (fun _ H => or_introl H) task _ _ _ Hrun)
    as (evs & Htr & Hquiet).
  exists r, s', evs. split; [reflexivity|]. split; [|auto].
  unfold process_by_round. cbv zeta. apply Z.eqb_neq in Hround. rewrite Hround.
  unfold bind. rewrite Hrun. destruct r; reflexivity.
Qed.

Lemma process_by_round_other_rounds_witness :
  round (sample_task 3) <> 2
  /\ exists r s' evs,
      process_task (lab (Ok tt) (Ok tt) None) (sample_task 3) (start (Host ∅ ∅ 0%nat))
      = (r, s')
      /\ process_by_round (lab (Ok tt) (Ok tt) None) (sample_task 3) (start (Host ∅ ∅ 0%nat))
         = (match r with Ok report => Ok (Report report) | Raise e => Raise e end, s')
      /\ trace s' = [] ++ evs
      /\ Forall (fun ev => is_table_access ev = false) evs.
Proof.
  split; [discriminate|].
  apply (process_by_round_other_rounds (lab (Ok tt) (Ok tt) None) (sample_task 3)
           (start (Host ∅ ∅ 0%nat))). discriminate.
Defined.

(** ** src/agent/tools.py: workspaces *)

Lemma add_remove_dir (path : string) (D : gset string) :
  path ∉ D -> ({[path]} ∪ D) ∖ {[path]} = D.
Proof.
  intros Hfresh. apply set_eq. intros x.
  rewrite elem_of_difference, elem_of_union, elem_of_singleton.
  split; [intros [[->|Hx] Hne]; [contradiction|exact Hx]|].
  intros Hx. split; [right; exact Hx|]. intros ->. contradiction.
Qed.

Lemma removed_dir (path : string) (D : gset string) : path ∉ D ∖ {[path]}.
Proof.
  intros Hbad. apply elem_of_difference in Hbad as [_ Hbad].
  apply Hbad, elem_of_singleton. reflexivity.
Qed.

Lemma added_dir (path : string) (D : gset string) : path ∈ {[path]} ∪ D.
Proof. apply elem_of_union_l, elem_of_singleton. reflexivity. Qed.

(** X8. Creating a workspace and cleaning it up is a round trip.  When the
    directory can be made, [create_workspace] returns the path, after which
    the directory exists and the path is tracked; when it can be removed,
    [cleanup_workspace] then leaves neither the directory nor the tracking
    entry, so that the disk and the tracking dict are as they were before if
    the path was not in use. *)
Theorem create_then_cleanup_workspace {U : Type} (C : collaborators U) (path : string)
    (s : run (host U) task_event) :
  (forall u, is_ok (fst (mkdir C path u)) = true) ->
  (forall u, is_ok (fst (rmtree C path u)) = true) ->
  exists s1 s2,
    create_workspace C path s = (Ok path, s1)
    /\ (path ∈ dirs (world s1))
    /\ workspaces (world s1) !! path = Some path
    /\ cleanup_workspace C path s1 = (Ok tt, s2)
    /\ (path ∉ dirs (world s2))
    /\ workspaces (world s2) !! path = None
    /\ ((path ∉ dirs (world s)) -> workspaces (world s) !! path = None ->
        dirs (world s2) = dirs (world s) /\ workspaces (world s2) = workspaces (world s)).
Proof.
  intros Hmk Hrm.
  unfold create_workspace, try_except, bind at 1, path_mkdir.
  specialize (Hmk (beyond (world s))).
  destruct (mkdir C path (beyond (world s))) as [[[]|e] u1]; [|discriminate].
  unfold bind, _run_command, set_workspace, ret. cbn [world dirs workspaces beyond trace].
  set (u1' := run_command C _ path (run_command C _ path (run_command C _ path u1))).
  specialize (Hrm u1').
  destruct (rmtree C path u1') as [[[]|e] u2] eqn:Hrmtree; [|discriminate].
  eexists _, _. split; [reflexivity|]. cbn [world dirs workspaces beyond trace].
  split; [apply added_dir|]. split; [apply lookup_insert_eq|].
  unfold cleanup_workspace, bind at 1, emit, try_except, cleanup_workspace_try.
  unfold bind at 1, path_exists. cbn [world dirs workspaces beyond trace].
  rewrite bool_decide_eq_true_2 by apply added_dir.
  unfold bind, shutil_rmtree, pop_workspace. cbn [world dirs workspaces beyond trace].
  rewrite Hrmtree. cbn [world dirs workspaces beyond trace].
  split; [reflexivity|]. split; [apply removed_dir|]. split; [apply lookup_delete_eq|].
  intros Hfresh Huntracked. split; [apply add_remove_dir; exact Hfresh|].
  rewrite delete_insert_eq. apply delete_id. exact Huntracked.
Qed.

Lemma create_then_cleanup_workspace_witness :
  let C := lab (Ok tt) (Ok tt) None in
  (forall u, is_ok (fst (mkdir C "/tmp/workspace_0001" u)) = true)
  /\ (forall u, is_ok (fst (rmtree C "/tmp/workspace_0001" u)) = true)
  /\ exists s1 s2,
      create_workspace C "/tmp/workspace_0001" (start (Host ∅ ∅ 0%nat))
      = (Ok "/tmp/workspace_0001", s1)
      /\ cleanup_workspace C "/tmp/workspace_0001" s1 = (Ok tt, s2)
      /\ dirs (world s2) = ∅ /\ workspaces (world s2) = ∅.
Proof.
  cbv zeta. split; [reflexivity|]. split; [reflexivity|].
  destruct (create_then_cleanup_workspace (lab (Ok tt) (Ok tt) None) "/tmp/workspace_0001"
              (start (Host ∅ ∅ 0%nat)) (fun _ => eq_refl) (fun _ => eq_refl))
    as (s1 & s2 & Hcreate & _ & _ & Hclean & _ & _ & Hback).
  exists s1, s2. split; [exact Hcreate|]. split; [exact Hclean|].
  apply Hback; [apply not_elem_of_empty|apply lookup_empty].
Defined.

(** ** src/agent/evaluator.py: the verdicts *)

Section verdict_facts.
Context {W : Type}.
Variable pw : playwright W.

(** The loop over the checks gives each check one verdict, in order. *)
Lemma run_checks_partition checks : forall s,
  exists s' ps fs,
    run_checks pw checks s = (Ok tt, s')
    /\ results (world s')
       = Evaluation (url (results (world s))) (checks_passed (results (world s)) ++ ps)
           (checks_failed (results (world s)) ++ fs) (total_checks (results (world s)))
           (score (results (world s))) (screenshot (results (world s)))
           (errors (results (world s)))
    /\ ps ++ map check fs ≡ₚ checks
    /\ sublist ps checks
    /\ sublist (map check fs) checks.
Proof.
  induction checks as [|c checks IH]; intros s.
  - exists s, [], []. split; [reflexivity|]. rewrite !app_nil_r.
    destruct (results (world s)). repeat split; constructor.
  - cbn [run_checks]. unfold bind at 1.
    destruct (run_check_never_raises pw c s) as (cr & s1 & Hc). rewrite Hc.
    pose proof (keeps_run_check pw c _ _ _ Hc) as Hkeep.
    unfold bind.
    destruct (passed cr).
    + unfold update_results at 1.
      destruct (IH (Run (Evaluating (browser_world (world s1))
                           (append_passed c (results (world s1)))) (trace s1)))
        as (s' & ps & fs & Hrun & Hr & Hperm & Hps & Hfs).
      exists s', (c :: ps), fs. split; [exact Hrun|].
      cbn [world results] in Hr. rewrite Hkeep in Hr.
      split; [rewrite Hr; cbn; rewrite <- app_assoc; reflexivity|].
      split; [cbn; constructor; exact Hperm|].
      split; [apply sublist_skip; exact Hps|apply sublist_cons; exact Hfs].
    + unfold update_results at 1.
      set (f := FailedCheck c (get_reason cr)).
      destruct (IH (Run (Evaluating (browser_world (world s1))
                           (append_failed f (results (world s1)))) (trace s1)))
        as (s' & ps & fs & Hrun & Hr & Hperm & Hps & Hfs).
      exists s', ps, (f :: fs). split; [exact Hrun|].
      cbn [world results] in Hr. rewrite Hkeep in Hr.
      split; [rewrite Hr; cbn; rewrite <- app_assoc; reflexivity|].
      split; [cbn [map check]; rewrite <- Permutation_middle; constructor; exact Hperm|].
      split; [apply sublist_cons; exact Hps|apply sublist_skip; exact Hfs].
Qed.

Variables (pages_url : string) (checks : list string) (timeout : Z).

Local Abbreviation fresh :=
  (Evaluation pages_url [] [] (Z.of_nat (length checks)) 0 None []).

(** The block of the outer [try], from the initial [results]: when it
    returns early an error has been recorded, and when it reaches its end no
    error has been recorded and every check has its verdict. *)
Lemma evaluate_page_try_verdicts w tr x s' :
  evaluate_page_try pw pages_url checks timeout (Run (Evaluating w fresh) tr) = (x, s') ->
  match x with
  | Raise _ => True
  | Ok (Return r) => r = results (world s') /\ errors r <> []
  | Ok (FallThrough _) => classifies checks (results (world s'))
  end.
Proof.
  unfold evaluate_page_try, bind at 1, call at 1. cbn [world browser_world results trace].
  destruct (new_page pw w) as [[[]|e] w1].
  2:{ intros H. injection H as <- <-. exact I. }
  unfold bind at 1, navigate, try_except at 1, bind at 1, call at 1.
  cbn [world browser_world results trace].
  destruct (goto pw pages_url timeout w1) as [[response|e] w2].
  2:{ cbn. intros H. injection H as <- <-. cbn. split; [reflexivity|discriminate]. }
  destruct (bad_response response).
  { cbn. intros H. injection H as <- <-. cbn. split; [reflexivity|discriminate]. }
  unfold ret at 1. unfold bind at 1, call at 1. cbn [world browser_world results trace].
  destruct (wait_for_load_state pw w2) as [[[]|e] w3].
  2:{ intros H. injection H as <- <-. exact I. }
  unfold bind at 1, call at 1. cbn [world browser_world results trace].
  unfold bind at 1.
  match goal with |- context [run_checks pw checks ?s] =>
    destruct (run_checks_partition checks s)
      as ([[w4 r4] tr4] & ps & fs & Hrun & Hr & Hperm & Hps & Hfs);
    rewrite Hrun end.
  cbn [world results url checks_passed checks_failed total_checks score screenshot errors
       app] in Hr. subst r4.
  unfold bind at 1, get_results at 1. cbn [world results total_checks checks_passed].
  destruct (0 <? Z.of_nat (length checks)) eqn:Hpos;
    unfold bind, update_results, ret, try_except, call;
    cbn [world browser_world results trace];
    destruct (page_screenshot pw w4) as [[shot|e] w5];
    cbn [world browser_world results trace];
    destruct (page_close pw w5) as [[[]|e'] w6];
    intros H; injection H as <- <-; try exact I;
    (split; [exact Hperm|split; [exact Hps|exact Hfs]]).
Qed.
End verdict_facts.

(** X9. A result of [evaluate_page] without errors accounts for every check
    exactly once: the passed checks and the checks of the failed entries are
    two subsequences of the check list, and together a rearrangement of
    it. *)
Theorem evaluate_page_classifies_every_check {W : Type} (pw : playwright W)
    (pages_url : string) (checks : list string) (timeout : Z) (s : run W page_call) :
  exists r s',
    evaluate_page pw pages_url checks timeout s = (Ok r, s')
    /\ (errors r = [] -> classifies checks r).
Proof.
  unfold evaluate_page, evaluate_page_local, bind at 1, try_except at 1.
  destruct (evaluate_page_try pw pages_url checks timeout _) as [x s1] eqn:Htry.
  pose proof (evaluate_page_try_verdicts pw _ _ _ _ _ _ _ Htry) as Hx.
  destruct x as [[r|[]]|e].
  - destruct Hx as [-> Herr]. eexists _, _. split; [reflexivity|]. contradiction.
  - eexists _, _. split; [reflexivity|]. intros _. exact Hx.
  - eexists _, _. split; [reflexivity|]. cbn. intros Hnil.
    apply app_eq_nil in Hnil as [_ Hnil]. discriminate.
Qed.

Lemma evaluate_page_classifies_every_check_witness :
  exists r s',
    evaluate_page (site (Ok (Some 200))) "https://user.github.io/sales/" sample_checks 30000
      (start 0%nat) = (Ok r, s')
    /\ errors r = []
    /\ classifies sample_checks r.
Proof.
  destruct (evaluate_page_classifies_every_check (site (Ok (Some 200)))
              "https://user.github.io/sales/" sample_checks 30000 (start 0%nat))
    as (r & s' & Hrun & Hall).
  exists r, s'. split; [exact Hrun|].
  assert (Herr : errors r = []).
  { vm_compute in Hrun. injection Hrun as <- _. reflexivity. }
  split; [exact Herr|exact (Hall Herr)].
Defined.

(** X10. A check that starts with ["js:"] makes one call on the page: it
    evaluates the rest of the check, stripped of white space.  The check
    passes when the value is truthy; otherwise it fails and the reason shows
    the value.  When the evaluation raises, the check fails with the message
    of the exception, and [_run_check] still returns. *)
Theorem run_check_js {W : Type} (pw : playwright W) (check : string)
    (s : run (evaluating W) page_call) :
  String.prefix "js:" check = true ->
  let js_expression := strip (drop_chars 3 check) in
  forall outcome w',
    page_evaluate pw js_expression (browser_world (world s)) = (outcome, w') ->
    _run_check pw check s
    = (Ok match outcome with
          | Ok value =>
              if truthy value then CheckResult true (Some None)
              else CheckResult false
                     (Some (Some ("JS expression returned: " +:+ format_value value)))
          | Raise e =>
              CheckResult false (Some (Some ("JS evaluation error: " +:+ str e)))
          end,
       Run (Evaluating w' (results (world s))) (trace s ++ [Evaluate js_expression])).
Proof.
  intros Hjs js_expression outcome w' Heval.
  unfold _run_check, try_except at 1. rewrite Hjs. cbv zeta. fold js_expression.
  unfold _run_js_check, try_except, bind, call. rewrite Heval.
  destruct outcome as [value|e]; [|reflexivity].
  unfold ret. destruct (truthy value); reflexivity.
Qed.

Lemma run_check_js_witness :
  String.prefix "js:" "js: document.title.length > 0" = true
  /\ _run_check (site (Ok (Some 200))) "js: document.title.length > 0"
       (Run (Evaluating 2%nat (Evaluation "u" [] [] 1 0 None [])) [])
     = (Ok (CheckResult true (Some None)),
        Run (Evaluating 3%nat (Evaluation "u" [] [] 1 0 None []))
          ([] ++ [Evaluate "document.title.length > 0"])).
Proof.
  split; [reflexivity|].
  apply (run_check_js (site (Ok (Some 200))) "js: document.title.length > 0"
           (Run (Evaluating 2%nat (Evaluation "u" [] [] 1 0 None [])) []) eq_refl
           (Ok (JsBool true)) 3%nat eq_refl).
Defined.

(** X11. A text check about a licence with MIT, about a README, or without
    any recognised feature (no title, no [#id], no Bootstrap) cannot be
    contradicted by the page: it passes as soon as the content and the title
    of the page can be read, and the page is not looked at any further.
    The [#id] is one of word characters of Python and ['-'], as in X14. *)
Theorem run_check_lenient {W : Type} (pw : playwright W) (check : string)
    (s : run (evaluating W) page_call) (content title : string) (w1 w2 : W) :
  String.prefix "js:" check = false ->
  is_lenient_check check = true ->
  page_content pw (browser_world (world s)) = (Ok content, w1) ->
  page_title pw w1 = (Ok title, w2) ->
  exists why,
    _run_check pw check s
    = (Ok (CheckResult true (Some (Some why))),
       Run (Evaluating w2 (results (world s))) (trace s ++ [Content; Title])).
Proof.
  intros Hjs Hlenient Hcontent Htitle.
  unfold _run_check, try_except at 1. rewrite Hjs.
  unfold _run_text_check, try_except, bind at 1, call at 1. rewrite Hcontent.
  unfold bind at 1, call at 1. cbn [world browser_world results trace]. rewrite Htitle.
  cbv zeta. unfold is_lenient_check in Hlenient. cbv zeta in Hlenient.
  rewrite <- app_assoc. cbn [app].
  destruct (contains "license" (lower check) && contains "mit" (lower check));
    [eexists; reflexivity|].
  destruct (contains "readme" (lower check)); [eexists; reflexivity|].
  cbn [orb] in Hlenient.
  destruct (contains "title" (lower check)); [discriminate|].
  destruct (search_id check).
  { rewrite bool_decide_eq_true_2 in Hlenient by eauto. discriminate. }
  destruct (contains "bootstrap" (lower check)); [|eexists; reflexivity].
  rewrite andb_false_r in Hlenient. discriminate.
Qed.

Lemma run_check_lenient_witness :
  is_lenient_check "The layout looks professional" = true
  /\ exists why,
      _run_check (site (Ok (Some 200))) "The layout looks professional"
        (Run (Evaluating 2%nat (Evaluation "u" [] [] 1 0 None [])) [])
      = (Ok (CheckResult true (Some (Some why))),
         Run (Evaluating 4%nat (Evaluation "u" [] [] 1 0 None [])) ([] ++ [Content; Title])).
Proof.
  split; [reflexivity|].
  apply (run_check_lenient (site (Ok (Some 200))) "The layout looks professional"
           (Run (Evaluating 2%nat (Evaluation "u" [] [] 1 0 None [])) [])
           "<html><title>Sales dashboard</title></html>" "Sales dashboard" 3%nat 4%nat);
    reflexivity.
Defined.

(** X12. A text check that names an [#id] (of word characters of Python and
    ['-'], as in X14), and no licence with MIT, README or title, is decided
    by the page alone: it passes when [query_selector] finds the element
    with that id and fails otherwise, with a reason that names the id. *)
Theorem run_check_selector {W : Type} (pw : playwright W) (check element_id : string)
    (s : run (evaluating W) page_call) (content title : string) (w1 w2 w3 : W)
    (found : bool) :
  String.prefix "js:" check = false ->
  reaches_selector check = true ->
  search_id check = Some element_id ->
  page_content pw (browser_world (world s)) = (Ok content, w1) ->
  page_title pw w1 = (Ok title, w2) ->
  query_selector pw ("#" +:+ element_id) w2 = (Ok found, w3) ->
  _run_check pw check s
  = (Ok (if found then CheckResult true None
         else CheckResult false
                (Some (Some ("Element #" +:+ element_id +:+ " not found")))),
     Run (Evaluating w3 (results (world s)))
       (trace s ++ [Content; Title; QuerySelector ("#" +:+ element_id)])).
Proof.
  intros Hjs Hreach Hid Hcontent Htitle Hquery.
  unfold _run_check, try_except at 1. rewrite Hjs.
  unfold _run_text_check, try_except, bind at 1, call at 1. rewrite Hcontent.
  unfold bind at 1, call at 1. cbn [world browser_world results trace]. rewrite Htitle.
  cbv zeta. unfold reaches_selector in Hreach. cbv zeta in Hreach.
  destruct (contains "license" (lower check) && contains "mit" (lower check));
    [discriminate|].
  destruct (contains "readme" (lower check)); [discriminate|].
  destruct (contains "title" (lower check)); [discriminate|].
  rewrite Hid. unfold bind, call. cbn [world browser_world results trace].
  rewrite Hquery. rewrite <- !app_assoc. cbn [app].
  destruct found; reflexivity.
Qed.

Lemma run_check_selector_witness :
  reaches_selector "Page has element #total-sales" = true
  /\ search_id "Page has element #total-sales" = Some "total-sales"
  /\ _run_check (site (Ok (Some 200))) "Page has element #total-sales"
       (Run (Evaluating 2%nat (Evaluation "u" [] [] 1 0 None [])) [])
     = (Ok (CheckResult false (Some (Some "Element #total-sales not found"))),
        Run (Evaluating 5%nat (Evaluation "u" [] [] 1 0 None []))
          ([] ++ [Content; Title; QuerySelector "#total-sales"])).
Proof.
  split; [reflexivity|]. split; [reflexivity|].
  apply (run_check_selector (site (Ok (Some 200))) "Page has element #total-sales"
           "total-sales" (Run (Evaluating 2%nat (Evaluation "u" [] [] 1 0 None [])) [])
           "<html><title>Sales dashboard</title></html>" "Sales dashboard" 3%nat 4%nat 5%nat
           false); reflexivity.
Defined.

(** X13. A text check fails when the content or the title of the page cannot
    be read, whatever the check says, a check about the licence or the README
    included: the reason is the message of the exception after
    ["Text check error: "]. *)
Theorem run_check_unreadable_page {W : Type} (pw : playwright W) (check : string)
    (s : run (evaluating W) page_call) :
  String.prefix "js:" check = false ->
  forall o1 w1,
    page_content pw (browser_world (world s)) = (o1, w1) ->
    match o1 with
    | Raise e =>
        _run_check pw check s
        = (Ok (CheckResult false (Some (Some ("Text check error: " +:+ str e)))),
           Run (Evaluating w1 (results (world s))) (trace s ++ [Content]))
    | Ok content =>
        forall e w2,
          page_title pw w1 = (Raise e, w2) ->
          _run_check pw check s
          = (Ok (CheckResult false (Some (Some ("Text check error: " +:+ str e)))),
             Run (Evaluating w2 (results (world s))) (trace s ++ [Content; Title]))
    end.
Proof.
  intros Hjs o1 w1 Hcontent.
  destruct o1 as [content|e].
  - intros e w2 Htitle.
    unfold _run_check, try_except at 1. rewrite Hjs.
    unfold _run_text_check, try_except, bind at 1, call at 1. rewrite Hcontent.
    unfold bind at 1, call at 1. cbn [world browser_world results trace]. rewrite Htitle.
    rewrite <- app_assoc. reflexivity.
  - unfold _run_check, try_except at 1. rewrite Hjs.
    unfold _run_text_check, try_except, bind at 1, call at 1. rewrite Hcontent.
    reflexivity.
Qed.

Lemma run_check_unreadable_page_witness :
  String.prefix "js:" "Repo has MIT license" = false
  /\ _run_check unreadable_site "Repo has MIT license"
       (Run (Evaluating 2%nat (Evaluation "u" [] [] 1 0 None [])) [])
     = (Ok (CheckResult false (Some (Some "Text check error: Target closed"))),
        Run (Evaluating 3%nat (Evaluation "u" [] [] 1 0 None [])) ([] ++ [Content])).
Proof.
  split; [reflexivity|].
  apply (run_check_unreadable_page unreadable_site "Repo has MIT license"
           (Run (Evaluating 2%nat (Evaluation "u" [] [] 1 0 None [])) []) eq_refl
           (Raise (PyExc "Error" "Target closed")) 3%nat eq_refl).
Defined.

(** ** The search of an id in a check *)

Lemma append_cons (c : ascii) (a b : string) : String c a +:+ b = String c (a +:+ b).
Proof. reflexivity. Qed.

Lemma append_nil_l (a : string) : "" +:+ a = a.
Proof. reflexivity. Qed.

Lemma take_id_spec (s : string) :
  exists rest,
    s = take_id s +:+ rest /\ all_id_chars (take_id s) = true /\ no_id_char_ahead rest = true.
Proof.
  induction s as [|c s (rest & Hs & Hall & Hahead)].
  - exists "". auto.
  - cbn [take_id]. destruct (is_id_char c) eqn:Hc.
    + exists rest. rewrite append_cons. cbn [all_id_chars]. rewrite Hc, Hall.
      split; [f_equal; exact Hs|auto].
    + exists (String c s). rewrite append_nil_l. cbn. rewrite Hc. auto.
Qed.

Lemma take_id_prefix_empty (pre rest : string) :
  take_id (pre +:+ rest) = "" -> take_id pre = "".
Proof.
  destruct pre as [|c pre]; [reflexivity|]. rewrite append_cons. cbn [take_id].
  destruct (is_id_char c); [discriminate|reflexivity].
Qed.

(** X14. The search of an id in a check, which stands for
    [re.search(r'#([\w-]+)', check)] on the code points below 256, finds the
    leftmost ['#'] that is followed by a word character of Python (a letter
    or a digit in the sense of [str.isalnum], accented letters included, or
    ['_']) or by ['-'], and returns the longest run of such characters after
    it; it finds nothing exactly when no ['#'] of the check is followed by
    such a character. *)
Theorem search_id_leftmost_longest (s : string) :
  (forall id, search_id s = Some id ->
     exists pre rest,
       s = pre +:+ "#" +:+ id +:+ rest
       /\ id <> ""
       /\ all_id_chars id = true
       /\ no_id_char_ahead rest = true
       /\ search_id pre = None)
  /\ (search_id s = None ->
      forall pre c rest, s = pre +:+ "#" +:+ String c rest -> is_id_char c = false).
Proof.
  induction s as [|c s [IHsome IHnone]].
  - split; [discriminate|]. intros _ [|d pre] c rest H; discriminate.
  - split.
    + intros id Hid. cbn [search_id] in Hid.
      destruct (Ascii.eqb c "#") eqn:Hc.
      * apply Ascii.eqb_eq in Hc. subst c.
        destruct (take_id s) as [|a t] eqn:Htake.
        -- destruct (IHsome id Hid) as (pre & rest & Hs & Hne & Hall & Hahead & Hpre).
           exists (String "#" pre), rest.
           split; [rewrite append_cons; f_equal; exact Hs|].
           repeat split; auto.
           cbn [search_id]. rewrite Ascii.eqb_refl.
           rewrite Hs in Htake. rewrite (take_id_prefix_empty _ _ Htake). exact Hpre.
        -- injection Hid as <-.
           destruct (take_id_spec s) as (rest & Hs & Hall & Hahead).
           rewrite Htake in Hs, Hall.
           exists "", rest.
           split; [rewrite append_nil_l, append_cons, append_nil_l; f_equal; exact Hs|].
           repeat split; auto.
      * destruct (IHsome id Hid) as (pre & rest & Hs & Hne & Hall & Hahead & Hpre).
        exists (String c pre), rest.
        split; [rewrite append_cons; f_equal; exact Hs|].
        repeat split; auto. cbn [search_id]. rewrite Hc. exact Hpre.
    + intros Hnone pre d rest Hs. cbn [search_id] in Hnone.
      destruct pre as [|c' pre].
      * rewrite append_nil_l, append_cons, append_nil_l in Hs.
        injection Hs as -> ->. rewrite Ascii.eqb_refl in Hnone.
        cbn [take_id] in Hnone. destruct (is_id_char d); [discriminate|reflexivity].
      * rewrite append_cons in Hs. injection Hs as -> Hs.
        apply (IHnone) with (pre := pre) (rest := rest); [|exact Hs].
        destruct (Ascii.eqb c' "#"); [|exact Hnone].
        destruct (take_id s); [exact Hnone|discriminate].
Qed.

Lemma search_id_leftmost_longest_witness :
  search_id "Shows # and #total-sales." = Some "total-sales"
  /\ exists pre rest,
      "Shows # and #total-sales." = pre +:+ "#" +:+ "total-sales" +:+ rest
      /\ all_id_chars "total-sales" = true
      /\ no_id_char_ahead rest = true
      /\ search_id pre = None.
Proof.
  split; [reflexivity|].
  destruct (proj1 (search_id_leftmost_longest "Shows # and #total-sales.") "total-sales"
              eq_refl) as (pre & rest & Hs & _ & Hall & Hahead & Hpre).
  exists pre, rest. auto.
Defined.

(** ** src/services/llm.py: successive calls *)

(** A call whose provider under the cursor answers makes this one attempt
    and moves the cursor by one. *)
Lemma generate_response_first_answers {W} (req : request) (ps : list (provider W))
    (c : Z) (w : W) tr :
  Forall always_succeeds ps -> ps <> [] -> 0 <= c < Z.of_nat (length ps) ->
  exists text w',
    generate_response req (Run (LLM ps c w) tr)
    = (Ok text, Run (LLM ps ((c + 1) mod Z.of_nat (length ps)) w')
                  (tr ++ [Attempt c (Ok text)])).
Proof.
  intros Hall Hne Hc.
  destruct (py_index_in_range ps c Hc) as [p Hp].
  rewrite Forall_forall in Hall.
  destruct (Hall p (py_index_elem_of _ _ _ Hp) req w) as (text & w' & Hcall).
  exists text, w'.
  unfold generate_response, bind at 1, get_providers at 1. cbn [world providers].
  destruct ps as [|p0 ps']; [congruence|].
  rewrite (py_range_cons 0) by (cbn [length]; lia).
  unfold bind.
  rewrite (provider_loop_success req _ _ _ _ _ _ _ _ _ _ Hne Hp Hcall). reflexivity.
Qed.

(** X15. When every provider answers, successive calls of
    [generate_response] go round the providers: each call makes a single
    attempt, and the attempts of [k] calls are made at the cursor values
    [c, (c + 1) mod n, ..., (c + k - 1) mod n], so that the load is spread
    evenly. *)
Theorem generate_many_round_robin {W : Type} (ps : list (provider W)) :
  Forall always_succeeds ps -> ps <> [] ->
  forall (reqs : list request) (c : Z) (w : W) tr,
    0 <= c < Z.of_nat (length ps) ->
    exists texts evs w',
      generate_many reqs (Run (LLM ps c w) tr)
      = (Ok texts,
         Run (LLM ps ((c + Z.of_nat (length reqs)) mod Z.of_nat (length ps)) w') (tr ++ evs))
      /\ length texts = length reqs
      /\ map attempt_index evs = rotation c (Z.of_nat (length ps)) (length reqs)
      /\ map attempt_result evs = map Ok texts.
Proof.
  intros Hall Hne. induction reqs as [|req reqs IH]; intros c w tr Hc.
  - exists [], [], w. cbn. rewrite Z.add_0_r, Z.mod_small, app_nil_r by assumption.
    repeat split.
  - destruct (generate_response_first_answers req ps c w tr Hall Hne Hc)
      as (text & w1 & Hfirst).
    assert (Hc' : 0 <= (c + 1) mod Z.of_nat (length ps) < Z.of_nat (length ps))
      by (apply Z.mod_pos_bound; lia).
    destruct (IH _ w1 (tr ++ [Attempt c (Ok text)]) Hc')
      as (texts & evs & w' & Hrest & Hlen & Hidx & Hres).
    exists (text :: texts), (Attempt c (Ok text) :: evs), w'.
    cbn [generate_many]. unfold bind at 1. rewrite Hfirst.
    unfold bind at 1. rewrite Hrest. unfold ret.
    split; [|split; [cbn; lia|split]].
    + f_equal. f_equal; [f_equal|rewrite <- app_assoc; reflexivity].
      rewrite Zplus_mod_idemp_l. f_equal. cbn [length]. lia.
    + cbn [map length attempt_index]. rewrite rotation_cons by assumption.
      f_equal. exact Hidx.
    + cbn [map attempt_result]. f_equal. exact Hres.
Qed.

Lemma generate_many_round_robin_witness :
  let ps := [working_provider "a"; working_provider "b"; working_provider "c"] in
  Forall always_succeeds ps
  /\ exists texts evs w',
      generate_many [sample_request; sample_request; sample_request; sample_request]
        (start (LLM ps 2 0%nat))
      = (Ok texts, Run (LLM ps ((2 + Z.of_nat 4) mod Z.of_nat 3) w') ([] ++ evs))
      /\ map attempt_index evs = rotation 2 3 4.
Proof.
  cbv zeta.
  assert (Hall : Forall always_succeeds
                   [working_provider "a"; working_provider "b"; working_provider "c"]).
  { repeat constructor; intros req w; eexists _, _; reflexivity. }
  split; [exact Hall|].
  destruct (generate_many_round_robin
              [working_provider "a"; working_provider "b"; working_provider "c"] Hall
              ltac:(discriminate)
              [sample_request; sample_request; sample_request; sample_request] 2 0%nat []
              ltac:(cbn; lia))
    as (texts & evs & w' & Hrun & _ & Hidx & _).
  exists texts, evs, w'. split; [exact Hrun|exact Hidx].
Defined.

(** ** Python's [str.replace] *)

Lemma prefix_app (a b : string) : String.prefix a (a +:+ b) = true.
Proof.
  induction a as [|c a IH]; [destruct b; reflexivity|].
  rewrite append_cons. cbn. destruct (ascii_dec c c); [exact IH|congruence].
Qed.

Lemma contains_cons (needle : string) (c : ascii) (hay : string) :
  contains needle (String c hay) = String.prefix needle (String c hay) || contains needle hay.
Proof. reflexivity. Qed.

(** Once an occurrence is being replaced, its characters are skipped. *)
Lemma replace_go_skip (old new t s : string) :
  replace_go old new (String.length t) (t +:+ s) = replace_go old new 0 s.
Proof.
  induction t as [|c t IH]; [destruct s; reflexivity|].
  rewrite append_cons. cbn [String.length replace_go]. exact IH.
Qed.

(** Without an occurrence the text is unchanged. *)
Lemma replace_absent (old new s : string) :
  contains old s = false -> replace old new s = s.
Proof.
  unfold replace. induction s as [|c s IH]; [reflexivity|].
  rewrite contains_cons. intros H. apply orb_false_iff in H as [Hp Hc].
  cbn [replace_go]. rewrite Hp. f_equal. apply IH. exact Hc.
Qed.

(** A text that starts with an occurrence and has no other. *)
Lemma replace_prefix (old new s : string) :
  old <> "" -> contains old s = false -> replace old new (old +:+ s) = new +:+ s.
Proof.
  intros Hne Hs. destruct old as [|c old]; [congruence|].
  pose proof (prefix_app (String c old) s) as Hp.
  unfold replace. rewrite append_cons in *. cbn [replace_go]. rewrite Hp.
  cbn [String.length]. rewrite Nat.sub_succ, Nat.sub_0_r.
  rewrite replace_go_skip. f_equal. apply (replace_absent _ _ _ Hs).
Qed.

(** ** src/services/database.py *)

(** X16. [async_db_url] puts the asynchronous driver into an SQLite or
    PostgreSQL URL and keeps the rest of the URL, provided that the scheme
    does not occur a second time inside it; any other URL is taken as it
    is. *)
Theorem async_db_url_driver (rest : string) :
  (contains "sqlite:///" rest = false ->
   async_db_url ("sqlite:///" +:+ rest) = "sqlite+aiosqlite:///" +:+ rest)
  /\ (contains "postgresql://" rest = false ->
      async_db_url ("postgresql://" +:+ rest) = "postgresql+asyncpg://" +:+ rest)
  /\ (String.prefix "sqlite:///" rest = false ->
      String.prefix "postgresql://" rest = false ->
      async_db_url rest = rest).
Proof.
  split; [|split].
  - intros H. unfold async_db_url. rewrite prefix_app.
    apply replace_prefix; [discriminate|exact H].
  - intros H. unfold async_db_url.
    assert (Hp : String.prefix "sqlite:///" ("postgresql://" +:+ rest) = false) by reflexivity.
    rewrite Hp, prefix_app. apply replace_prefix; [discriminate|exact H].
  - intros H1 H2. unfold async_db_url. rewrite H1, H2. reflexivity.
Qed.

Lemma async_db_url_driver_witness :
  contains "sqlite:///" "data/deployment.db" = false
  /\ async_db_url "sqlite:///data/deployment.db" = "sqlite+aiosqlite:///data/deployment.db".
Proof.
  split; [reflexivity|].
  apply (proj1 (async_db_url_driver "data/deployment.db")). reflexivity.
Defined.

Lemma db_sleeps_app (l1 l2 : list db_event) : db_sleeps (l1 ++ l2) = db_sleeps l1 ++ db_sleeps l2.
Proof. unfold db_sleeps. apply omap_app. Qed.

Lemma db_attempts_app (l1 l2 : list db_event) :
  db_attempts (l1 ++ l2) = db_attempts l1 ++ db_attempts l2.
Proof. unfold db_attempts. apply omap_app. Qed.

(** The loop from attempt [a] on, with delay [d]: it stops at some attempt
    [k]; the attempts before [k] failed, each followed by a sleep twice as
    long as the one before. *)
Lemma initialize_loop_spec {W} (connect : string -> extern W unit) (url : string)
    (max_retries : Z) (n : nat) : forall a d s,
  0 <= a < max_retries -> n = Z.to_nat (max_retries - 1 - a) ->
  exists k errs final s' evs,
    initialize_loop connect url max_retries (py_range a max_retries) d s
    = (match final with Ok _ => Ok (Return tt) | Raise e => Raise e end, s')
    /\ a <= k < max_retries
    /\ length errs = Z.to_nat (k - a)
    /\ trace s' = trace s ++ evs
    /\ db_attempts evs
       = zip_with (fun i e => (i, Raise e)) (py_range a k) errs ++ [(k, final)]
    /\ db_sleeps evs = map (fun i => d * 2 ^ Z.of_nat i) (seq 0 (Z.to_nat (k - a)))
    /\ (is_ok final = false -> k = max_retries - 1)
    /\ Forall (fun ev => match ev with
                          | Connect _ u _ => u = async_db_url url
                          | DbSleep _ => True
                          end) evs.
Proof.
  induction n as [|n IH]; intros a d s Ha Hn.
  - (* the last attempt *)
    assert (a = max_retries - 1) as Hlast by lia.
    rewrite py_range_cons by lia. rewrite (py_range_nil (a + 1)) by lia.
    cbn [initialize_loop]. unfold try_except, bind, await_connect at 1.
    destruct (connect (async_db_url url) (world s)) as [[[]|e] w'] eqn:Hc.
    + exists a, [], (Ok tt). eexists. eexists.
      split; [reflexivity|]. cbn [trace].
      rewrite Z.sub_diag, (py_range_nil a a) by lia.
      repeat split; try lia; try reflexivity; try discriminate.
      repeat constructor.
    + replace (a <? max_retries - 1) with false by (symmetry; apply Z.ltb_ge; lia).
      exists a, [], (Raise e). eexists. eexists.
      split; [reflexivity|]. cbn [trace].
      rewrite Z.sub_diag, (py_range_nil a a) by lia.
      repeat split; try lia; try reflexivity; try discriminate.
      repeat constructor.
  - rewrite py_range_cons by lia.
    cbn [initialize_loop]. unfold try_except, bind at 1, await_connect at 1.
    destruct (connect (async_db_url url) (world s)) as [[[]|e] w'] eqn:Hc.
    + exists a, [], (Ok tt). eexists. eexists.
      split; [reflexivity|]. cbn [trace].
      rewrite Z.sub_diag, (py_range_nil a a) by lia.
      repeat split; try lia; try reflexivity; try discriminate.
      repeat constructor.
    + replace (a <? max_retries - 1) with true by (symmetry; apply Z.ltb_lt; lia).
      unfold bind at 1, emit at 1. cbn [world trace].
      set (s1 := Run w' _).
      destruct (IH (a + 1) (d * 2) s1 ltac:(lia) ltac:(lia))
        as (k & errs & final & s' & evs & Hrun & Hk & Hlen & Htr & Hatt & Hsl & Hfin & Hurl).
      exists k, (e :: errs), final, s'.
      exists ([Connect a (async_db_url url) (Raise e); DbSleep d] ++ evs).
      split; [exact Hrun|].
      split; [lia|].
      split; [cbn [length]; lia|].
      split; [rewrite Htr; subst s1; cbn [trace]; rewrite <- !app_assoc; reflexivity|].
      split.
      { rewrite db_attempts_app, Hatt. rewrite (py_range_cons a k) by lia. reflexivity. }
      split; [|split; [exact Hfin|repeat constructor; exact Hurl]].
      rewrite db_sleeps_app, Hsl.
      replace (Z.to_nat (k - a)) with (S (Z.to_nat (k - (a + 1)))) by lia.
      change (db_sleeps [Connect a (async_db_url url) (Raise e); DbSleep d]) with [d].
      cbn [seq map app]. f_equal; [cbn; lia|].
      rewrite <- seq_shift, map_map. apply map_ext. intros i.
      rewrite Nat2Z.inj_succ, Z.pow_succ_r by lia. lia.
Qed.

(** X17. [DatabaseService.initialize] tries to connect at most five times,
    always with the URL of the asynchronous driver.  It stops at the first
    attempt that succeeds; before each further attempt it sleeps, for 2, 4,
    8 and 16 seconds (the delay doubles and has no ceiling).  It raises
    only when the fifth attempt failed, and then with the error of that
    attempt, after having slept for 30 seconds in all. *)
Theorem initialize_backoff {W} (connect : string -> extern W unit) (url : string)
    (s : run W db_event) :
  exists (errs : list exn) (final : result unit) s' evs,
    initialize connect url s = (final, s')
    /\ trace s' = trace s ++ evs
    /\ (length errs <= 4)%nat
    /\ db_attempts evs
       = zip_with (fun i e => (i, Raise e)) (py_range 0 4) errs
         ++ [(Z.of_nat (length errs), final)]
    /\ db_sleeps evs = take (length errs) [2; 4; 8; 16]
    /\ (is_ok final = false -> length errs = 4%nat)
    /\ Forall (fun ev => match ev with
                          | Connect _ u _ => u = async_db_url url
                          | DbSleep _ => True
                          end) evs.
Proof.
  unfold initialize, bind.
  destruct (initialize_loop_spec connect url 5 4 0 2 s ltac:(lia) ltac:(lia))
    as (k & errs & final & s' & evs & Hrun & Hk & Hlen & Htr & Hatt & Hsl & Hfin & Hurl).
  rewrite Hrun. exists errs, final, s', evs.
  assert (Hcases : k = 0 \/ k = 1 \/ k = 2 \/ k = 3 \/ k = 4) by lia.
  assert (Hk' : k = Z.of_nat (length errs)) by lia.
  split; [destruct final as [[]|e]; reflexivity|].
  split; [exact Htr|].
  split; [lia|].
  split.
  { rewrite Hatt, <- Hk'. f_equal.
    destruct Hcases as [->|[->|[->|[->| ->]]]];
      do 5 (try destruct errs as [|? errs]); try discriminate Hlen; reflexivity. }
  split.
  { rewrite Hsl.
    destruct Hcases as [->|[->|[->|[->| ->]]]];
      do 5 (try destruct errs as [|? errs]); try discriminate Hlen; reflexivity. }
  split; [|exact Hurl].
  intros Hf. specialize (Hfin Hf). lia.
Qed.

(** ** src/services/llm.py: the provider classes *)

Lemma elem_of_append_if_key (key : option string) (make : string -> provider_object)
    (p : provider_object) :
  p ∈ append_if_key key make <-> exists k, key = Some k /\ k <> "" /\ p = make k.
Proof.
  destruct key as [[|c k]|]; cbn [append_if_key]; split.
  - intros H. inversion H.
  - intros (k & Hk & Hne & _). congruence.
  - intros H. apply list_elem_of_singleton in H. eauto.
  - intros (k' & Hk & _ & ->). injection Hk as <-. apply list_elem_of_singleton. reflexivity.
  - intros H. inversion H.
  - intros (k & Hk & _). discriminate.
Qed.

(** X18. [LLMService.__init__] makes one provider for each key of the
    settings that is set and not empty, with that key, and no other; the
    providers stand in the order OpenAI, Anthropic, Groq, Hugging Face
    (which is the order in which a new service tries them). *)
Theorem LLMService_init_providers (settings : llm_settings) :
  sublist (map provider_rank (LLMService__init__ settings)) [0; 1; 2; 3]%nat
  /\ forall p, p ∈ LLMService__init__ settings
               <-> (configured_key settings p = Some (provider_key p)
                    /\ provider_key p <> "").
Proof.
  split.
  - unfold LLMService__init__. rewrite !map_app.
    change [0; 1; 2; 3]%nat with ([0] ++ [1] ++ [2] ++ [3])%nat.
    destruct settings as [k1 k2 k3 k4]. cbn [openai_api_key anthropic_api_key
      groq_api_key huggingface_api_key].
    repeat apply sublist_app;
      match goal with
      | |- sublist (map _ (append_if_key ?k _)) _ =>
          destruct k as [[|? ?]|]; cbn; [apply sublist_nil_l|reflexivity|apply sublist_nil_l]
      end.
  - intros p. unfold LLMService__init__.
    rewrite !elem_of_app, !elem_of_append_if_key. split.
    + intros [(k & Hk & Hne & ->)|[(k & Hk & Hne & ->)|[(k & Hk & Hne & ->)|(k & Hk & Hne & ->)]]];
        cbn; auto.
    + intros [Hk Hne]. destruct p as [k|k|k|k]; cbn in Hk, Hne; eauto 8.
Qed.

(** What the handlers of a provider let out. *)
Lemma try_wrap_error {W A} (m : M W A) (not_installed api_error : string) w e w' :
  try_except m (wrap_error not_installed api_error) w = (Raise e, w') ->
  exists e0,
    m w = (Raise e0, w')
    /\ e = ValueError (if is_import_error e0 then not_installed
                       else api_error +:+ str e0).
Proof.
  unfold try_except, wrap_error. destruct (m w) as [[a|e0] w0]; [discriminate|].
  destruct (is_import_error e0) eqn:Hi; unfold raise; intros [= <- <-];
    exists e0; rewrite Hi; split; reflexivity.
Qed.

Lemma provider_raises_wrapped {W} (P : packages W) (p : provider_object)
    (req : request) w e w' :
  provider_generate_response P p req w = (Raise e, w') ->
  exists msg, e = ValueError msg /\ provider_error p msg.
Proof.
  destruct p as [k|k|k|k]; cbn [provider_generate_response];
    unfold OpenAIProvider_generate_response, AnthropicProvider_generate_response,
      GroqProvider_generate_response, HuggingFaceProvider_generate_response;
    intros H; apply try_wrap_error in H as (e0 & _ & ->);
    eexists; (split; [reflexivity|]);
    (destruct (is_import_error e0); [left; reflexivity|right; eexists; reflexivity]).
Qed.

(** X19. Whatever goes wrong in a provider (a missing package, the client,
    the network, the shape of the response), its [generate_response] raises
    a [ValueError], whose text is either "<package> package not installed"
    or starts with "<provider> API error: ". *)
Theorem provider_errors_are_value_errors {W} (P : packages W) (p : provider_object)
    (req : request) (w w' : W) (e : exn) :
  provider_generate_response P p req w = (Raise e, w') ->
  exists msg, e = ValueError msg /\ provider_error p msg.
Proof. apply provider_raises_wrapped. Qed.

Lemma provider_errors_are_value_errors_witness :
  provider_generate_response no_packages (GroqProvider "gsk") sample_request tt
  = (Raise (ValueError "OpenAI package not installed"), tt)
  /\ exists msg, ValueError "OpenAI package not installed" = ValueError msg
                 /\ provider_error (GroqProvider "gsk") msg.
Proof.
  split; [reflexivity|].
  apply (provider_errors_are_value_errors no_packages (GroqProvider "gsk") sample_request tt tt).
  reflexivity.
Defined.

(** X20. The Hugging Face provider raises its own errors inside the [try]
    block that wraps every error: when the endpoint answers with a status
    other than 200, the text of the [ValueError] carries the prefix twice,
    "Hugging Face API error: Hugging Face API error: <status> - <body>";
    when the answer is not a non-empty list, it is "Hugging Face API
    error: Unexpected response format from Hugging Face API". *)
Theorem hugging_face_own_errors {W} (P : packages W) (api_key : string) (req : request)
    (w w1 w2 : W) (full_prompt : string) (response : http_response) :
  import_module P "httpx" w = (Ok tt, w1) ->
  full_prompt = (if bool_decide (system_message req = "") then prompt req
                 else system_message req +:+ String "010" (String "010" (prompt req))) ->
  httpx_post P "https://router.huggingface.co/hf-inference/models/facebook/blenderbot-400M-distill"
    api_key full_prompt (max_tokens req) (temperature req) w1 = (Ok response, w2) ->
  (status_code response <> 200 ->
   provider_generate_response P (HuggingFaceProvider api_key) req w
   = (Raise (ValueError ("Hugging Face API error: Hugging Face API error: "
                         +:+ pretty (status_code response) +:+ " - " +:+ text response)),
      w2))
  /\ (status_code response = 200 ->
      json response = Ok JsonOther \/ json response = Ok (JsonList []) ->
      provider_generate_response P (HuggingFaceProvider api_key) req w
      = (Raise (ValueError "Hugging Face API error: Unexpected response format from Hugging Face API"),
         w2)).
Proof.
  intros Himp -> Hpost.
  cbn [provider_generate_response]. unfold HuggingFaceProvider_generate_response.
  unfold try_except, bind. rewrite Himp.
  change ("https://router.huggingface.co/hf-inference/models/" +:+ "facebook/blenderbot-400M-distill")
    with "https://router.huggingface.co/hf-inference/models/facebook/blenderbot-400M-distill".
  rewrite Hpost. split.
  - intros Hst. apply Z.eqb_neq in Hst. rewrite Hst. reflexivity.
  - intros Hst Hjson. apply Z.eqb_eq in Hst. rewrite Hst.
    destruct Hjson as [-> | ->]; reflexivity.
Qed.

Lemma hugging_face_own_errors_witness :
  provider_generate_response loading_model (HuggingFaceProvider "hf") sample_request tt
  = (Raise (ValueError "Hugging Face API error: Hugging Face API error: 503 - Model is loading"),
     tt).
Proof.
  apply (proj1 (hugging_face_own_errors loading_model "hf" sample_request tt tt tt _
                  (HttpResponse 503 "Model is loading"
                     (Raise (PyExc "JSONDecodeError" "Expecting value")))
                  eq_refl eq_refl eq_refl)).
  cbn. lia.
Defined.

Lemma rotation_from_start n : rotation 0 (Z.of_nat n) n = py_range 0 (Z.of_nat n).
Proof.
  unfold rotation, py_range. rewrite Z.sub_0_r, Nat2Z.id.
  apply map_ext_in. intros j Hj. apply in_seq in Hj.
  apply Z.mod_small. lia.
Qed.

Lemma py_range_last n : (0 < n)%nat -> last (py_range 0 (Z.of_nat n)) = Some (Z.of_nat n - 1).
Proof.
  intros Hn. unfold py_range. rewrite Z.sub_0_r, Nat2Z.id.
  change (last ((fun k => 0 + Z.of_nat k) <$> seq 0 n) = Some (Z.of_nat n - 1)).
  rewrite fmap_last, last_lookup, length_seq.
  rewrite (lookup_seq_lt 0 n (Init.Nat.pred n)) by lia.
  cbn. f_equal. lia.
Qed.

Lemma py_index_last {A} (l : list A) :
  py_index l (Z.of_nat (length l) - 1) = last l.
Proof.
  destruct l as [|x l] using rev_ind; [reflexivity|].
  unfold py_index. rewrite last_snoc, length_app. cbn [length].
  destruct (Z.leb_spec 0 (Z.of_nat (length l + 1) - 1)) as [_|Hlt]; [|lia].
  replace (Z.to_nat (Z.of_nat (length l + 1) - 1)) with (length l + 0)%nat by lia.
  rewrite lookup_app_r by lia. replace (length l + 0 - length l)%nat with 0%nat by lia.
  reflexivity.
Qed.

(** X21. The errors of a service made by [LLMService()].  Without any key
    in the settings, [generate_response] raises "No LLM providers
    available" and leaves the service as it is.  With a key, whenever it
    raises, the attempts of the call are failed attempts at the positions
    0, 1, ... of the provider list, one for every provider of the service
    and in the order of the list, each of them the answer of the provider
    at its position; the error raised is "All LLM providers failed. Last
    error: " followed by the text of the error of the last provider of the
    list, which has the form of X19. *)
Theorem service_errors {W} (P : packages W) (settings : llm_settings) (req : request)
    (w : W) (tr : list llm_event) :
  (LLMService__init__ settings = [] ->
   generate_response req (Run (LLMService P settings w) tr)
   = (Raise (ValueError "No LLM providers available"), Run (LLMService P settings w) tr))
  /\ (forall e s',
         LLMService__init__ settings <> [] ->
         generate_response req (Run (LLMService P settings w) tr) = (Raise e, s') ->
         exists evs p detail,
           trace s' = tr ++ evs
           /\ map attempt_index evs
              = py_range 0 (Z.of_nat (length (LLMService__init__ settings)))
           /\ Forall attempt_failed evs
           /\ Forall (answered_by (map (provider_generate_response P)
                                    (LLMService__init__ settings)) req) evs
           /\ last (LLMService__init__ settings) = Some p
           /\ provider_error p detail
           /\ e = ValueError ("All LLM providers failed. Last error: " +:+ detail)).
Proof.
  unfold LLMService. split.
  - intros ->. reflexivity.
  - intros e s' Hinit H.
    set (objects := LLMService__init__ settings) in *.
    set (ps := map (provider_generate_response P) objects) in *.
    assert (Hlen0 : length ps = length objects) by apply length_map.
    assert (Hne : ps <> []).
    { intros Hnil. apply Hinit. destruct objects; [reflexivity|discriminate]. }
    assert (Hc : 0 <= 0 < Z.of_nat (length ps)).
    { destruct ps; [congruence|cbn [length]; lia]. }
    destruct (provider_loop_spec req ps Hne (py_range 0 (Z.of_nat (length ps))) None 0 w tr Hc)
      as (evs & x & w' & Hrun & Hrot & Hans & _ & Hx).
    unfold generate_response, bind at 1, get_providers at 1 in H. cbn [world providers] in H.
    destruct ps as [|q0 qs] eqn:Hps; [congruence|]. rewrite <- Hps in *.
    unfold bind in H. rewrite Hrun in H.
    destruct x as [text|err']; [discriminate|].
    destruct Hx as (Hfail & Hlen & ->).
    rewrite py_range_length, Z.sub_0_r, Nat2Z.id in Hlen.
    rewrite Hlen, Hlen0, rotation_from_start in Hrot.
    assert (Hpos : (0 < length objects)%nat).
    { destruct objects; [congruence|cbn; lia]. }
    destruct (last evs) as [ev|] eqn:Hlast.
    2:{ apply last_None in Hlast. subst evs. cbn in Hlen. lia. }
    pose proof (last_Some_elem_of _ _ Hlast) as Hin.
    pose proof (proj1 (Forall_forall _ _) Hfail _ Hin) as Hf.
    pose proof (proj1 (Forall_forall _ _) Hans _ Hin) as (p' & w1 & w2 & Hp' & Hcall).
    assert (Hk : attempt_index ev = Z.of_nat (length objects) - 1).
    { pose proof (fmap_last attempt_index evs) as Hl.
      change (attempt_index <$> evs) with (map attempt_index evs) in Hl.
      rewrite Hrot, Hlast, py_range_last in Hl by assumption.
      cbn in Hl. congruence. }
    rewrite Hk, <- Hlen0, py_index_last in Hp'.
    pose proof (fmap_last (provider_generate_response P) objects) as Hl.
    change (provider_generate_response P <$> objects) with ps in Hl.
    rewrite Hp' in Hl.
    destruct (last objects) as [p|] eqn:Hobj; [|discriminate].
    cbn in Hl. injection Hl as ->.
    destruct ev as [k [text|e1]]; [destruct Hf|].
    cbn [attempt_result] in Hcall.
    apply provider_raises_wrapped in Hcall as (msg & -> & Hmsg).
    unfold final_error, format_error in H. rewrite Hlast in H. cbn [str ValueError] in H.
    unfold raise in H. injection H as <- <-.
    exists evs, p, msg. cbn [trace]. repeat split; auto.
Qed.

Lemma service_errors_witness :
  let settings := LLMSettings None (Some "") (Some "gsk") None in
  (generate_response sample_request
     (Run (LLMService no_packages (LLMSettings None None None None) tt) [])
   = (Raise (ValueError "No LLM providers available"),
      Run (LLMService no_packages (LLMSettings None None None None) tt) []))
  /\ exists evs p detail,
      [Attempt 0 (Raise (ValueError "OpenAI package not installed"))] = [] ++ evs
      /\ map attempt_index evs = py_range 0 (Z.of_nat (length (LLMService__init__ settings)))
      /\ Forall attempt_failed evs
      /\ Forall (answered_by (map (provider_generate_response no_packages)
                               (LLMService__init__ settings)) sample_request) evs
      /\ last (LLMService__init__ settings) = Some p
      /\ provider_error p detail
      /\ ValueError "All LLM providers failed. Last error: OpenAI package not installed"
         = ValueError ("All LLM providers failed. Last error: " +:+ detail).
Proof.
  intros settings. split.
  - apply (proj1 (service_errors no_packages (LLMSettings None None None None)
                    sample_request tt [])).
    reflexivity.
  - apply (proj2 (service_errors no_packages settings sample_request tt [])
             (ValueError "All LLM providers failed. Last error: OpenAI package not installed")
             (Run (LLM (map (provider_generate_response no_packages)
                          (LLMService__init__ settings)) 0 tt)
                [Attempt 0 (Raise (ValueError "OpenAI package not installed"))])).
    + discriminate.
    + reflexivity.
Defined.

(** ** src/utils/attachments.py *)

Lemma prefix_empty (s : string) : String.prefix "" s = true.
Proof. destruct s; reflexivity. Qed.

Lemma drop_chars_app (a b : string) : drop_chars (String.length a) (a +:+ b) = b.
Proof.
  induction a as [|c a IH]; [destruct b; reflexivity|].
  rewrite append_cons. exact IH.
Qed.

Lemma take_mime_app (mime rest : string) :
  all_chars is_mime_char mime = true -> take_mime rest = "" ->
  take_mime (mime +:+ rest) = mime.
Proof.
  intros Hm Hr. induction mime as [|c mime IH]; [rewrite append_nil_l; exact Hr|].
  cbn [all_chars] in Hm. apply andb_true_iff in Hm as [Hc Hm].
  rewrite append_cons. cbn [take_mime]. unfold is_mime_char in Hc.
  apply negb_true_iff in Hc. rewrite Hc. f_equal. apply IH. exact Hm.
Qed.

Lemma first_line_whole (data : string) :
  contains newline data = false -> first_line data = data.
Proof.
  induction data as [|c data IH]; [reflexivity|].
  rewrite contains_cons. intros H. apply orb_false_iff in H as [Hp Hc].
  cbn [first_line]. destruct (Ascii.eqb c "010") eqn:Heq.
  - apply Ascii.eqb_eq in Heq. subst c. unfold newline in Hp. cbn in Hp.
    destruct data; discriminate Hp.
  - f_equal. apply IH. exact Hc.
Qed.

(** X22. [decode_data_uri] reads back the data URIs of the form
    [data:<type>,<text>] and [data:<type>;base64,<text>], for a type without
    [;] and [,] and a text of one line: it gives the encoded text with the
    type and "utf-8", respectively the decoded bytes with the type and
    "base64" (and nothing when the text is not base64); without a type the
    type is "text/plain". *)
Theorem decode_data_uri_reads_back {W} (F : files_api W) (mime data : string) :
  all_chars is_mime_char mime = true -> mime <> "" ->
  contains newline data = false -> data <> "" ->
  decode_data_uri F ("data:" +:+ mime +:+ "," +:+ data)
  = Some (utf8_encode F data, mime, "utf-8")
  /\ decode_data_uri F ("data:" +:+ mime +:+ ";base64," +:+ data)
     = match b64decode F data with
       | Ok content => Some (content, mime, "base64")
       | Raise _ => None
       end
  /\ decode_data_uri F ("data:," +:+ data)
     = Some (utf8_encode F data, "text/plain", "utf-8").
Proof.
  intros Hmime Hne Hdata Hd.
  assert (Hmatch : forall sep is_base64,
            (sep = "," /\ is_base64 = false) \/ (sep = ";base64," /\ is_base64 = true) ->
            match_data_uri ("data:" +:+ mime +:+ sep +:+ data)
            = Some (Some mime, is_base64, data)).
  { intros sep b Hsep. unfold match_data_uri.
    change ("data:" +:+ mime +:+ sep +:+ data)
      with (String "d" (String "a" (String "t" (String "a" (String ":" (mime +:+ sep +:+ data)))))).
    cbn [String.prefix drop_chars].
    repeat (destruct (ascii_dec _ _); [|congruence]). rewrite prefix_empty.
    assert (Ht : take_mime (mime +:+ sep +:+ data) = mime).
    { apply take_mime_app; [exact Hmime|]. destruct Hsep as [[-> _]|[-> _]]; reflexivity. }
    rewrite Ht, drop_chars_app.
    rewrite bool_decide_eq_false_2 by exact Hne.
    destruct Hsep as [[-> ->]|[-> ->]].
    - change ("," +:+ data) with (String "," data).
      cbn [String.prefix drop_chars].
      repeat (destruct (ascii_dec _ _); try congruence). rewrite ?prefix_empty.
      rewrite (first_line_whole _ Hdata). destruct data; [congruence|reflexivity].
    - change (";base64," +:+ data)
        with (String ";" (String "b" (String "a" (String "s" (String "e"
               (String "6" (String "4" (String "," data)))))))).
      cbn [String.prefix drop_chars].
      repeat (destruct (ascii_dec _ _); try congruence). rewrite ?prefix_empty.
      rewrite (first_line_whole _ Hdata). destruct data; [congruence|reflexivity]. }
  split; [|split].
  - unfold decode_data_uri. rewrite (Hmatch "," false) by auto. reflexivity.
  - unfold decode_data_uri. rewrite (Hmatch ";base64," true) by auto. reflexivity.
  - unfold decode_data_uri, match_data_uri.
    change ("data:," +:+ data)
      with (String "d" (String "a" (String "t" (String "a" (String ":" (String "," data)))))).
    cbn [String.prefix drop_chars take_mime Ascii.eqb Bool.eqb orb String.length].
    repeat (destruct (ascii_dec _ _); try congruence). rewrite ?prefix_empty.
    cbn. rewrite ?prefix_empty.
    rewrite (first_line_whole _ Hdata). destruct data; [congruence|reflexivity].
Qed.

Lemma decode_data_uri_reads_back_witness :
  decode_data_uri ascii_files "data:text/csv,a,b;c"
  = Some ("a,b;c", "text/csv", "utf-8").
Proof.
  apply (proj1 (decode_data_uri_reads_back ascii_files "text/csv" "a,b;c"
                  eq_refl ltac:(discriminate) eq_refl ltac:(discriminate))).
Defined.

Lemma byte_writes_app (l1 l2 : list generator_event) :
  byte_writes (l1 ++ l2) = byte_writes l1 ++ byte_writes l2.
Proof. unfold byte_writes. apply omap_app. Qed.

Lemma text_writes_app (l1 l2 : list generator_event) :
  text_writes (l1 ++ l2) = text_writes l1 ++ text_writes l2.
Proof. unfold text_writes. apply omap_app. Qed.

Lemma generations_app (l1 l2 : list generator_event) :
  generations (l1 ++ l2) = generations l1 ++ generations l2.
Proof. unfold generations. apply omap_app. Qed.

Lemma succeeded_app (l1 l2 : list (string * string * result unit)) :
  succeeded (l1 ++ l2) = succeeded l1 ++ succeeded l2.
Proof. unfold succeeded. rewrite filter_app, map_app. reflexivity. Qed.

(** One attachment: nothing happens unless it has a name and a URL that can
    be decoded; then the file is written, and the name is returned when the
    write succeeded. *)
Lemma save_attachment_spec {W} (F : files_api W) (attachment : dict string)
    (workspace_path : string) (s : run W generator_event) :
  match to_save F attachment with
  | None => save_attachment F attachment workspace_path s = (Ok None, s)
  | Some (name, content) =>
      exists r w',
        write_bytes F workspace_path name content (world s) = (r, w')
        /\ name <> ""
        /\ save_attachment F attachment workspace_path s
           = (Ok (if is_ok r then Some name else None),
              Run w' (trace s ++ [WriteBytes workspace_path name content r]))
  end.
Proof.
  unfold to_save, save_attachment, try_except.
  destruct (falsy (dict_get "name" attachment) || falsy (dict_get "url" attachment)) eqn:Hf;
    [reflexivity|].
  apply orb_false_iff in Hf as [Hname Hurl].
  destruct (decode_data_uri F (default "" (dict_get "url" attachment)))
    as [[[content mime_type] encoding]|]; [|reflexivity].
  unfold bind, await_write_bytes.
  destruct (write_bytes F workspace_path (default "" (dict_get "name" attachment)) content (world s))
    as [[[]|e] w'] eqn:Hw;
    eexists _, w'; (split; [reflexivity|]);
    (split; [destruct (dict_get "name" attachment) as [[|? ?]|]; cbn in *; congruence|reflexivity]).
Qed.

Lemma save_all_attachments_loop_spec {W} (F : files_api W) (workspace_path : string)
    (attachments : list (dict string)) : forall saved_files (s : run W generator_event),
  exists evs w',
    save_all_attachments_loop F attachments workspace_path saved_files s
    = (Ok (saved_files ++ succeeded (byte_writes evs)), Run w' (trace s ++ evs))
    /\ Forall (fun ev => exists name content r,
                 ev = WriteBytes workspace_path name content r) evs
    /\ map written (byte_writes evs) = omap (to_save F) attachments.
Proof.
  induction attachments as [|att attachments IH]; intros saved_files s.
  - exists [], (world s). cbn. rewrite !app_nil_r. destruct s. auto.
  - cbn [save_all_attachments_loop]. unfold bind at 1.
    change (omap (to_save F) (att :: attachments))
      with (match to_save F att with
            | Some y => y :: omap (to_save F) attachments
            | None => omap (to_save F) attachments
            end).
    pose proof (save_attachment_spec F att workspace_path s) as Hatt.
    destruct (to_save F att) as [[name content]|].
    + destruct Hatt as (r & w1 & Hw & Hname & ->).
      destruct (IH (if falsy (if is_ok r then Some name else None) then saved_files
                    else saved_files ++ [default "" (if is_ok r then Some name else None)])
                  (Run w1 (trace s ++ [WriteBytes workspace_path name content r])))
        as (evs & w' & -> & Hall & Hmap).
      exists (WriteBytes workspace_path name content r :: evs), w'.
      cbn [trace]. rewrite <- app_assoc. cbn [app].
      split; [|split].
      * f_equal. f_equal.
        change (WriteBytes workspace_path name content r :: evs)
          with ([WriteBytes workspace_path name content r] ++ evs).
        rewrite byte_writes_app, succeeded_app.
        destruct r as [[]|e]; cbn [is_ok].
        -- destruct name as [|c name]; [congruence|]. cbn [falsy default].
           rewrite <- app_assoc. reflexivity.
        -- cbn [falsy]. reflexivity.
      * constructor; [eauto|exact Hall].
      * change (map written (byte_writes (WriteBytes workspace_path name content r :: evs)))
          with ((name, content) :: map written (byte_writes evs)).
        f_equal. exact Hmap.
    + rewrite Hatt. cbn [falsy].
      destruct (IH saved_files s) as (evs & w' & -> & Hall & Hmap).
      exists evs, w'. auto.
Qed.

(** X23. [save_all_attachments] never fails.  It tries to write one file for
    each attachment that has a name and a URL that [decode_data_uri] reads,
    in the order of the list and with the decoded bytes, and nothing else;
    an attachment that cannot be saved does not stop the others.  It
    returns the names of the files whose write succeeded. *)
Theorem save_all_attachments_saves_what_it_can {W} (F : files_api W)
    (attachments : list (dict string)) (workspace_path : string)
    (s : run W generator_event) :
  exists evs w',
    save_all_attachments F attachments workspace_path s
    = (Ok (succeeded (byte_writes evs)), Run w' (trace s ++ evs))
    /\ Forall (fun ev => exists name content r,
                 ev = WriteBytes workspace_path name content r) evs
    /\ map written (byte_writes evs) = omap (to_save F) attachments.
Proof.
  unfold save_all_attachments.
  destruct (save_all_attachments_loop_spec F workspace_path attachments [] s)
    as (evs & w' & Hrun & Hall & Hmap).
  exists evs, w'. rewrite Hrun. auto.
Qed.

(** ** src/agent/code_generator.py *)

Lemma append_assoc (a b c : string) : (a +:+ b) +:+ c = a +:+ b +:+ c.
Proof.
  induction a as [|x a IH]; [reflexivity|].
  rewrite !append_cons. f_equal. exact IH.
Qed.

Lemma prefix_app_inv (a b : string) : forall s,
  String.prefix (a +:+ b) s = true -> String.prefix a s = true.
Proof.
  induction a as [|x a IH]; intros s H; [apply prefix_empty|].
  rewrite append_cons in H. destruct s as [|y s]; [discriminate H|].
  cbn [String.prefix] in *. destruct (ascii_dec x y); [apply IH; exact H|discriminate H].
Qed.

Lemma contains_app_l (a b s : string) :
  contains (a +:+ b) s = true -> contains a s = true.
Proof.
  induction s as [|c s IH].
  - cbn [contains]. rewrite !orb_false_r. apply prefix_app_inv.
  - rewrite !contains_cons. intros H. apply orb_true_iff in H as [H|H].
    + apply prefix_app_inv in H. rewrite H. reflexivity.
    + rewrite (IH H). apply orb_true_r.
Qed.

Lemma split_at_absent (sep s : string) : contains sep s = false -> split_at sep s = None.
Proof.
  induction s as [|c s IH].
  - cbn [contains split_at]. rewrite orb_false_r. intros ->. reflexivity.
  - rewrite contains_cons. intros H. apply orb_false_iff in H as [Hp Hc].
    cbn [split_at]. rewrite Hp, (IH Hc). reflexivity.
Qed.

(** A separator whose first character does not occur before it. *)
Lemma split_at_fresh (c0 : ascii) (sep' pre rest : string) :
  contains (String c0 "") pre = false ->
  split_at (String c0 sep') (pre +:+ String c0 sep' +:+ rest) = Some (pre, rest).
Proof.
  induction pre as [|c pre IH]; intros H.
  - rewrite append_nil_l.
    pose proof (prefix_app (String c0 sep') rest) as Hp.
    pose proof (drop_chars_app (String c0 sep') rest) as Hd.
    rewrite append_cons in Hp, Hd. rewrite append_cons.
    cbn [split_at]. rewrite Hp, Hd. reflexivity.
  - rewrite contains_cons in H. apply orb_false_iff in H as [Hp Hc].
    rewrite append_cons. cbn [split_at String.prefix] in *.
    destruct (ascii_dec c0 c); [rewrite prefix_empty in Hp; discriminate Hp|].
    rewrite (IH Hc). reflexivity.
Qed.

(** The closing fence cannot begin inside a text that does not hold it and
    end outside: the fence does not overlap with itself. *)
Lemma split_at_closing_fence (code post : string) :
  contains (newline +:+ "```") code = false ->
  split_at (newline +:+ "```") (code +:+ (newline +:+ "```") +:+ post) = Some (code, post).
Proof.
  change (newline +:+ "```") with (String "010" "```").
  induction code as [|c code IH]; intros H.
  - rewrite append_nil_l. rewrite append_cons. cbn [split_at String.prefix].
    destruct (ascii_dec "010" "010"); [|congruence].
    change ("```" +:+ post) with (String "`" (String "`" (String "`" post))).
    cbn [String.prefix]. repeat (destruct (ascii_dec _ _); [|congruence]).
    rewrite prefix_empty. reflexivity.
  - rewrite contains_cons in H. apply orb_false_iff in H as [Hp Hc].
    rewrite append_cons. cbn [split_at].
    rewrite (IH Hc).
    assert (Hno : String.prefix (String "010" "```") (String c (code +:+ String "010" "```" +:+ post))
                  = false).
    { clear IH Hc. cbn [String.prefix] in *.
      destruct (ascii_dec "010" c); [|reflexivity].
      destruct code as [|c1 [|c2 [|c3 code]]];
        rewrite ?append_cons, ?append_nil_l in *; cbn [String.prefix] in *;
        repeat match goal with
               | |- context [ascii_dec ?a ?b] => destruct (ascii_dec a b); try congruence
               | H : context [ascii_dec ?a ?b] |- _ => destruct (ascii_dec a b); try congruence
               end;
        rewrite ?prefix_empty in *; congruence. }
    rewrite Hno. reflexivity.
Qed.

(** A language without special characters stands for itself in the first
    pattern. *)
Lemma extract_code_literal (re_search : string -> string -> result (option string))
    (text language : string) :
  is_literal language = true ->
  _extract_code re_search text language = Ok (extracted text language).
Proof.
  intros H. unfold _extract_code, search_language, extracted. rewrite H.
  cbn [first_fenced].
  destruct (search_fenced ("```" +:+ language +:+ newline) text); [reflexivity|].
  destruct (search_fenced ("```" +:+ newline) text); [reflexivity|].
  destruct (search_fenced ("```html" +:+ newline) text); [reflexivity|].
  destruct (search_fenced ("```css" +:+ newline) text); [reflexivity|].
  destruct (search_fenced ("```js" +:+ newline) text); [reflexivity|].
  destruct (search_fenced ("```javascript" +:+ newline) text); reflexivity.
Qed.

(** X24. What [_extract_code] takes from an answer of the model, for a
    language that has none of the special characters of [re] (the language
    is put into the pattern as it is).  A text without a code fence is taken
    as it is, without the white space around it.  Of a text with a block
    that is fenced for the language, with no backquote before the opening
    fence and no closing fence inside the code, the code between the fences
    is taken, without the white space around it; what stands before and
    after the block is dropped. *)
Theorem extract_code_cases (re_search : string -> string -> result (option string))
    (language : string) :
  is_literal language = true ->
  (forall text,
      contains "```" text = false ->
      _extract_code re_search text language = Ok (strip text))
  /\ (forall pre code post,
        contains "`" pre = false ->
        contains (newline +:+ "```") code = false ->
        _extract_code re_search
          (pre +:+ ("```" +:+ language +:+ newline) +:+ code +:+ (newline +:+ "```") +:+ post)
          language
        = Ok (strip code)).
Proof.
  intros Hlit. split.
  - intros text H. rewrite (extract_code_literal _ _ _ Hlit). f_equal. unfold extracted.
    assert (Hnone : forall x, search_fenced ("```" +:+ x) text = None).
    { intros x. unfold search_fenced. rewrite split_at_absent; [reflexivity|].
      destruct (contains ("```" +:+ x) text) eqn:Hc; [|reflexivity].
      apply contains_app_l in Hc. congruence. }
    cbn [first_fenced].
    rewrite (Hnone (language +:+ newline)), (Hnone newline).
    change ("```html" +:+ newline) with ("```" +:+ "html" +:+ newline).
    change ("```css" +:+ newline) with ("```" +:+ "css" +:+ newline).
    change ("```js" +:+ newline) with ("```" +:+ "js" +:+ newline).
    change ("```javascript" +:+ newline) with ("```" +:+ "javascript" +:+ newline).
    rewrite !Hnone. reflexivity.
  - intros pre code post Hpre Hcode. rewrite (extract_code_literal _ _ _ Hlit). f_equal.
    unfold extracted. cbn [first_fenced].
    unfold search_fenced at 1.
    change ("```" +:+ language +:+ newline) with (String "`" ("``" +:+ language +:+ newline)).
    rewrite (split_at_fresh "`" _ pre _ Hpre).
    rewrite (split_at_closing_fence code post Hcode). reflexivity.
Qed.

Lemma extract_code_cases_witness :
  is_literal "css" = true
  /\ _extract_code no_regex "  body { margin: 0 }  " "css" = Ok (strip "  body { margin: 0 }  ")
  /\ _extract_code no_regex
       (("Here is the sheet:" +:+ newline) +:+ ("```" +:+ "css" +:+ newline) +:+ "p { } "
        +:+ (newline +:+ "```") +:+ (newline +:+ "Enjoy!")) "css"
     = Ok (strip "p { } ").
Proof.
  split; [reflexivity|]. split.
  - apply (proj1 (extract_code_cases no_regex "css" eq_refl) "  body { margin: 0 }  ").
    reflexivity.
  - apply (proj2 (extract_code_cases no_regex "css" eq_refl) ("Here is the sheet:" +:+ newline)
             "p { } " (newline +:+ "Enjoy!")); reflexivity.
Defined.

Section code_generator_facts.
Context {W : Type}.
Variable F : files_api W.
Variable llm_generate_response : request -> extern W string.
Variable re_search : string -> string -> result (option string).
Variable html_prompt : task_data -> list string -> string.
Variable css_prompt : task_data -> string.
Variable js_prompt : task_data -> list string -> string -> string.
Variable update_prompt : task_data -> string -> string -> list string -> string.

Local Abbreviation await_generate := (CodeGenerator.await_generate llm_generate_response).
Local Abbreviation _generate_html :=
  (CodeGenerator._generate_html llm_generate_response re_search html_prompt).
Local Abbreviation _generate_css :=
  (CodeGenerator._generate_css llm_generate_response re_search css_prompt).
Local Abbreviation attachment_info_loop := (CodeGenerator.attachment_info_loop F).
Local Abbreviation _generate_javascript :=
  (CodeGenerator._generate_javascript F llm_generate_response re_search js_prompt).
Local Abbreviation write_files := (CodeGenerator.write_files F).
Local Abbreviation generate_application :=
  (CodeGenerator.generate_application F llm_generate_response re_search
     html_prompt css_prompt js_prompt).
Local Abbreviation update_application_loop :=
  (CodeGenerator.update_application_loop F llm_generate_response re_search update_prompt).
Local Abbreviation update_application :=
  (CodeGenerator.update_application F llm_generate_response re_search update_prompt).

(** A generation asks the model once; the answer decides the outcome. *)
Lemma generate_html_run (task : task_data) (attachments : list string)
    (s : run W generator_event) :
  exists req r w',
    _generate_html task attachments s
    = (match r with
       | Ok answer => Ok (ensure_doctype (extracted answer "html"))
       | Raise e => Raise e
       end, Run w' (trace s ++ [AskModel req r])).
Proof.
  unfold CodeGenerator._generate_html, bind, CodeGenerator.await_generate.
  destruct (llm_generate_response _ (world s)) as [[answer|e] w'] eqn:Hcall;
    [eexists _, (Ok answer), w'|eexists _, (Raise e), w'];
    rewrite ?(extract_code_literal re_search _ "html" eq_refl); reflexivity.
Qed.

Lemma generate_css_run (task : task_data) (s : run W generator_event) :
  exists req r w',
    _generate_css task s
    = (match r with
       | Ok answer => Ok (extracted answer "css")
       | Raise e => Raise e
       end, Run w' (trace s ++ [AskModel req r])).
Proof.
  unfold CodeGenerator._generate_css, bind, CodeGenerator.await_generate.
  destruct (llm_generate_response _ (world s)) as [[answer|e] w'] eqn:Hcall;
    [eexists _, (Ok answer), w'|eexists _, (Raise e), w'];
    rewrite ?(extract_code_literal re_search _ "css" eq_refl); reflexivity.
Qed.

(** Gathering the contents of the attachments fails only with the
    [KeyError] of a missing name. *)
Lemma attachment_info_loop_error (attachments : list (dict string)) :
  forall (attachment_info : string) (e : exn),
  attachment_info_loop attachments attachment_info = Raise e ->
  e = PyExc "KeyError" "'name'".
Proof.
  induction attachments as [|att attachments IH]; intros info e; [discriminate|].
  cbn [CodeGenerator.attachment_info_loop].
  destruct (negb (falsy (get_attachment_content F att))
            && (String.length (default "" (get_attachment_content F att)) <? 500)%nat).
  - destruct (dict_get "name" att) as [name|]; [apply IH|]. intros [= <-]. reflexivity.
  - apply IH.
Qed.

Lemma generate_javascript_run (task : task_data) (raw_attachments : list (dict string))
    (attachments : list string) (s : run W generator_event) :
  match attachment_info_loop raw_attachments "" with
  | Raise e => _generate_javascript task raw_attachments attachments s = (Raise e, s)
  | Ok _ =>
      exists req r w',
        _generate_javascript task raw_attachments attachments s
        = (match r with
           | Ok answer => Ok (extracted answer "javascript")
           | Raise e => Raise e
           end, Run w' (trace s ++ [AskModel req r]))
  end.
Proof.
  unfold CodeGenerator._generate_javascript, bind at 1.
  destruct (attachment_info_loop raw_attachments "") as [info|e]; [|reflexivity].
  unfold lift at 1, ret at 1, bind, CodeGenerator.await_generate.
  destruct (llm_generate_response _ (world s)) as [[answer|e] w'] eqn:Hcall;
    [eexists _, (Ok answer), w'|eexists _, (Raise e), w'];
    rewrite ?(extract_code_literal re_search _ "javascript" eq_refl); reflexivity.
Qed.

(** The files are written in the order of the dict, up to the first write
    that fails. *)
Lemma write_files_run (workspace_path : string) (files : dict string) :
  forall s : run W generator_event,
  exists r evs w',
    write_files workspace_path files s = (r, Run w' (trace s ++ evs))
    /\ Forall (fun ev => is_write_text ev = true) evs
    /\ (is_ok r = true -> text_writes evs = writes_of files).
Proof.
  induction files as [|[filename content] files IH]; intros s.
  - exists (Ok tt), [], (world s). rewrite app_nil_r. destruct s. repeat split; auto.
  - cbn [CodeGenerator.write_files]. unfold bind at 1, await_write_text at 1.
    destruct (write_text F workspace_path filename content (world s)) as [[[]|e] w1] eqn:Hw.
    + destruct (IH (Run w1 (trace s ++ [WriteText workspace_path filename content (Ok tt)])))
        as (r & evs & w' & -> & Hall & Hok).
      exists r, (WriteText workspace_path filename content (Ok tt) :: evs), w'.
      cbn [trace]. rewrite <- app_assoc. split; [reflexivity|].
      split; [constructor; [reflexivity|exact Hall]|].
      intros Hr. specialize (Hok Hr).
      change (text_writes (WriteText workspace_path filename content (Ok tt) :: evs))
        with ((filename, content, Ok tt) :: text_writes evs).
      rewrite Hok. reflexivity.
    + exists (Raise e), [WriteText workspace_path filename content (Raise e)], w1.
      split; [reflexivity|]. split; [repeat constructor|discriminate].
Qed.
Lemma contains_prefix (a s : string) : String.prefix a s = true -> contains a s = true.
Proof. intros H. destruct s; cbn [contains]; rewrite H; reflexivity. Qed.

Lemma contains_ensure_doctype (html : string) :
  contains "<!DOCTYPE html>" (ensure_doctype html) = true.
Proof.
  unfold ensure_doctype. destruct (contains "<!DOCTYPE html>" html) eqn:H; cbn [negb].
  - exact H.
  - apply contains_prefix, prefix_app.
Qed.

Lemma only_byte_writes (workspace_path : string) (evs : list generator_event) :
  Forall (fun ev => exists name content r, ev = WriteBytes workspace_path name content r) evs ->
  text_writes evs = [] /\ generations evs = [].
Proof.
  induction 1 as [|ev evs (name & content & r & ->) _ [IH1 IH2]]; [auto|].
  split; [exact IH1|exact IH2].
Qed.

Lemma only_generations (evs : list generator_event) :
  Forall (fun ev => is_generate ev = true) evs ->
  text_writes evs = [] /\ length (generations evs) = length evs.
Proof.
  induction 1 as [|ev evs Hev _ [IH1 IH2]]; [auto|].
  destruct ev; try discriminate Hev.
  split; [exact IH1|]. cbn [length]. rewrite <- IH2. reflexivity.
Qed.

Lemma only_text_writes (evs : list generator_event) :
  Forall (fun ev => is_write_text ev = true) evs -> generations evs = [].
Proof.
  induction 1 as [|ev evs Hev _ IH]; [auto|].
  destruct ev; try discriminate Hev. exact IH.
Qed.

(** The course of [generate_application]: the attachments, then the three
    generations, then the three files. *)
Lemma generate_application_spec (task : task_data) (raw_attachments : list (dict string))
    (workspace_path : string) (s : run W generator_event) :
  exists r atts gens writes w',
    generate_application task raw_attachments workspace_path s
    = (r, Run w' (trace s ++ atts ++ gens ++ writes))
    /\ Forall (fun ev => exists name content r,
                 ev = WriteBytes workspace_path name content r) atts
    /\ Forall (fun ev => is_generate ev = true) gens
    /\ Forall (fun ev => is_write_text ev = true) writes
    /\ ((writes = [] /\ is_ok r = false /\ (length gens <= 3)%nat)
        \/ exists a b c,
             generations gens = [Ok a; Ok b; Ok c]
             /\ is_ok (attachment_info_loop raw_attachments "") = true
             /\ (is_ok r = true ->
                 let files := application_files (ensure_doctype (extracted a "html"))
                                (extracted b "css") (extracted c "javascript") in
                 r = Ok files /\ text_writes writes = writes_of files)).
Proof.
  unfold CodeGenerator.generate_application, save_all_attachments, bind at 1.
  destruct (save_all_attachments_loop_spec F workspace_path raw_attachments [] s)
    as (atts & w0 & -> & Hatts & _).
  cbn [app]. set (saved := succeeded (byte_writes atts)).
  set (s0 := Run w0 (trace s ++ atts)).
  unfold bind at 1.
  destruct (generate_html_run task saved s0) as (req1 & r1 & w1 & ->).
  destruct r1 as [a|e].
  2:{ exists (Raise e), atts, [AskModel req1 (Raise e)], [], w1.
      subst s0. cbn [trace]. rewrite app_nil_r, <- app_assoc.
      repeat split; auto; left; cbn; repeat split; auto; lia. }
  set (s1 := Run w1 _). unfold bind at 1.
  destruct (generate_css_run task s1) as (req2 & r2 & w2 & ->).
  destruct r2 as [b|e].
  2:{ exists (Raise e), atts, [AskModel req1 (Ok a); AskModel req2 (Raise e)], [], w2.
      subst s1 s0. cbn [trace]. rewrite app_nil_r, <- !app_assoc.
      repeat split; auto; left; cbn; repeat split; auto; lia. }
  set (s2 := Run w2 _). unfold bind at 1.
  pose proof (generate_javascript_run task raw_attachments saved s2) as Hjs.
  destruct (attachment_info_loop raw_attachments "") as [info|e0] eqn:Hinfo;
    [destruct Hjs as (req3 & r3 & w3 & ->)|rewrite Hjs; clear Hjs].
  2:{ exists (Raise e0), atts,
      [AskModel req1 (Ok a); AskModel req2 (Ok b)], [], w2.
    subst s2 s1 s0. cbn [trace]. rewrite app_nil_r, <- !app_assoc.
    repeat split; auto; left; cbn; repeat split; auto; lia. }
  destruct r3 as [c|e].
  2:{ exists (Raise e), atts,
        [AskModel req1 (Ok a); AskModel req2 (Ok b); AskModel req3 (Raise e)], [], w3.
      subst s2 s1 s0. cbn [trace]. rewrite app_nil_r, <- !app_assoc.
      repeat split; auto; left; cbn; repeat split; auto; lia. }
  set (s3 := Run w3 _). unfold bind at 1.
  fold (application_files (ensure_doctype (extracted a "html")) (extracted b "css")
          (extracted c "javascript")).
  set (files := application_files _ _ _).
  destruct (write_files_run workspace_path files s3) as (r & writes & w' & -> & Hwrites & Hok).
  exists (match r with Ok _ => Ok files | Raise e => Raise e end), atts,
    [AskModel req1 (Ok a); AskModel req2 (Ok b); AskModel req3 (Ok c)], writes, w'.
  subst s3 s2 s1 s0. cbn [trace]. rewrite <- !app_assoc.
  split; [destruct r as [[]|e]; reflexivity|].
  repeat split; auto.
  right. exists a, b, c. split; [reflexivity|]. split; [reflexivity|].
  intros Hr. destruct r as [[]|e]; [|discriminate Hr].
  split; [reflexivity|apply Hok; reflexivity].
Qed.

(** X25. When [generate_application] returns, it returns the three files
    [index.html], [style.css] and [script.js], in this order; the HTML
    holds a doctype; the model was asked three times; and the three files
    were written to the workspace with the contents that are returned. *)
Theorem generate_application_files (task : task_data) (raw_attachments : list (dict string))
    (workspace_path : string) (s s' : run W generator_event) (files : dict string) :
  generate_application task raw_attachments workspace_path s = (Ok files, s') ->
  exists html css js evs,
    files = application_files html css js
    /\ contains "<!DOCTYPE html>" html = true
    /\ trace s' = trace s ++ evs
    /\ length (generations evs) = 3%nat
    /\ text_writes evs = writes_of files.
Proof.
  intros Hrun.
  destruct (generate_application_spec task raw_attachments workspace_path s)
    as (r & atts & gens & writes & w' & Heq & Hatts & Hgens & Hwrites & Hcases).
  rewrite Heq in Hrun. injection Hrun as -> <-.
  destruct Hcases as [(_ & Hr & _)|(a & b & c & Hg & _ & Hok)]; [discriminate Hr|].
  destruct (Hok eq_refl) as [Hfiles Htw]. injection Hfiles as ->.
  exists (ensure_doctype (extracted a "html")), (extracted b "css"),
    (extracted c "javascript"), (atts ++ gens ++ writes).
  destruct (only_byte_writes _ _ Hatts) as [Ha1 Ha2].
  destruct (only_generations _ Hgens) as [Hg1 Hg2].
  split; [reflexivity|].
  split; [apply contains_ensure_doctype|].
  split; [reflexivity|].
  split.
  - rewrite !generations_app, Ha2, (only_text_writes _ Hwrites), Hg, app_nil_r. reflexivity.
  - rewrite !text_writes_app, Ha1, Hg1. exact Htw.
Qed.

(** X26. [generate_application] saves the attachments first, then asks the
    model, at most three times, then writes the files: whatever the outcome,
    no generated file is written unless the three answers have come; so an
    error of the model leaves the workspace without any generated file. *)
Theorem generate_application_writes_last (task : task_data)
    (raw_attachments : list (dict string)) (workspace_path : string)
    (s : run W generator_event) :
  exists r atts gens writes w',
    generate_application task raw_attachments workspace_path s
    = (r, Run w' (trace s ++ atts ++ gens ++ writes))
    /\ Forall (fun ev => is_write_bytes ev = true) atts
    /\ Forall (fun ev => is_generate ev = true) gens
    /\ Forall (fun ev => is_write_text ev = true) writes
    /\ (length gens <= 3)%nat
    /\ (writes <> [] -> exists a b c, generations gens = [Ok a; Ok b; Ok c]).
Proof.
  destruct (generate_application_spec task raw_attachments workspace_path s)
    as (r & atts & gens & writes & w' & Heq & Hatts & Hgens & Hwrites & Hcases).
  exists r, atts, gens, writes, w'.
  split; [exact Heq|].
  split.
  { eapply Forall_impl; [exact Hatts|]. intros ev (name & content & r0 & ->). reflexivity. }
  split; [exact Hgens|]. split; [exact Hwrites|].
  destruct Hcases as [(Hw & _ & Hlen)|(a & b & c & Hg & _ & _)].
  - split; [exact Hlen|]. intros Hne. congruence.
  - destruct (only_generations _ Hgens) as [_ Hlen]. rewrite Hg in Hlen. cbn in Hlen.
    split; [lia|]. intros _. eauto.
Qed.
Lemma attachment_info_loop_nameless (attachments : list (dict string)) (att : dict string)
    (content : string) :
  att ∈ attachments -> dict_get "name" att = None ->
  get_attachment_content F att = Some content -> content <> "" ->
  (String.length content < 500)%nat ->
  forall attachment_info,
    attachment_info_loop attachments attachment_info = Raise (PyExc "KeyError" "'name'").
Proof.
  intros Hin Hname Hcontent Hne Hlen.
  induction attachments as [|att0 attachments IH]; intros info; [inversion Hin|].
  cbn [CodeGenerator.attachment_info_loop].
  apply elem_of_cons in Hin as [<-|Hin].
  - rewrite Hcontent, Hname.
    change (default "" (Some content)) with content.
    destruct content as [|c content]; [congruence|]. cbn [falsy negb andb].
    apply Nat.ltb_lt in Hlen. rewrite Hlen. reflexivity.
  - destruct (negb (falsy (get_attachment_content F att0))
              && (String.length (default "" (get_attachment_content F att0)) <? 500)%nat).
    + destruct (dict_get "name" att0); [apply IH; exact Hin|reflexivity].
    + apply IH. exact Hin.
Qed.

(** X27. An attachment that has no name but a readable content of fewer than
    500 characters is passed over in silence by [save_all_attachments], and
    then makes [_generate_javascript] raise [KeyError('name')] before the
    model is asked: [generate_application] fails on such a task, whatever
    the model answers, and writes no generated file. *)
Theorem nameless_attachment_fails_generation (task : task_data)
    (raw_attachments : list (dict string)) (workspace_path : string)
    (att : dict string) (content : string) (s : run W generator_event) :
  att ∈ raw_attachments -> dict_get "name" att = None ->
  get_attachment_content F att = Some content -> content <> "" ->
  (String.length content < 500)%nat ->
  to_save F att = None
  /\ (forall attachments s0,
        _generate_javascript task raw_attachments attachments s0
        = (Raise (PyExc "KeyError" "'name'"), s0))
  /\ exists e atts gens w',
       generate_application task raw_attachments workspace_path s
       = (Raise e, Run w' (trace s ++ atts ++ gens))
       /\ Forall (fun ev => is_write_bytes ev = true) atts
       /\ Forall (fun ev => is_generate ev = true) gens.
Proof.
  intros Hin Hname Hcontent Hne Hlen.
  pose proof (attachment_info_loop_nameless _ _ _ Hin Hname Hcontent Hne Hlen "") as Hinfo.
  split; [unfold to_save; rewrite Hname; reflexivity|].
  split.
  - intros attachments s0.
    pose proof (generate_javascript_run task raw_attachments attachments s0) as Hjs.
    rewrite Hinfo in Hjs. exact Hjs.
  - destruct (generate_application_spec task raw_attachments workspace_path s)
      as (r & atts & gens & writes & w' & Heq & Hatts & Hgens & Hwrites & Hcases).
    destruct Hcases as [(-> & Hr & _)|(a & b & c & _ & Hok & _)].
    + destruct r as [files|e]; [discriminate Hr|].
      exists e, atts, gens, w'. rewrite app_nil_r in Heq.
      split; [exact Heq|]. split; [|exact Hgens].
      eapply Forall_impl; [exact Hatts|]. intros ev (name & c & r0 & ->). reflexivity.
    + rewrite Hinfo in Hok. discriminate Hok.
Qed.

Lemma split_on_nonempty (sep : ascii) (s : string) : split_on sep s <> [].
Proof.
  induction s as [|c s IH]; [discriminate|].
  cbn [split_on]. destruct (Ascii.eqb c sep); [discriminate|].
  destruct (split_on sep s); discriminate.
Qed.

Lemma file_type_defined (filename : string) :
  py_index (split_on "." filename) (-1) = Some (file_type filename).
Proof.
  unfold file_type. pose proof (split_on_nonempty "." filename) as Hne.
  destruct (py_index_in_range (split_on "." filename)
              (Z.of_nat (length (split_on "." filename)) - 1)) as [x Hx].
  { destruct (split_on "." filename); [congruence|]. cbn [length]. lia. }
  assert (Hlast : py_index (split_on "." filename) (-1) = Some x).
  { unfold py_index in *.
    destruct (split_on "." filename) as [|p ps]; [congruence|].
    cbn [length] in *.
    replace (0 <=? Z.of_nat (S (length ps)) - 1) with true in Hx by (symmetry; apply Z.leb_le; lia).
    replace (0 <=? -1) with false by reflexivity.
    replace (- Z.of_nat (S (length ps)) <=? -1) with true by (symmetry; apply Z.leb_le; lia).
    rewrite <- Hx. f_equal; lia. }
  rewrite Hlast. reflexivity.
Qed.

Lemma dict_set_fresh {V} (k : string) (v : V) (d : dict V) :
  k ∉ keys d -> dict_set k v d = d ++ [(k, v)].
Proof.
  induction d as [|[k' v'] d IH]; intros Hk; [reflexivity|].
  cbn [dict_set]. unfold keys in Hk. cbn [map fst] in Hk.
  apply not_elem_of_cons in Hk as [Hne Hk].
  destruct (String.eqb k' k) eqn:Heq; [apply String.eqb_eq in Heq; congruence|].
  cbn [app]. f_equal. apply IH. exact Hk.
Qed.

(** The loop of [update_application]: each file is written as soon as its
    new content has come. *)
Lemma update_application_loop_spec (task : task_data) (workspace_path : string)
    (saved : list string) (items : dict string) :
  forall (updated_files : dict string) (s s' : run W generator_event) (result : dict string),
  NoDup (keys updated_files ++ keys items) ->
  update_application_loop task workspace_path saved items updated_files s = (Ok result, s') ->
  exists answers contents evs,
    length answers = length items
    /\ length contents = length items
    /\ extractions re_search items answers = map Ok contents
    /\ result = updated_files ++ zip (keys items) contents
    /\ trace s' = trace s ++ evs
    /\ generations evs = map Ok answers
    /\ text_writes evs = writes_of (zip (keys items) contents)
    /\ byte_writes evs = [].
Proof.
  induction items as [|[filename current_content] items IH];
    intros updated_files s s' result Hnodup Hrun.
  - cbn in Hrun. injection Hrun as <- <-. exists [], [], [].
    rewrite !app_nil_r. repeat split; reflexivity.
  - cbn [CodeGenerator.update_application_loop] in Hrun.
    unfold bind at 1, CodeGenerator.await_generate at 1 in Hrun.
    match type of Hrun with
    | context [llm_generate_response ?q ?w] =>
        destruct (llm_generate_response q w) as [[answer|e] w1] eqn:Hcall; [|discriminate Hrun];
        set (req := q) in *
    end.
    rewrite file_type_defined in Hrun.
    unfold bind at 1, lift at 1 in Hrun.
    destruct (_extract_code re_search answer (file_type filename)) as [content|e] eqn:Hx;
      [|discriminate Hrun].
    unfold ret at 1 in Hrun.
    unfold bind at 1, await_write_text at 1 in Hrun. cbn [world trace] in Hrun.
    destruct (write_text F workspace_path filename content w1) as [[[]|e] w2] eqn:Hw;
      [|discriminate Hrun].
    assert (Hfresh : filename ∉ keys updated_files).
    { unfold keys in Hnodup. cbn [map fst] in Hnodup.
      apply NoDup_app in Hnodup as (_ & Hdisj & _).
      intros Hin. apply (Hdisj _ Hin). left. }
    rewrite (dict_set_fresh _ _ _ Hfresh) in Hrun.
    apply IH in Hrun.
    2:{ unfold keys in *. rewrite map_app. cbn [map fst] in *.
        rewrite <- app_assoc. exact Hnodup. }
    destruct Hrun as (answers & contents & evs & Hlen & Hlen' & Hext & -> & -> & Hg & Htw & Hbw).
    exists (answer :: answers), (content :: contents),
      ([AskModel req (Ok answer); WriteText workspace_path filename content (Ok tt)] ++ evs).
    cbn [trace]. rewrite <- !app_assoc.
    split; [cbn [length]; lia|].
    split; [cbn [length]; lia|].
    split.
    { unfold extractions in *. cbn [zip_with map fst]. rewrite Hx, Hext. reflexivity. }
    split; [reflexivity|].
    split; [reflexivity|].
    split; [rewrite generations_app, Hg; reflexivity|].
    split; [rewrite text_writes_app, Htw; reflexivity|].
    rewrite byte_writes_app, Hbw. reflexivity.
Qed.

Lemma keys_zip {V} (ks : list string) (vs : list V) :
  length vs = length ks -> keys (zip ks vs) = ks.
Proof.
  unfold keys. revert vs. induction ks as [|k ks IH]; intros [|v vs] H;
    try discriminate H; [reflexivity|].
  cbn [zip_with map fst]. f_equal. apply IH. cbn [length] in H. lia.
Qed.

(** X28. When [update_application] returns, it returns one file for each
    existing file, under the same name and in the same order: the content
    is what [_extract_code] has returned for the answer of the model and the
    file type that the name ends with (which is put into the pattern as it
    is; when [_extract_code] raises, so does [update_application]).  The
    model was asked once for each file, and each file was written to the
    workspace. *)
Theorem update_application_files (task : task_data) (raw_attachments : list (dict string))
    (workspace_path : string) (existing_files updated_files : dict string)
    (s s' : run W generator_event) :
  NoDup (keys existing_files) ->
  update_application task raw_attachments workspace_path existing_files s
  = (Ok updated_files, s') ->
  keys updated_files = keys existing_files
  /\ exists answers contents evs,
       length answers = length existing_files
       /\ extractions re_search existing_files answers = map Ok contents
       /\ updated_files = zip (keys existing_files) contents
       /\ trace s' = trace s ++ evs
       /\ generations evs = map Ok answers
       /\ text_writes evs = writes_of updated_files.
Proof.
  intros Hnodup Hrun.
  unfold CodeGenerator.update_application, save_all_attachments, bind in Hrun.
  destruct (save_all_attachments_loop_spec F workspace_path raw_attachments [] s)
    as (atts & w0 & Hsave & Hatts & _).
  rewrite Hsave in Hrun.
  apply update_application_loop_spec in Hrun; [|exact Hnodup].
  destruct Hrun as (answers & contents & evs & Hlen & Hlen' & Hext & -> & Htr & Hg & Htw & _).
  cbn [app trace] in *.
  destruct (only_byte_writes _ _ Hatts) as [Ha1 Ha2].
  split.
  - apply keys_zip. rewrite Hlen'. unfold keys. rewrite length_map. reflexivity.
  - exists answers, contents, (atts ++ evs). rewrite Htr, <- app_assoc.
    repeat split; auto.
    + rewrite generations_app, Ha2. exact Hg.
    + rewrite text_writes_app, Ha1. exact Htw.
Qed.
End code_generator_facts.

Lemma generate_application_files_witness :
  let files := application_files ("<!DOCTYPE html>" +:+ newline +:+ "<p>Hi</p>")
                 "<p>Hi</p>" "<p>Hi</p>" in
  exists html css js evs,
    files = application_files html css js
    /\ contains "<!DOCTYPE html>" html = true
    /\ trace sample_generation.2 = trace (Run 0%nat []) ++ evs
    /\ length (generations evs) = 3%nat
    /\ text_writes evs = writes_of files.
Proof.
  intros files.
  apply (generate_application_files ascii_files (parrot "<p>Hi</p>") no_regex
           no_prompt2 no_prompt1 no_prompt3 (sample_task 1) [] "/tmp/w"
           (Run 0%nat []) sample_generation.2 files).
  reflexivity.
Defined.

Lemma nameless_attachment_fails_generation_witness :
  to_save ascii_files nameless_attachment = None
  /\ (forall attachments s0,
        CodeGenerator._generate_javascript ascii_files (parrot "<p>Hi</p>") no_regex no_prompt3
          (sample_task 1) [nameless_attachment] attachments s0
        = (Raise (PyExc "KeyError" "'name'"), s0))
  /\ exists e atts gens w',
       CodeGenerator.generate_application ascii_files (parrot "<p>Hi</p>") no_regex
         no_prompt2 no_prompt1 no_prompt3 (sample_task 1) [nameless_attachment] "/tmp/w"
         (Run 0%nat [])
       = (Raise e, Run w' (trace (Run 0%nat [] : run nat generator_event) ++ atts ++ gens))
       /\ Forall (fun ev => is_write_bytes ev = true) atts
       /\ Forall (fun ev => is_generate ev = true) gens.
Proof.
  apply (nameless_attachment_fails_generation ascii_files (parrot "<p>Hi</p>") no_regex
           no_prompt2 no_prompt1 no_prompt3 (sample_task 1) [nameless_attachment] "/tmp/w"
           nameless_attachment "hello" (Run 0%nat [])).
  - apply list_elem_of_singleton. reflexivity.
  - reflexivity.
  - reflexivity.
  - discriminate.
  - cbn. lia.
Defined.

Lemma update_application_files_witness :
  let updated_files := application_files "<p>Hi</p>" "<p>Hi</p>" "<p>Hi</p>" in
  keys updated_files = keys existing_files_placeholder
  /\ exists answers contents evs,
       length answers = length existing_files_placeholder
       /\ extractions no_regex existing_files_placeholder answers = map Ok contents
       /\ updated_files = zip (keys existing_files_placeholder) contents
       /\ trace sample_update.2 = trace (Run 0%nat [] : run nat generator_event) ++ evs
       /\ generations evs = map Ok answers
       /\ text_writes evs = writes_of updated_files.
Proof.
  intros updated_files.
  apply (update_application_files ascii_files (parrot "<p>Hi</p>") no_regex no_prompt4
           (sample_task 2) [] "/tmp/w" existing_files_placeholder updated_files
           (Run 0%nat []) sample_update.2).
  - unfold keys. cbn. repeat constructor; rewrite ?elem_of_cons, elem_of_nil;
      intros H; repeat destruct H as [H|H]; discriminate || exact H.
  - reflexivity.
Defined.

(** ** src/agent/orchestrator.py: the URLs of round 2 *)

Lemma all_chars_app (f : ascii -> bool) (a b : string) :
  all_chars f (a +:+ b) = all_chars f a && all_chars f b.
Proof.
  induction a as [|c a IH]; [reflexivity|].
  rewrite append_cons. cbn [all_chars]. rewrite IH, andb_assoc. reflexivity.
Qed.

Lemma all_chars_impl (f g : ascii -> bool) (s : string) :
  (forall c, f c = true -> g c = true) -> all_chars f s = true -> all_chars g s = true.
Proof.
  intros Hfg. induction s as [|c s IH]; [reflexivity|].
  cbn [all_chars]. intros H. apply andb_true_iff in H as [Hc Hs].
  rewrite (Hfg _ Hc), (IH Hs). reflexivity.
Qed.

Lemma prefix_all_chars (f : ascii -> bool) (needle : string) : forall s,
  String.prefix needle s = true -> all_chars f s = true -> all_chars f needle = true.
Proof.
  induction needle as [|c needle IH]; intros s Hp Hs; [reflexivity|].
  destruct s as [|c' s]; [discriminate Hp|].
  cbn [String.prefix] in Hp. destruct (ascii_dec c c') as [<-|]; [|discriminate Hp].
  cbn [all_chars] in *. apply andb_true_iff in Hs as [Hc Hs].
  rewrite Hc, (IH _ Hp Hs). reflexivity.
Qed.

(** A text cannot hold a needle one of whose characters it does not have. *)
Lemma contains_foreign (f : ascii -> bool) (needle s : string) :
  all_chars f needle = false -> all_chars f s = true -> contains needle s = false.
Proof.
  intros Hn. induction s as [|c s IH]; intros Hs.
  - cbn [contains]. rewrite orb_false_r.
    destruct (String.prefix needle "") eqn:Hp; [|reflexivity].
    rewrite (prefix_all_chars f _ _ Hp Hs) in Hn. discriminate Hn.
  - rewrite contains_cons. apply orb_false_iff. split.
    + destruct (String.prefix needle (String c s)) eqn:Hp; [|reflexivity].
      rewrite (prefix_all_chars f _ _ Hp Hs) in Hn. discriminate Hn.
    + apply IH. cbn [all_chars] in Hs. apply andb_true_iff in Hs as [_ Hs]. exact Hs.
Qed.

Lemma split_on_whole (sep : ascii) (s : string) :
  all_chars (fun c => negb (Ascii.eqb c sep)) s = true -> split_on sep s = [s].
Proof.
  induction s as [|c s IH]; [reflexivity|].
  cbn [all_chars split_on]. intros H. apply andb_true_iff in H as [Hc Hs].
  apply negb_true_iff in Hc. rewrite Hc, (IH Hs). reflexivity.
Qed.

Lemma split_on_cut (sep : ascii) (a b : string) :
  all_chars (fun c => negb (Ascii.eqb c sep)) a = true ->
  split_on sep (a +:+ String sep b) = a :: split_on sep b.
Proof.
  induction a as [|c a IH]; intros H.
  - rewrite append_nil_l. cbn [split_on]. rewrite Ascii.eqb_refl. reflexivity.
  - cbn [all_chars] in H. apply andb_true_iff in H as [Hc Ha].
    apply negb_true_iff in Hc.
    rewrite append_cons. cbn [split_on]. rewrite Hc, (IH Ha). reflexivity.
Qed.

Lemma id_char_not_slash (c : ascii) :
  is_id_char c = true -> negb (Ascii.eqb c "/") = true.
Proof.
  intros H. destruct (Ascii.eqb c "/") eqn:Heq; [|reflexivity].
  apply Ascii.eqb_eq in Heq. subst c. discriminate H.
Qed.

Lemma owner_repo_path_chars (owner repo : string) :
  all_chars is_id_char owner = true -> all_chars is_id_char repo = true ->
  all_chars is_path_char (owner +:+ "/" +:+ repo) = true.
Proof.
  intros Ho Hr. rewrite all_chars_app.
  change ("/" +:+ repo) with (String "/" repo). cbn [all_chars].
  rewrite (all_chars_impl is_id_char is_path_char owner), (all_chars_impl is_id_char is_path_char repo);
    auto; intros c Hc; unfold is_path_char; rewrite Hc; reflexivity.
Qed.

(** [owner] and [repo], as round 2 reads them in the URL of the
    repository. *)
Lemma owner_repo_pieces (owner repo : string) :
  all_chars is_id_char owner = true -> all_chars is_id_char repo = true ->
  split_on "/"
    (replace ".git" "" (replace "https://github.com/" ""
                          ("https://github.com/" +:+ owner +:+ "/" +:+ repo)))
  = [owner; repo].
Proof.
  intros Ho Hr. pose proof (owner_repo_path_chars owner repo Ho Hr) as Hpath.
  rewrite replace_prefix;
    [|discriminate|apply (contains_foreign is_path_char); [reflexivity|exact Hpath]].
  rewrite append_nil_l.
  rewrite replace_absent
    by (apply (contains_foreign is_path_char); [reflexivity|exact Hpath]).
  change ("/" +:+ repo) with (String "/" repo).
  rewrite split_on_cut by (apply (all_chars_impl is_id_char); [apply id_char_not_slash|exact Ho]).
  rewrite split_on_whole by (apply (all_chars_impl is_id_char); [apply id_char_not_slash|exact Hr]).
  reflexivity.
Qed.

Lemma replace_go_miss (old new : string) (c : ascii) (s : string) :
  String.prefix old (String c s) = false ->
  replace_go old new 0 (String c s) = String c (replace_go old new 0 s).
Proof. intros H. cbn [replace_go]. rewrite H. reflexivity. Qed.

Lemma contains_miss (needle : string) (c : ascii) (s : string) :
  String.prefix needle (String c s) = false ->
  contains needle (String c s) = contains needle s.
Proof. intros H. rewrite contains_cons, H. reflexivity. Qed.

(** The URL of the pages for which round 2 writes the README. *)
Lemma readme_pages_url (owner repo : string) :
  all_chars is_id_char owner = true -> all_chars is_id_char repo = true ->
  replace ".git" "/" (replace "github.com" "github.io"
                        ("https://github.com/" +:+ owner +:+ "/" +:+ repo))
  = "https://github.io/" +:+ owner +:+ "/" +:+ repo.
Proof.
  intros Ho Hr. pose proof (owner_repo_path_chars owner repo Ho Hr) as Hpath.
  set (rest := owner +:+ "/" +:+ repo) in *.
  assert (Hrest : all_chars is_path_char (String "/" rest) = true) by exact Hpath.
  assert (Hinner : replace "github.com" "github.io" ("https://github.com/" +:+ rest)
                   = "https://github.io/" +:+ rest).
  { change ("https://github.com/" +:+ rest)
      with (String "h" (String "t" (String "t" (String "p" (String "s" (String ":"
             (String "/" (String "/" ("github.com" +:+ String "/" rest))))))))).
    unfold replace. rewrite !replace_go_miss by reflexivity.
    fold (replace "github.com" "github.io" ("github.com" +:+ String "/" rest)).
    rewrite replace_prefix;
      [|discriminate|apply (contains_foreign is_path_char); [reflexivity|exact Hrest]].
    reflexivity. }
  rewrite Hinner. apply replace_absent.
  change ("https://github.io/" +:+ rest)
    with (String "h" (String "t" (String "t" (String "p" (String "s" (String ":"
           (String "/" (String "/" (String "g" (String "i" (String "t" (String "h"
           (String "u" (String "b" (String "." (String "i" (String "o"
           (String "/" rest)))))))))))))))))).
  rewrite !contains_miss by reflexivity.
  apply (contains_foreign is_path_char); [reflexivity|exact Hpath].
Qed.

Lemma bind_ok {S A B} (m : M S A) (k : A -> M S B) s b s' :
  bind m k s = (Ok b, s') -> exists a s1, m s = (Ok a, s1) /\ k a s1 = (Ok b, s').
Proof.
  unfold bind. destruct (m s) as [[a|e] s1]; [eauto|discriminate].
Qed.

Lemma outside_call_trace {U A} ev (op : extern U A) (s s' : run (host U) task_event) r :
  outside_call ev op s = (r, s') -> trace s' = trace s ++ [ev].
Proof.
  unfold outside_call. destruct (op (beyond (world s))) as [r0 u']. intros [= _ <-]. reflexivity.
Qed.

Lemma dict_get_set {V} (k : string) (v : V) (d : dict V) :
  dict_get k (dict_set k v d) = Some v.
Proof.
  induction d as [|[k' v'] d IH]; cbn [dict_set dict_get].
  - rewrite String.eqb_refl. reflexivity.
  - destruct (String.eqb k' k) eqn:Heq; cbn [dict_get].
    + rewrite String.eqb_refl. reflexivity.
    + rewrite Heq. exact IH.
Qed.

(** X29. Round 2 on a repository [https://github.com/<owner>/<repo>] whose
    names are made of letters, digits, [_] and [-]: when it succeeds, the
    deployment that it returns has the URL of the repository and the pages
    URL [https://<owner>.github.io/<repo>/]; the README that it commits,
    however, was written for the pages URL
    [https://github.io/<owner>/<repo>]. *)
Theorem round2_pages_urls {U : Type} (C : collaborators U) (task : task_data)
    (owner repo : string) (s s' : run (host U) task_event) (result : act_result) :
  all_chars is_id_char owner = true -> all_chars is_id_char repo = true ->
  process_round2_task C task ("https://github.com/" +:+ owner +:+ "/" +:+ repo) s
  = (Ok result, s') ->
  repo_url (deployment result) = "https://github.com/" +:+ owner +:+ "/" +:+ repo
  /\ pages_url (deployment result) = "https://" +:+ owner +:+ ".github.io/" +:+ repo +:+ "/"
  /\ status result = "completed"
  /\ exists (updated_files : dict string) code_explanation files message,
       UpdateRepository ("https://github.com/" +:+ owner +:+ "/" +:+ repo) files message
       ∈ trace s'
       /\ dict_get "README.md" files
          = Some (generate_readme C (task_id task) (brief task) (checks task)
                    ("https://github.com/" +:+ owner +:+ "/" +:+ repo)
                    ("https://github.io/" +:+ owner +:+ "/" +:+ repo)
                    (keys updated_files) code_explanation).
Proof.
  intros Ho Hr Hrun. set (url := "https://github.com/" +:+ owner +:+ "/" +:+ repo) in *.
  unfold process_round2_task in Hrun.
  apply bind_ok in Hrun as (id & s1 & _ & Hrun). cbv zeta in Hrun.
  unfold try_finally in Hrun.
  destruct (process_round2_task_try C task url id ("/tmp/workspace_" +:+ id) s1)
    as [r0 s2] eqn:Htry.
  destruct (cleanup_workspace_spec C ("/tmp/workspace_" +:+ id) s2)
    as (s3 & evs3 & Hclean & Htr3 & _).
  rewrite Hclean in Hrun. injection Hrun as -> <-.
  unfold process_round2_task_try in Htry. cbv zeta in Htry.
  apply bind_ok in Htry as (path & sa & _ & Htry).
  apply bind_ok in Htry as (updated_files & sb & _ & Htry).
  apply bind_ok in Htry as (code_explanation & sc & _ & Htry).
  apply bind_ok in Htry as (sha & sd & Hupd & Htry).
  apply outside_call_trace in Hupd.
  subst url. rewrite (owner_repo_pieces owner repo Ho Hr) in Htry.
  change (subscript_piece [owner; repo] 0) with (ret (S := run (host U) task_event) owner) in Htry.
  change (subscript_piece [owner; repo] 1) with (ret (S := run (host U) task_event) repo) in Htry.
  apply bind_ok in Htry as (owner' & se & [= <- <-] & Htry).
  apply bind_ok in Htry as (repo' & sf & [= <- <-] & Htry).
  apply bind_ok in Htry as ([] & sg & Hcb & Htry).
  injection Htry as <- <-.
  destruct (calm_send_evaluation_callback C task _ _ _ _ Hcb) as (evs & Htr & _).
  cbn [deployment repo_url pages_url status].
  repeat split.
  eexists updated_files, code_explanation, _, _. split.
  - rewrite Htr3, Htr, Hupd. rewrite !elem_of_app. left. left. right.
    apply list_elem_of_singleton. reflexivity.
  - rewrite dict_get_set, (readme_pages_url owner repo Ho Hr). reflexivity.
Qed.

Lemma round2_pages_urls_witness :
  let C := lab (Ok tt) (Ok tt) (Some (DbTask (Some "https://github.com/user/sales"))) in
  let run := process_round2_task C (sample_task 2)
               ("https://github.com/" +:+ "user" +:+ "/" +:+ "sales")
               (start (Host ∅ ∅ 0%nat)) in
  let result := ActResult "0001" 4
                  (Deployment "https://github.com/user/sales" "def456"
                     "https://user.github.io/sales/") "completed" in
  repo_url (deployment result) = "https://github.com/" +:+ "user" +:+ "/" +:+ "sales"
  /\ pages_url (deployment result) = "https://" +:+ "user" +:+ ".github.io/" +:+ "sales" +:+ "/"
  /\ status result = "completed"
  /\ exists (updated_files : dict string) code_explanation files message,
       UpdateRepository ("https://github.com/" +:+ "user" +:+ "/" +:+ "sales") files message
       ∈ trace run.2
       /\ dict_get "README.md" files
          = Some (generate_readme C (task_id (sample_task 2)) (brief (sample_task 2))
                    (checks (sample_task 2))
                    ("https://github.com/" +:+ "user" +:+ "/" +:+ "sales")
                    ("https://github.io/" +:+ "user" +:+ "/" +:+ "sales")
                    (keys updated_files) code_explanation).
Proof.
  intros C run result.
  apply (round2_pages_urls C (sample_task 2) "user" "sales" (start (Host ∅ ∅ 0%nat)) run.2
           result eq_refl eq_refl).
  vm_compute. reflexivity.
Defined.

(** ** src/agent/tools.py: [AgentTools.close] *)

(** A cleanup forgets the workspace unless the removal of its directory
    fails. *)
Lemma cleanup_workspace_pops {U} (C : collaborators U) (path : string)
    (s : run (host U) task_event) :
  (path ∈ dirs (world s) -> is_ok (fst (rmtree C path (beyond (world s)))) = true) ->
  exists s' evs,
    cleanup_workspace C path s = (Ok tt, s')
    /\ trace s' = trace s ++ CleanupWorkspace path :: evs
    /\ Forall (fun ev => is_cleanup ev = false) evs
    /\ workspaces (world s') = delete path (workspaces (world s)).
Proof.
  intros Hrm.
  unfold cleanup_workspace, bind at 1, emit. cbn [world trace].
  unfold try_except, cleanup_workspace_try, bind at 1, path_exists. cbn [world trace].
  destruct (bool_decide (path ∈ dirs (world s))) eqn:Hin.
  - apply bool_decide_eq_true in Hin. specialize (Hrm Hin).
    unfold bind at 1, shutil_rmtree. cbn [world trace beyond dirs workspaces].
    destruct (rmtree C path (beyond (world s))) as [[[]|e] u']; [|discriminate Hrm].
    eexists _, [_]. split; [reflexivity|]. cbn [world trace workspaces].
    split; [rewrite <- app_assoc; reflexivity|].
    split; [repeat constructor|reflexivity].
  - eexists _, []. split; [reflexivity|]. cbn [world trace workspaces].
    split; [reflexivity|]. split; [constructor|reflexivity].
Qed.

Lemma cleanups_app (l1 l2 : list task_event) : cleanups (l1 ++ l2) = cleanups l1 ++ cleanups l2.
Proof. unfold cleanups. apply filter_app. Qed.

Lemma cleanups_none (evs : list task_event) :
  Forall (fun ev => is_cleanup ev = false) evs -> cleanups evs = [].
Proof.
  induction 1 as [|ev evs Hev _ IH]; [reflexivity|].
  unfold cleanups in *. rewrite filter_cons_False by congruence. exact IH.
Qed.

(** X30. [AgentTools.close] cleans the workspaces while it iterates over the
    dict that tracks them, and a cleanup that goes well takes its workspace
    out of that dict.  So when the first workspace of the iteration is
    tracked and its directory can be removed (or is not there), [close]
    raises [RuntimeError] as soon as it asks for the next workspace: one
    workspace has been cleaned, and the others, if any, stay tracked. *)
Theorem close_raises_after_first_cleanup {U : Type} (C : collaborators U)
    (workspace_path : string) (values : list string) (s : run (host U) task_event) :
  workspaces (world s) !! workspace_path = Some workspace_path ->
  (workspace_path ∈ dirs (world s) ->
   is_ok (fst (rmtree C workspace_path (beyond (world s)))) = true) ->
  exists s' evs,
    close C (workspace_path :: values) s
    = (Raise (PyExc "RuntimeError" "dictionary changed size during iteration"), s')
    /\ trace s' = trace s ++ evs
    /\ cleanups evs = [CleanupWorkspace workspace_path]
    /\ workspaces (world s') = delete workspace_path (workspaces (world s)).
Proof.
  intros Htracked Hrm.
  destruct (cleanup_workspace_pops C workspace_path s Hrm)
    as (s1 & evs & Hclean & Htr & Hcalm & Hws).
  exists s1, (CleanupWorkspace workspace_path :: evs).
  unfold close. cbn [close_loop].
  rewrite bool_decide_eq_true_2 by reflexivity.
  unfold bind. rewrite Hclean.
  assert (Hsize : size (workspaces (world s1)) <> size (workspaces (world s))).
  { rewrite Hws, map_size_delete, Htracked.
    pose proof (map_size_ne_0_lookup_2 (workspaces (world s)) workspace_path
                  (mk_is_Some _ _ Htracked)).
    lia. }
  destruct values as [|v values]; cbn [close_loop];
    rewrite (bool_decide_eq_false_2 _ Hsize);
    (split; [reflexivity|]); (split; [exact Htr|]);
    (split; [|exact Hws]);
    change (CleanupWorkspace workspace_path :: evs)
      with ([CleanupWorkspace workspace_path] ++ evs);
    rewrite cleanups_app, (cleanups_none _ Hcalm); reflexivity.
Qed.

Lemma close_raises_after_first_cleanup_witness :
  let C := lab (Ok tt) (Ok tt) None in
  let s := start (Host {["/tmp/workspace_a"; "/tmp/workspace_b"]}
                    {["/tmp/workspace_a" := "/tmp/workspace_a";
                      "/tmp/workspace_b" := "/tmp/workspace_b"]} 0%nat) in
  exists s' evs,
    close C ["/tmp/workspace_a"; "/tmp/workspace_b"] s
    = (Raise (PyExc "RuntimeError" "dictionary changed size during iteration"), s')
    /\ trace s' = trace s ++ evs
    /\ cleanups evs = [CleanupWorkspace "/tmp/workspace_a"]
    /\ workspaces (world s') = delete "/tmp/workspace_a" (workspaces (world s)).
Proof.
  intros C s.
  apply (close_raises_after_first_cleanup C "/tmp/workspace_a" ["/tmp/workspace_b"] s).
  - vm_compute. reflexivity.
  - intros _. reflexivity.
Defined.

(** ** The task table *)

Lemma unique_key {A K : Type} (f : A -> K) (l : list A) (x y : A) :
  NoDup (map f l) -> x ∈ l -> y ∈ l -> f x = f y -> x = y.
Proof.
  induction l as [|a l IH]; intros Hnd Hx Hy Hf.
  - inversion Hx.
  - cbn [map] in Hnd. apply NoDup_cons in Hnd as [Ha Hnd].
    apply elem_of_cons in Hx as [->|Hx]; apply elem_of_cons in Hy as [->|Hy].
    + reflexivity.
    + exfalso. apply Ha. rewrite Hf. apply (list_elem_of_fmap_2 f). exact Hy.
    + exfalso. apply Ha. rewrite <- Hf. apply (list_elem_of_fmap_2 f). exact Hx.
    + apply IH; assumption.
Qed.

Lemma filter_none {A} (P : A -> Prop) `{!forall x, Decision (P x)} (l : list A) :
  Forall (fun x => ~ P x) l -> filter P l = [].
Proof.
  induction 1 as [|x l Hx _ IH]; [reflexivity|].
  rewrite filter_cons_False by exact Hx. exact IH.
Qed.

Lemma extends_refl db : extends db db.
Proof. intros r Hr. exists r. auto. Qed.

Lemma extends_trans db1 db2 db3 : extends db1 db2 -> extends db2 db3 -> extends db1 db3.
Proof.
  intros H12 H23 r Hr.
  destruct (H12 r Hr) as (r2 & Hr2 & Hid & Htask & Hround).
  destruct (H23 r2 Hr2) as (r3 & Hr3 & Hid' & Htask' & Hround').
  exists r3. repeat split; congruence.
Qed.

Lemma kept_refl db : kept db db.
Proof. intros H. split; [exact H|apply extends_refl]. Qed.

Lemma kept_trans db1 db2 db3 : kept db1 db2 -> kept db2 db3 -> kept db1 db3.
Proof.
  intros H12 H23 Hwf. destruct (H12 Hwf) as [Hwf2 He2]. destruct (H23 Hwf2) as [Hwf3 He3].
  split; [exact Hwf3|exact (extends_trans _ _ _ He2 He3)].
Qed.

Lemma kept_update_row id assign db :
  (forall r, row_id (assign r) = row_id r /\ row_task_id (assign r) = row_task_id r
             /\ row_nonce (assign r) = row_nonce r /\ row_round (assign r) = row_round r) ->
  kept db (update_row id assign db).
Proof.
  intros Hassign (Hid & Htask & Hnonce).
  assert (Hsame : forall (K : Type) (f : task_row -> K),
             (forall r, f (assign r) = f r) ->
             map f (tasks (update_row id assign db)) = map f (tasks db)).
  { intros K f Hf. unfold update_row. cbn [tasks]. rewrite map_map.
    apply map_ext. intros r. destruct (row_id r =? id); [apply Hf|reflexivity]. }
  split.
  - unfold well_formed.
    rewrite (Hsame _ row_id), (Hsame _ row_task_id), (Hsame _ row_nonce);
      [auto|intros r; apply Hassign..].
  - intros r Hr.
    exists (if row_id r =? id then assign r else r). split.
    + unfold update_row. cbn [tasks].
      apply (list_elem_of_fmap_2 (fun r => if row_id r =? id then assign r else r)).
      exact Hr.
    + destruct (row_id r =? id); [|auto]. destruct (Hassign r) as (? & ? & ? & ?). auto.
Qed.

Section database_facts.
Context {V : Type}.
Variable E : engine V.
Hypothesis E_orderly : orderly E.

(** How a session ends: without a change, or with the changes of its
    statement, which it may report or not. *)
Lemma session_cases {A} (statement : database -> V -> result (A * database) * V)
    (s s' : store V) (r : result A) :
  session E statement s = (r, s') ->
  (table s' = fst (others E (table s) (rest s)) /\ exists e, r = Raise e)
  \/ exists a v1 v2,
       statement (fst (others E (table s) (rest s))) v1 = (Ok (a, table s'), v2)
       /\ (r = Ok a \/ exists e, r = Raise e).
Proof.
  unfold session. destruct (others E (table s) (rest s)) as [db v]. cbn [fst].
  destruct (failure E v) as [[e|] v1].
  - intros [= <- <-]. left. eauto.
  - destruct (statement db v1) as [[[a changes]|e] v2] eqn:Hst.
    + destruct (failure E v2) as [[e|] v3]; intros [= <- <-]; right;
        exists a, v1, v2; (split; [exact Hst|eauto]).
    + intros [= <- <-]. left. eauto.
Qed.

Lemma kept_others (s : store V) : kept (table s) (fst (others E (table s) (rest s))).
Proof. intros Hwf. apply E_orderly, Hwf. Qed.

(** A session whose statement keeps the tables keeps them. *)
Lemma kept_session {A} (statement : database -> V -> result (A * database) * V)
    (s s' : store V) (r : result A) :
  (forall db v a db' v', statement db v = (Ok (a, db'), v') -> kept db db') ->
  session E statement s = (r, s') -> kept (table s) (table s').
Proof.
  intros Hst Hrun. apply session_cases in Hrun as [[-> _]|(a & v1 & v2 & Hok & _)].
  - apply kept_others.
  - eapply kept_trans; [apply kept_others|exact (Hst _ _ _ _ _ Hok)].
Qed.

Lemma kept_update_task_status id status s r s' :
  db_update_task_status E id status s = (r, s') -> kept (table s) (table s').
Proof.
  apply kept_session. intros db v a db' v' [= _ <- _].
  apply kept_update_row. intros row. repeat split.
Qed.

Lemma kept_update_task_deployment id repo pages s r s' :
  db_update_task_deployment E id repo pages s = (r, s') -> kept (table s) (table s').
Proof.
  apply kept_session. intros db v a db' v' [= _ <- _].
  apply kept_update_row. intros row. repeat split.
Qed.

Lemma kept_update_task_error id message s r s' :
  db_update_task_error E id message s = (r, s') -> kept (table s) (table s').
Proof.
  apply kept_session. intros db v a db' v' [= _ <- _].
  apply kept_update_row. intros row. repeat split.
Qed.

Lemma kept_get_task_by_task_id_and_round task_id round s r s' :
  db_get_task_by_task_id_and_round E task_id round s = (r, s') -> kept (table s) (table s').
Proof.
  apply kept_session. intros db v a db' v' H.
  destruct (scalar_one_or_none _) in H; [|discriminate].
  injection H as _ <- _; apply kept_refl.
Qed.

Lemma kept_get_submission_by_email email s r s' :
  get_submission_by_email E email s = (r, s') -> kept (table s) (table s').
Proof.
  apply kept_session. intros db v a db' v' H.
  destruct (scalar_one_or_none _) in H; [|discriminate].
  injection H as _ <- _; apply kept_refl.
Qed.

Lemma kept_get_or_create_submission email endpoint secret s r s' :
  get_or_create_submission E email endpoint secret s = (r, s') -> kept (table s) (table s').
Proof.
  apply kept_session. intros db v a db' v' H.
  destruct (scalar_one_or_none _) as [[found|]|e] in H.
  - injection H as _ <- _. apply kept_refl.
  - destruct (next_id E _ v) as [id v1]. destruct (bool_decide _); [discriminate|].
    injection H as _ <- _. intros Hwf. split; [exact Hwf|].
    intros row Hrow. exists row. auto.
  - discriminate.
Qed.

(** What [add_task] stores. *)
Lemma add_task_stores submission_id task db v row db' v' :
  add_task E submission_id task db v = (Ok (row, db'), v') ->
  tasks db' = tasks db ++ [row]
  /\ row_task_id row = task_id task
  /\ row_round row = round task
  /\ (row_id row ∉ map row_id (tasks db))
  /\ (row_task_id row ∉ map row_task_id (tasks db))
  /\ (row_nonce row ∉ map row_nonce (tasks db)).
Proof.
  unfold add_task. destruct (next_id E _ v) as [id v1].
  destruct (conflicts db (new_task_row id submission_id task)) eqn:Hconf; [discriminate|].
  intros [= <- <- _].
  unfold conflicts in Hconf.
  apply orb_false_elim in Hconf as [Hconf Hnonce].
  apply orb_false_elim in Hconf as [Hid Htask].
  apply bool_decide_eq_false in Hid, Htask, Hnonce.
  repeat split; assumption.
Qed.

Lemma kept_add_task submission_id task db v row db' v' :
  add_task E submission_id task db v = (Ok (row, db'), v') -> kept db db'.
Proof.
  intros H. apply add_task_stores in H as (Htasks & _ & _ & Hid & Htask & Hnonce).
  intros (H1 & H2 & H3). split.
  - unfold well_formed. rewrite Htasks, !map_app. cbn [map].
    repeat split; apply NoDup_app; (split; [assumption|]);
      (split; [|apply NoDup_singleton]);
      intros x Hx Hx'; apply list_elem_of_singleton in Hx'; subst x; auto.
  - intros r Hr. exists r. rewrite Htasks. split; [|auto].
    apply elem_of_app. left. exact Hr.
Qed.

Lemma kept_create_task submission_id task s r s' :
  create_task E submission_id task s = (r, s') -> kept (table s) (table s').
Proof.
  apply kept_session. intros db v a db' v'. apply kept_add_task.
Qed.

(** A task that [create_task] returns is stored, and its [task_id] was not
    in the table. *)
Lemma create_task_stores submission_id task s row s' :
  create_task E submission_id task s = (Ok row, s') ->
  well_formed (table s) ->
  row ∈ tasks (table s')
  /\ row_task_id row = task_id task
  /\ row_round row = round task
  /\ forall r, r ∈ tasks (table s) -> row_task_id r <> task_id task.
Proof.
  intros Hrun Hwf.
  apply session_cases in Hrun as [[_ [e [=]]]|(a & v1 & v2 & Hst & [[= <-]|[e [=]]])].
  destruct (kept_others s Hwf) as [_ Hext].
  apply add_task_stores in Hst as (Htasks & Htask & Hround & _ & Hnew & _).
  split; [|split; [|split]].
  - rewrite Htasks. apply elem_of_app. right. apply list_elem_of_singleton. reflexivity.
  - exact Htask.
  - exact Hround.
  - intros r Hr Heq. destruct (Hext r Hr) as (r' & Hr' & _ & Htask' & _).
    apply Hnew. rewrite Htask, <- Heq, <- Htask'.
    apply (list_elem_of_fmap_2 row_task_id). exact Hr'.
Qed.

(** While a task with the [task_id] is stored for another round, the
    lookup of this [task_id] for the [round] finds nothing. *)
Lemma get_task_by_task_id_and_round_none task_id round s r s' row :
  well_formed (table s) ->
  row ∈ tasks (table s) -> row_task_id row = task_id -> row_round row <> round ->
  db_get_task_by_task_id_and_round E task_id round s = (r, s') ->
  r = Ok None \/ exists e, r = Raise e.
Proof.
  intros Hwf Hrow Htask Hround Hrun.
  apply session_cases in Hrun as [[_ Hr]|(a & v1 & v2 & Hst & [->|Hr])]; [auto| |auto].
  destruct (kept_others s Hwf) as [(_ & Hunique & _) Hext].
  set (db := fst (others E (table s) (rest s))) in *.
  destruct (Hext row Hrow) as (row' & Hrow' & _ & Htask' & Hround').
  assert (Hnone : filter (fun r => row_task_id r = task_id /\ row_round r = round) (tasks db)
                  = []).
  { apply filter_none, Forall_forall. intros x Hx [Hxt Hxr].
    assert (x = row') as -> by (apply (unique_key row_task_id (tasks db)); congruence).
    congruence. }
  rewrite Hnone in Hst. cbn in Hst. injection Hst as <- _ _. auto.
Qed.

Lemma kept_validate_student_secret email secret s r s' :
  validate_student_secret E email secret s = (r, s') -> kept (table s) (table s').
Proof.
  unfold validate_student_secret, try_except, bind.
  destruct (get_submission_by_email E email s) as [[found|e] s1] eqn:Hget;
    pose proof (kept_get_submission_by_email _ _ _ _ Hget) as Hkept.
  - destruct found as [submission|].
    + destruct (String.eqb _ _); [intros [= _ <-]; exact Hkept|].
      destruct (compare_digest _ _); intros [= _ <-]; exact Hkept.
    + intros [= _ <-]. exact Hkept.
  - intros [= _ <-]. exact Hkept.
Qed.

(** [request_task] keeps the tables; the task of the call that it queues
    is the task of the request, it is stored under the key of the call, and
    no task with its [task_id] was stored before. *)
Lemma request_task_stores initialized req s response job s' :
  request_task E initialized req s = (Ok (response, job), s') ->
  well_formed (table s) ->
  (well_formed (table s') /\ extends (table s) (table s'))
  /\ task_id (job_task job) = req_task req
  /\ round (job_task job) = req_round req
  /\ (exists row, row ∈ tasks (table s')
                  /\ row_id row = job_id job
                  /\ row_task_id row = req_task req
                  /\ row_round row = req_round req)
  /\ forall r, r ∈ tasks (table s) -> row_task_id r <> req_task req.
Proof.
  unfold request_task. destruct initialized; cbn [negb]; [|discriminate].
  unfold bind at 1.
  destruct (validate_student_secret E _ _ s) as [[valid|e] s1] eqn:Hvalid; [|discriminate].
  pose proof (kept_validate_student_secret _ _ _ _ _ Hvalid) as Hk1.
  destruct valid; cbn [negb]; [|discriminate].
  unfold check_rate_limit, bind at 1, ret at 1. cbn [negb].
  unfold try_except, bind at 1.
  destruct (get_or_create_submission E _ _ _ s1) as [[submission|e] s2] eqn:Hsub;
    [|discriminate].
  pose proof (kept_get_or_create_submission _ _ _ _ _ _ Hsub) as Hk2.
  unfold bind.
  destruct (create_task E _ _ s2) as [[db_task|e] s3] eqn:Hcreate; [|discriminate].
  pose proof (kept_create_task _ _ _ _ _ Hcreate) as Hk3.
  intros [= <- <- <-] Hwf.
  destruct (Hk1 Hwf) as [Hwf1 He1]. destruct (Hk2 Hwf1) as [Hwf2 He2].
  destruct (Hk3 Hwf2) as [Hwf3 He3].
  destruct (create_task_stores _ _ _ _ _ Hcreate Hwf2) as (Hin & Htask & Hround & Hfresh).
  cbn [job_task job_id task_id round] in *.
  split; [split; [exact Hwf3|]|].
  { exact (extends_trans _ _ _ (extends_trans _ _ _ He1 He2) He3). }
  split; [reflexivity|]. split; [reflexivity|]. split.
  - exists db_task. auto.
  - intros r Hr Heq.
    destruct (extends_trans _ _ _ He1 He2 r Hr) as (r' & Hr' & _ & Htask' & _).
    apply (Hfresh r' Hr'). congruence.
Qed.
End database_facts.

Lemma outside_call_beyond {U A} ev (op : extern U A) (s s' : run (host U) task_event) r :
  outside_call ev op s = (r, s') -> op (beyond (world s)) = (r, beyond (world s')).
Proof.
  unfold outside_call. destruct (op (beyond (world s))) as [r0 u].
  intros [= <- <-]. reflexivity.
Qed.

Section round2_facts.
Context {V : Type}.
Variable E : engine V.
Variable C : collaborators V.
Hypothesis E_orderly : orderly E.

(** The lookup of the round-1 task of a task that is stored for round 2. *)
Lemma round1_lookup_none (task_id : string) (s : store V) row :
  well_formed (table s) ->
  row ∈ tasks (table s) -> row_task_id row = task_id -> row_round row = 2 ->
  let found := fst (get_task_by_task_id_and_round (with_database E C) task_id 1 s) in
  found = Ok None \/ exists e, found = Raise e.
Proof.
  intros Hwf Hrow Htask Hround. cbn [get_task_by_task_id_and_round with_database].
  destruct (db_get_task_by_task_id_and_round E task_id 1 s) as [r s1] eqn:Hget.
  assert (Hne : row_round row <> 1) by lia.
  destruct (get_task_by_task_id_and_round_none E E_orderly _ _ _ _ _ _ Hwf Hrow Htask Hne Hget)
    as [->|[e ->]]; cbn; eauto.
Qed.

Lemma process_by_round_treated_as_new (task : task_data) (s : run (host (store V)) task_event)
    row :
  round task = 2 ->
  well_formed (table (beyond (world s))) ->
  row ∈ tasks (table (beyond (world s))) ->
  row_task_id row = task_id task -> row_round row = 2 ->
  process_by_round (with_database E C) task s = treated_as_new E C task s.
Proof.
  intros Hround Hwf Hrow Htask Hrow2.
  pose proof (round1_lookup_none (task_id task) _ row Hwf Hrow Htask Hrow2) as Hfound.
  unfold process_by_round, treated_as_new. rewrite Hround. cbn [Z.eqb Pos.eqb].
  unfold bind, outside_call.
  destruct (get_task_by_task_id_and_round (with_database E C) (task_id task) 1
              (beyond (world s))) as [found u].
  cbn [fst] in Hfound. destruct Hfound as [->|[e ->]]; reflexivity.
Qed.

Lemma avoids_treated_as_new (task : task_data) :
  avoids is_round2_update (treated_as_new E C task).
Proof.
  unfold treated_as_new.
  apply avoids_bind; [apply avoids_outside_call; reflexivity|]. intros existing_task.
  apply avoids_bind; [|intros result; apply avoids_ret].
  apply avoids_process_task. intros ev Hev. right. exact Hev.
Qed.

(** The processing of a task that is stored for round 2 never calls
    [update_application]. *)
Lemma avoids_process_autonomous_task id email (task : task_data)
    (s : run (host (store V)) task_event) row :
  round task = 2 ->
  well_formed (table (beyond (world s))) ->
  row ∈ tasks (table (beyond (world s))) ->
  row_task_id row = task_id task -> row_round row = 2 ->
  exists evs,
    trace (snd (process_autonomous_task (with_database E C) id email task s)) = trace s ++ evs
    /\ Forall (fun ev => is_round2_update ev = false) evs.
Proof.
  intros Hround Hwf Hrow Htask Hrow2.
  assert (Hclose : forall result,
             avoids is_round2_update
               ((match get_deployment result with
                 | Some d =>
                     outside_call (UpdateTaskDeployment id (repo_url d) (pages_url d))
                       (update_task_deployment (with_database E C) id (repo_url d) (pages_url d))
                 | None => ret tt
                 end) >>
                outside_call (UpdateTaskStatus id "completed")
                  (update_task_status (with_database E C) id "completed"))).
  { intros result. apply avoids_bind.
    - destruct (get_deployment result);
        [apply avoids_outside_call; reflexivity|apply avoids_ret].
    - intros _. apply avoids_outside_call. reflexivity. }
  assert (Hhandler : forall e,
             avoids is_round2_update
               (outside_call (UpdateTaskStatus id "failed")
                  (update_task_status (with_database E C) id "failed") >>
                outside_call (UpdateTaskError id (str e))
                  (update_task_error (with_database E C) id (str e)))).
  { intros e. apply avoids_bind; [|intros _]; apply avoids_outside_call; reflexivity. }
  assert (Hbody : forall r sb,
             (outside_call (UpdateTaskStatus id "processing")
                (update_task_status (with_database E C) id "processing") >>
              let* result := process_by_round (with_database E C) task in
              (match get_deployment result with
               | Some d =>
                   outside_call (UpdateTaskDeployment id (repo_url d) (pages_url d))
                     (update_task_deployment (with_database E C) id (repo_url d) (pages_url d))
               | None => ret tt
               end) >>
              outside_call (UpdateTaskStatus id "completed")
                (update_task_status (with_database E C) id "completed")) s = (r, sb) ->
             exists evs, trace sb = trace s ++ evs
                         /\ Forall (fun ev => is_round2_update ev = false) evs).
  { intros r sb. unfold bind at 1.
    destruct (outside_call (UpdateTaskStatus id "processing")
                (update_task_status (with_database E C) id "processing") s) as [[[]|e1] s1] eqn:H1;
      pose proof (outside_call_trace _ _ _ _ _ H1) as Htr1.
    2:{ intros [= _ <-]. exists [UpdateTaskStatus id "processing"].
        split; [exact Htr1|repeat constructor]. }
    apply outside_call_beyond in H1. cbn [update_task_status with_database] in H1.
    destruct (kept_update_task_status E E_orderly _ _ _ _ _ H1 Hwf) as [Hwf1 Hext1].
    destruct (Hext1 row Hrow) as (row1 & Hrow1 & _ & Htask1 & Hround1).
    unfold bind at 1.
    rewrite (process_by_round_treated_as_new task s1 row1 Hround Hwf1 Hrow1)
      by congruence.
    destruct (treated_as_new E C task s1) as [[result|e2] s2] eqn:H2;
      destruct (avoids_treated_as_new task _ _ _ H2) as (evs2 & Htr2 & Hall2).
    2:{ intros [= _ <-]. exists ([UpdateTaskStatus id "processing"] ++ evs2).
        rewrite Htr2, Htr1, <- app_assoc. split; [reflexivity|].
        apply Forall_app. split; [repeat constructor|exact Hall2]. }
    intros H3. destruct (Hclose result _ _ _ H3) as (evs3 & Htr3 & Hall3).
    exists ([UpdateTaskStatus id "processing"] ++ evs2 ++ evs3).
    rewrite Htr3, Htr2, Htr1, <- !app_assoc. split; [reflexivity|].
    repeat (apply Forall_app; split); [repeat constructor|assumption|assumption]. }
  unfold process_autonomous_task, try_except.
  match goal with |- context [match ?m s with _ => _ end] =>
    specialize (Hbody (fst (m s)) (snd (m s)) (surjective_pairing _));
    destruct (m s) as [[[]|e] sb] end;
    cbn [fst snd] in Hbody; destruct Hbody as (evs & Htr & Hall).
  - exists evs. auto.
  - match goal with |- context [snd (?h sb)] => destruct (h sb) as [r s'] eqn:Hh end.
    destruct (Hhandler e _ _ _ Hh) as (evs' & Htr' & Hall').
    exists (evs ++ evs'). cbn [snd]. rewrite Htr', Htr, <- app_assoc.
    split; [reflexivity|apply Forall_app; auto].
Qed.
End round2_facts.



(** Once the first round of a task is stored, and even processed, a
    request for its second round under the same [task_id] is refused with
    the status 500, and nothing is queued. *)
Example request_round2_after_round1 :
  let C := lab (Ok tt) (Ok tt) None in
  let st1 := snd (request_task quiet_engine true (sample_task_request 1)
                    (Store (Database [] []) 0%nat)) in
  let s1 := snd (process_autonomous_task (with_database quiet_engine C) 1
                   "student@example.com" (sample_task 1) (start (Host ∅ ∅ st1))) in
  map (fun r => (row_task_id r, row_round r, row_status r, row_repo_url r))
    (tasks (table (beyond (world s1))))
  = [("sales", 1, "completed", Some "https://github.com/user/sales")]
  /\ fst (request_task quiet_engine true
            (TaskRequest "student@example.com" "s3cret" "n-43" "sales" 2
               "Show the total per region" sample_checks "https://example.com/notify"
               None None)
            (beyond (world s1)))
     = Raise (HTTPException 500 "Failed to process task request").
Proof.
  cbv zeta. split; vm_compute; reflexivity.
Qed.
